(** * ACH invoice reconciliation: a shallow embedding of [reconciliation.py]

    The development follows the script top to bottom: the description parser
    [parse_line_item] (a regular expression followed by string splitting), the
    week-ending derivation, the reconciliation run of the button handler with
    its [try]/[except] structure, and the layout of the report rows.

    Python text is modelled by [string]: a character is an 8-bit code point
    (Latin-1), on which the classes used by the script are exact: [\d] is
    [0-9], [.] is everything but the line feed, and [str.split]/[str.strip]
    use the white space of [str.isspace].

    What the libraries do is modelled where the script depends on it:
    [float], [round] and [repr] on binary64 numbers, the pairwise sum of a
    float64 column and the scaled rounding of its result, the range of the
    timestamps behind [to_datetime] and the checked addition of days, the
    order of [sort_values], the truth value and the text of a cell, and the
    texts that a cell of a workbook refuses.

    The data frame is typed: the nine columns the script reads exist,
    [Extended Amount] is a float64 column and [Payment Date] is taken after
    its conversion to dates.  A column of whole numbers only is a column of
    64-bit integers to the library, which adds them exactly; the float sum is
    that sum as long as the running sums stay below [2^53] in magnitude.

    The script pins no version of its libraries.  Where the versions of
    [pandas] differ, the run is modelled as version 2 has it: a missing text
    in a column built by [apply] is [None], and a timestamp counts
    nanoseconds, which bounds the dates from 1677-09-22 to 2262-04-11.  From
    version 3 on a missing text is the float [nan] and the timestamps reach
    further.  The statements on week endings therefore name the years and
    the rows they speak of, and [format_layout] is the loop of lines 89-97
    for either kind of null.

    One thing the library leaves open is fixed here: rows with equal keys
    keep their order when sorted.  The statements speak of the sorted rows
    through their order by key and as a permutation of the rows that were
    sorted.  The sheet of the model holds the values handed to [append]; a
    text of more than 32767 characters is cut by the cell that takes it,
    which changes no column width. *)

From Stdlib Require Import Bool Arith NArith ZArith Lia List Ascii String.
From Stdlib Require Import Floats Sorted Permutation.
Import ListNotations.

Set Implicit Arguments.

Local Open Scope string_scope.

(** ** Exceptions and results *)

Inductive exn_class : Type :=
| ValueError
| IndexError
| KeyError
| TypeError
| OverflowError
| OtherException.

Record exn : Type := mkExn { exn_kind : exn_class; exn_message : string }.

Inductive result (A : Type) : Type :=
| Ok (a : A)
| Raise (e : exn).

Arguments Ok {A} a.
Arguments Raise {A} e.

Definition bind {A B : Type} (m : result A) (k : A -> result B) : result B :=
  match m with
  | Ok a => k a
  | Raise e => Raise e
  end.

Definition obind {A B : Type} (m : option A) (k : A -> option B) : option B :=
  match m with
  | Some a => k a
  | None => None
  end.

Declare Scope py_scope.
Delimit Scope py_scope with py.
Notation "x <- m ;; k" := (bind m (fun x => k))
  (at level 61, m at next level, right associativity) : py_scope.
Notation "' p <~ m ;; k" := (obind m (fun x => match x with p => k end))
  (at level 61, p pattern, m at next level, right associativity) : py_scope.
Notation "x <~ m ;; k" := (obind m (fun x => k))
  (at level 61, m at next level, right associativity) : py_scope.

(** ** Characters *)

Module Char.

Definition code (c : ascii) : N := N_of_ascii c.

(** [\d] *)
Definition is_digit (c : ascii) : bool :=
  ((48 <=? code c) && (code c <=? 57))%N.

(** [str.isspace] on one character: TAB..CR, FS..US, SPACE, NEL, NBSP. *)
Definition is_space (c : ascii) : bool :=
  (((9 <=? code c) && (code c <=? 13))
   || ((28 <=? code c) && (code c <=? 32))
   || (code c =? 133) || (code c =? 160))%N.

(** [.] without DOTALL: any character except the line feed. *)
Definition is_newline (c : ascii) : bool := (code c =? 10)%N.

End Char.

Arguments Char.is_digit : simpl never.
Arguments Char.is_space : simpl never.
Arguments Char.is_newline : simpl never.

(** ** The pieces of the regular expression *)

Module Regex.

Import Char.

(** A literal: strips [lit] from the front of [s]. *)
Fixpoint expect (lit s : string) : option string :=
  match lit with
  | EmptyString => Some s
  | String a lit' =>
      match s with
      | EmptyString => None
      | String b s' => if Ascii.eqb a b then expect lit' s' else None
      end
  end.

(** The longest run of digits at the front of [s], and what follows it. *)
Fixpoint span_digits (s : string) : string * string :=
  match s with
  | EmptyString => (EmptyString, EmptyString)
  | String c s' =>
      if is_digit c
      then let (ds, r) := span_digits s' in (String c ds, r)
      else (EmptyString, s)
  end.

(** [\d+], greedy.  The token after it in the pattern is [\)], which no
    digit matches, so giving digits back can never help: only the longest
    run is tried. *)
Definition digits1 (s : string) : option (string * string) :=
  match span_digits s with
  | (EmptyString, _) => None
  | (ds, r) => Some (ds, r)
  end.

(** [\d{n}] *)
Fixpoint digits_n (n : nat) (s : string) : option (string * string) :=
  match n with
  | O => Some (EmptyString, s)
  | S n' =>
      match s with
      | EmptyString => None
      | String c s' =>
          if is_digit c
          then '(ds, r) <~ digits_n n' s' ;; Some (String c ds, r)
          else None
      end
  end%py.

(** [\d{4}-\d{2}-\d{2}] *)
Definition date_shape (s : string) : option (string * string) :=
  ('(y, s1) <~ digits_n 4 s ;;
   s2 <~ expect "-" s1 ;;
   '(m, s3) <~ digits_n 2 s2 ;;
   s4 <~ expect "-" s3 ;;
   '(d, s5) <~ digits_n 2 s4 ;;
   Some (y ++ "-" ++ m ++ "-" ++ d, s5))%py.

(** The groups of a successful match (group 0 is not used by the script). *)
Record groups : Type := mkGroups {
  group1 : string;
  group2 : string;
  group3 : string;
  group4 : string
}.

(** Everything after group 1:
    [ \((S\d+)\)\[C\]:(\d{4}-\d{2}-\d{2}):(\d{4}-\d{2}-\d{2})].
    Returns groups 2 to 4 and the unmatched remainder. *)
Definition match_tail (s : string) : option (string * string * string * string) :=
  (s1 <~ expect " (" s ;;
   s2 <~ expect "S" s1 ;;
   '(ds, s3) <~ digits1 s2 ;;
   s4 <~ expect ")[C]:" s3 ;;
   '(d1, s5) <~ date_shape s4 ;;
   s6 <~ expect ":" s5 ;;
   '(d2, s7) <~ date_shape s6 ;;
   Some ("S" ++ ds, d1, d2, s7))%py.

(** [(.+?)] followed by the tail.  The lazy group takes one character, then
    grows one character at a time until the tail matches; it cannot grow
    over a line feed. *)
Fixpoint lazy_search (s : string) : option (groups * string) :=
  match s with
  | EmptyString => None
  | String c s' =>
      if is_newline c then None
      else
        match match_tail s' with
        | Some (g2, g3, g4, r) => Some (mkGroups (String c EmptyString) g2 g3 g4, r)
        | None =>
            match lazy_search s' with
            | Some (g, r) =>
                Some (mkGroups (String c (group1 g)) (group2 g) (group3 g) (group4 g), r)
            | None => None
            end
        end
  end.

(** [re.match(pattern, s)]: anchored at the start, not at the end. *)
Definition re_match (s : string) : option groups :=
  option_map fst (lazy_search s).

End Regex.

(** ** [str.strip], [str.split] and [str.join] *)

Module Str.

Import Char.

Fixpoint lstrip (s : string) : string :=
  match s with
  | EmptyString => EmptyString
  | String c s' => if is_space c then lstrip s' else s
  end.

Fixpoint rstrip (s : string) : string :=
  match s with
  | EmptyString => EmptyString
  | String c s' =>
      match rstrip s' with
      | EmptyString => if is_space c then EmptyString else String c EmptyString
      | r => String c r
      end
  end.

Definition strip (s : string) : string := rstrip (lstrip s).

(** The same with another class of characters to drop. *)
Fixpoint lstrip_with (p : ascii -> bool) (s : string) : string :=
  match s with
  | EmptyString => EmptyString
  | String c s' => if p c then lstrip_with p s' else s
  end.

Fixpoint rstrip_with (p : ascii -> bool) (s : string) : string :=
  match s with
  | EmptyString => EmptyString
  | String c s' =>
      match rstrip_with p s' with
      | EmptyString => if p c then EmptyString else String c EmptyString
      | r => String c r
      end
  end.

Definition strip_with (p : ascii -> bool) (s : string) : string :=
  rstrip_with p (lstrip_with p s).

(** [s.split()] with no separator: the maximal runs of non-space characters.
    [tok] is the token being read. *)
Fixpoint split_from (tok s : string) : list string :=
  match s with
  | EmptyString =>
      match tok with EmptyString => [] | _ => [tok] end
  | String c s' =>
      if is_space c
      then match tok with
           | EmptyString => split_from EmptyString s'
           | _ => tok :: split_from EmptyString s'
           end
      else split_from (tok ++ String c EmptyString) s'
  end.

Definition split (s : string) : list string := split_from EmptyString s.

(** [sep.join(l)] *)
Definition join (sep : string) (l : list string) : string := String.concat sep l.

End Str.

(** ** Decimal numerals *)

Module Dec.

Definition digit_char (d : Z) : ascii := ascii_of_N (Z.to_N (48 + d)).

Definition digit_val (c : ascii) : Z := Z.of_N (Char.code c) - 48.

(** The digits of [n >= 0], most significant first, in front of [acc]. *)
Fixpoint digits_onto (fuel : nat) (n : Z) (acc : string) : string :=
  let acc' := String (digit_char (n mod 10)) acc in
  match fuel with
  | O => acc'
  | S fuel' => if (n <? 10)%Z then acc' else digits_onto fuel' (n / 10) acc'
  end.

Definition of_nonneg (n : Z) : string :=
  digits_onto (Z.to_nat (Z.log2 n)) n EmptyString.

(** [str(n)] for a Python [int]. *)
Definition of_Z (n : Z) : string :=
  if (n <? 0)%Z then String "-" (of_nonneg (- n)) else of_nonneg n.

(** The value of a run of digits read after [acc]. *)
Fixpoint value_from (acc : Z) (s : string) : Z :=
  match s with
  | EmptyString => acc
  | String c s' => value_from (10 * acc + digit_val c) s'
  end.

Definition value (s : string) : Z := value_from 0 s.

Fixpoint zeros (k : nat) : string :=
  match k with O => EmptyString | S k' => String "0" (zeros k') end.

(** [n] written with at least [width] digits, zero-padded on the left. *)
Definition padded (width : nat) (n : Z) : string :=
  let s := of_nonneg n in
  zeros (width - String.length s) ++ s.

End Dec.

(** ** Binary64 numbers

    A Python [float] is an IEEE 754 binary64 number: the carrier is the
    primitive [float], whose [+], [*], [/] and [==] are the hardware
    operations.  Conversions from and to decimal text are computed exactly on
    integers and rounded once, to nearest with ties to even. *)

Module Float64.

Local Open Scope Z_scope.

(** [n/d] rounded to an integer, ties to even ([0 <= n], [0 < d]). *)
Definition div_half_even (n d : Z) : Z :=
  let (q, r) := Z.div_eucl n d in
  match 2 * r ?= d with
  | Lt => q
  | Gt => q + 1
  | Eq => if Z.even q then q else q + 1
  end.

(** The float nearest to [n/d], with the given sign ([0 <= n], [0 < d]). *)
Definition nearest (neg : bool) (n d : Z) : float :=
  SF2Prim
    match n with
    | Z0 => S754_zero neg
    | _ =>
        let '(m, e, l) := SFdiv_core_binary prec emax n 0 d 0 in
        binary_round_aux prec emax neg m e l
    end.

(** The float nearest to [m * 10^e] ([0 <= m]).  Beyond the range of the
    format the result is decided without building the power of ten. *)
Definition of_decimal (neg : bool) (m e : Z) : float :=
  if m =? 0 then SF2Prim (S754_zero neg)
  else
    let nd := Z.of_nat (String.length (Dec.of_nonneg m)) in
    if 310 <? nd + e then SF2Prim (S754_infinity neg)
    else if nd + e <? -330 then SF2Prim (S754_zero neg)
    else if 0 <=? e then nearest neg (m * 10 ^ e) 1
    else nearest neg m (10 ^ (- e)).

(** *** [float(text)] *)

Definition lower (c : ascii) : ascii :=
  let n := Char.code c in
  if ((65 <=? n) && (n <=? 90))%N then ascii_of_N (n + 32) else c.

Fixpoint lower_str (s : string) : string :=
  match s with
  | EmptyString => EmptyString
  | String c s' => String (lower c) (lower_str s')
  end.

Definition is_underscore (c : ascii) : bool := Ascii.eqb c "_".

(** Digit grouping: an underscore must stand between two digits. *)
Fixpoint drop_underscores (prev : ascii) (s : string) : option string :=
  match s with
  | EmptyString => if is_underscore prev then None else Some EmptyString
  | String c s' =>
      if is_underscore c
      then if Char.is_digit prev then drop_underscores c s' else None
      else if is_underscore prev && negb (Char.is_digit c) then None
           else option_map (String c) (drop_underscores c s')
  end.

Definition parse_sign (s : string) : bool * string :=
  match s with
  | String c r =>
      if Ascii.eqb c "-" then (true, r)
      else if Ascii.eqb c "+" then (false, r)
      else (false, s)
  | EmptyString => (false, s)
  end.

(** The optional exponent; when no digit follows the [e], nothing of it is
    consumed. *)
Definition parse_exponent (s : string) : Z * string :=
  match s with
  | String c r =>
      if Ascii.eqb (lower c) "e"
      then
        let (eneg, r1) := parse_sign r in
        match Regex.span_digits r1 with
        | (EmptyString, _) => (0, s)
        | (ed, r2) => ((if eneg then - Dec.value ed else Dec.value ed), r2)
        end
      else (0, s)
  | EmptyString => (0, s)
  end.

(** [digits [. digits] [exponent]] or [. digits [exponent]]: the mantissa
    as an integer, the power of ten, and what is left. *)
Definition parse_number (s : string) : option (Z * Z * string) :=
  let (ip, s1) := Regex.span_digits s in
  let (fp, s2) :=
    match s1 with
    | String c r => if Ascii.eqb c "." then Regex.span_digits r else (EmptyString, s1)
    | EmptyString => (EmptyString, s1)
    end in
  match (ip ++ fp)%string with
  | EmptyString => None
  | ds =>
      let (e, s3) := parse_exponent s2 in
      Some (Dec.value ds, e - Z.of_nat (String.length fp), s3)
  end.

(** The white space that [float] drops around a number: TAB to CR and the
    blank, and NEL and NBSP, which it reads as blanks.  The separators FS to
    US (codes 28 to 31), which [str.strip] drops, are not among them. *)
Definition is_float_space (c : ascii) : bool :=
  let n := Char.code c in
  (((9 <=? n) && (n <=? 13)) || (n =? 32) || (n =? 133) || (n =? 160))%N.

Definition float_of_str (text : string) : option float :=
  match Str.strip_with is_float_space text with
  | EmptyString => None
  | s =>
      match drop_underscores " " s with
      | None => None
      | Some s1 =>
          let (neg, r) := parse_sign s1 in
          match parse_number r with
          | Some (m, e, EmptyString) => Some (of_decimal neg m e)
          | Some _ => None
          | None =>
              let l := lower_str r in
              if (String.eqb l "inf" || String.eqb l "infinity")%bool
              then Some (if neg then neg_infinity else infinity)
              else if String.eqb l "nan" then Some nan
              else None
          end
      end
  end.

(** *** Rounding to two places *)

(** [round(x, 2)] on a [float]: the exact value is rounded to the nearest
    multiple of [0.01] (ties to even) and that decimal is converted back. *)
Definition py_round2 (x : float) : float :=
  match Prim2SF x with
  | S754_finite s m e =>
      if 0 <=? e then x
      else nearest s (div_half_even (Zpos m * 100) (2 ^ (- e))) 100
  | _ => x
  end.

(** [rint]: the nearest integral float, ties to even. *)
Definition rint (x : float) : float :=
  match Prim2SF x with
  | S754_finite s m e =>
      if 0 <=? e then x
      else nearest s (div_half_even (Zpos m) (2 ^ (- e))) 1
  | _ => x
  end.

(** [round(x, 2)] on a numpy scalar, which is what a column sum is: the
    library scales, rounds to an integer and scales back, each step in
    floating point. *)
Definition np_round2 (x : float) : float :=
  (rint (x * 100) / 100)%float.

(** *** [repr(x)], the shortest text that reads back as [x] *)

Definition le_pow10 (k n d : Z) : bool :=
  if 0 <=? k then 10 ^ k * d <=? n else d <=? n * 10 ^ (- k).

Fixpoint log10_up (fuel : nat) (k n d : Z) : Z :=
  match fuel with
  | O => k
  | S f => if le_pow10 (k + 1) n d then log10_up f (k + 1) n d else k
  end.

Fixpoint log10_down (fuel : nat) (k n d : Z) : Z :=
  match fuel with
  | O => k
  | S f => if le_pow10 k n d then k else log10_down f (k - 1) n d
  end.

(** The largest [k] with [10^k <= n/d]. *)
Definition floor_log10 (n d : Z) : Z :=
  let est := ((Z.log2 n - Z.log2 d) * 30103) / 100000 in
  log10_up 4 (log10_down 4 est n d) n d.

(** The [p]-digit decimals around [n/d]: the closer one first. *)
Definition candidates (p k n d : Z) : Z * (Z * Z) :=
  let sc := k - p + 1 in
  let (num, den) := if 0 <=? sc then (n, d * 10 ^ sc) else (n * 10 ^ (- sc), d) in
  let (lo, r) := Z.div_eucl num den in
  let lo_first :=
    match 2 * r ?= den with
    | Lt => true
    | Gt => false
    | Eq => Z.even lo
    end in
  (sc, if lo_first then (lo, lo + 1) else (lo + 1, lo)).

Fixpoint shortest (fuel : nat) (p k n d : Z) (ax : float) : Z * Z :=
  let '(sc, (c1, c2)) := candidates p k n d in
  match fuel with
  | O => (c1, sc)
  | S f =>
      if PrimFloat.eqb (of_decimal false c1 sc) ax then (c1, sc)
      else if PrimFloat.eqb (of_decimal false c2 sc) ax then (c2, sc)
      else shortest f (p + 1) k n d ax
  end.

Fixpoint strip_zeros (fuel : nat) (c sc : Z) : Z * Z :=
  match fuel with
  | O => (c, sc)
  | S f => if (c mod 10 =? 0) && (0 <? c) then strip_zeros f (c / 10) (sc + 1) else (c, sc)
  end.

Definition take (n : nat) (s : string) : string := String.substring 0 n s.
Definition drop (n : nat) (s : string) : string := String.substring n (String.length s - n) s.

(** The layout of [repr]: digits [ds] with the decimal point after the
    first [decpt] of them; scientific notation outside [1e-4, 1e16). *)
Definition layout (ds : string) (decpt : Z) : string :=
  let nd := Z.of_nat (String.length ds) in
  if (decpt <=? -4) || (16 <? decpt) then
    let ex := decpt - 1 in
    (take 1 ds
     ++ (if (1 <? nd)%Z then "." ++ drop 1 ds else "")
     ++ "e" ++ (if (ex <? 0)%Z then "-" else "+") ++ Dec.padded 2 (Z.abs ex))%string
  else if decpt <=? 0 then
    ("0." ++ Dec.zeros (Z.to_nat (- decpt)) ++ ds)%string
  else if decpt <? nd then
    (take (Z.to_nat decpt) ds ++ "." ++ drop (Z.to_nat decpt) ds)%string
  else
    (ds ++ Dec.zeros (Z.to_nat (decpt - nd)) ++ ".0")%string.

Definition repr (x : float) : string :=
  match Prim2SF x with
  | S754_nan => "nan"
  | S754_infinity s => if s then "-inf" else "inf"
  | S754_zero s => if s then "-0.0" else "0.0"
  | S754_finite s m e =>
      let (n, d) := if 0 <=? e then (Zpos m * 2 ^ e, 1) else (Zpos m, 2 ^ (- e)) in
      let k := floor_log10 n d in
      let (c0, sc0) := shortest 16 1 k n d (PrimFloat.abs x) in
      let (c, sc) := strip_zeros 20 c0 sc0 in
      let ds := Dec.of_nonneg c in
      ((if s then "-" else "") ++ layout ds (Z.of_nat (String.length ds) + sc))%string
  end.

(** Python truth value of a float: everything but zero. *)
Definition truthy (x : float) : bool := negb (PrimFloat.eqb x 0%float).

End Float64.

(** ** Calendar dates

    [pd.to_datetime(..., errors='coerce')] on the text of a week ending, the
    [timedelta] shift and [strftime('%Y-%m-%d')].  Dates are proleptic
    Gregorian dates of the years 1 to 9999; the narrower bounds of the
    library's timestamps are applied by [to_datetime] and [add_two_days]
    below. *)

Module Date.

Local Open Scope Z_scope.

Record t : Type := mk { year : Z; month : Z; day : Z }.

Definition is_leap (y : Z) : bool :=
  (y mod 4 =? 0) && (negb (y mod 100 =? 0) || (y mod 400 =? 0)).

Definition days_in_month (y m : Z) : Z :=
  match m with
  | 1 | 3 | 5 | 7 | 8 | 10 | 12 => 31
  | 4 | 6 | 9 | 11 => 30
  | 2 => if is_leap y then 29 else 28
  | _ => 0
  end.

Definition valid (d : t) : bool :=
  (1 <=? year d) && (year d <=? 9999)
  && (1 <=? month d) && (month d <=? 12)
  && (1 <=? day d) && (day d <=? days_in_month (year d) (month d)).

Definition eqb (a b : t) : bool :=
  (year a =? year b) && (month a =? month b) && (day a =? day b).

(** [a <= b] on the calendar. *)
Definition leb (a b : t) : bool :=
  (year a <? year b)
  || ((year a =? year b)
      && ((month a <? month b) || ((month a =? month b) && (day a <=? day b)))).

(** The day after [d]. *)
Definition next_day (d : t) : t :=
  if day d <? days_in_month (year d) (month d)
  then mk (year d) (month d) (day d + 1)
  else if month d <? 12
       then mk (year d) (month d + 1) 1
       else mk (year d + 1) 1 1.

(** [d + timedelta(days=n)] *)
Definition add_days (n : nat) (d : t) : t := Nat.iter n next_day d.

(** Days before the first of January of year [y], counted from 0001-01-01. *)
Definition days_before_year (y : Z) : Z :=
  let p := y - 1 in 365 * p + p / 4 - p / 100 + p / 400.

(** Days of the year before the first of month [m]. *)
Definition days_before_month (y m : Z) : Z :=
  match m with
  | 1 => 0 | 2 => 31 | 3 => 59 | 4 => 90 | 5 => 120 | 6 => 151
  | 7 => 181 | 8 => 212 | 9 => 243 | 10 => 273 | 11 => 304 | 12 => 334
  | _ => 0
  end
  + (if (2 <? m) && is_leap y then 1 else 0).

(** [date.toordinal()]: 0001-01-01 is day 1. *)
Definition ordinal (d : t) : Z :=
  days_before_year (year d) + days_before_month (year d) (month d) + day d.

(** [strftime('%Y-%m-%d')] *)
Definition isoformat (d : t) : string :=
  (Dec.padded 4 (year d) ++ "-" ++ Dec.padded 2 (month d) ++ "-" ++ Dec.padded 2 (day d))%string.

(** Reading [YYYY-MM-DD]: the shape is that of the regular expression, and
    the fields must name a day of the calendar. *)
Definition parse_iso (s : string) : option t :=
  ('(y, s1) <~ Regex.digits_n 4 s ;;
   s2 <~ Regex.expect "-" s1 ;;
   '(m, s3) <~ Regex.digits_n 2 s2 ;;
   s4 <~ Regex.expect "-" s3 ;;
   '(d, s5) <~ Regex.digits_n 2 s4 ;;
   match s5 with
   | EmptyString =>
       let r := mk (Dec.value y) (Dec.value m) (Dec.value d) in
       if valid r then Some r else None
   | _ => None
   end)%py.

End Date.

(** ** Cell values

    What a cell of the uploaded sheet, of a data frame or of the output sheet
    can hold. *)

Inductive value : Type :=
| VNone
| VStr (s : string)
| VFloat (x : float)
| VInt (n : Z)
| VBool (b : bool)
| VTimestamp (d : Date.t) (seconds : Z).

(** [HH:MM:SS] of a number of seconds since midnight. *)
Definition clock (seconds : Z) : string :=
  (Dec.padded 2 (seconds / 3600) ++ ":" ++ Dec.padded 2 (seconds / 60 mod 60)
   ++ ":" ++ Dec.padded 2 (seconds mod 60))%Z.

(** [str(v)] *)
Definition str (v : value) : string :=
  match v with
  | VNone => "None"
  | VStr s => s
  | VFloat x => Float64.repr x
  | VInt n => Dec.of_Z n
  | VBool b => if b then "True" else "False"
  | VTimestamp d seconds => Date.isoformat d ++ " " ++ clock seconds
  end.

(** [bool(v)], the test of [if v] *)
Definition truthy (v : value) : bool :=
  match v with
  | VNone => false
  | VStr s => negb (String.eqb s "")
  | VFloat x => Float64.truthy x
  | VInt n => negb (n =? 0)%Z
  | VBool b => b
  | VTimestamp _ _ => true
  end.

(** Text or [None], as a cell: a missing text of a column of Python
    objects. *)
Definition of_text (o : option string) : value :=
  match o with
  | Some s => VStr s
  | None => VNone
  end.

(** ** The description parser *)

(** The four-element series returned by [parse_line_item], named after the
    columns it is assigned to. *)
Record parsed : Type := mkParsed {
  first_name : option string;
  last_name : option string;
  candidate_id : option string;
  vector_week_ending : option string
}.

Definition all_null : parsed := mkParsed None None None None.

Definition index_error : exn := mkExn IndexError "list index out of range".

(** [l[0]] *)
Definition item0 (l : list string) : result string :=
  match l with
  | x :: _ => Ok x
  | [] => Raise index_error
  end.

Definition parse_line_item (description : value) : result parsed :=
  match Regex.re_match (str description) with
  | Some m =>
      let full_name := Str.split (Str.strip (Regex.group1 m)) in
      (first <- item0 full_name ;;
       Ok (mkParsed
             (Some first)
             (Some (if (1 <? List.length full_name)%nat
                    then Str.join " " (List.tl full_name)
                    else ""))
             (Some (Regex.group2 m))
             (Some (Regex.group4 m))))%py
  | None => Ok all_null
  end.

(** ** Week-ending derivation (lines 61-62) *)

Definition nan_cell : value := VFloat nan.

(** The days on which a timestamp of the library exists at midnight, when
    a timestamp counts nanoseconds on 64 bits as in version 2 of the
    library: from 1677-09-21 00:12:43 to 2262-04-11 23:47:16. *)
Definition timestamp_first : Date.t := Date.mk 1677 9 22.
Definition timestamp_last : Date.t := Date.mk 2262 4 11.

Definition in_timestamp_range (d : Date.t) : bool :=
  Date.leb timestamp_first d && Date.leb d timestamp_last.

(** [pd.to_datetime(v, errors='coerce')] on one entry of the week-ending
    column, which holds nulls and the date-shaped texts that the pattern
    captures: the day the text names when it is a day of the calendar that a
    timestamp can hold, and [None], for [NaT], otherwise. *)
Definition to_datetime (v : option string) : option Date.t :=
  match v with
  | Some s =>
      match Date.parse_iso s with
      | Some d => if in_timestamp_range d then Some d else None
      | None => None
      end
  | None => None
  end.

Definition overflow_error : exn := mkExn OverflowError "Overflow in int64 addition".

(** [timestamp + timedelta(days=2)]: the addition is checked, and fails
    when the result is past the last timestamp. *)
Definition add_two_days (d : Date.t) : result Date.t :=
  let r := Date.add_days 2 d in
  if in_timestamp_range r then Ok r else Raise overflow_error.

(** The [FMS Week Ending] of a [Vector Week Ending]: two days later as
    [YYYY-MM-DD] text, or null; the exception of the addition leaves the
    derivation. *)
Definition fms_week_ending_of (vector : option string) : result (option string) :=
  match to_datetime vector with
  | Some d => (r <- add_two_days d ;; Ok (Some (Date.isoformat r)))%py
  | None => Ok None
  end.

(** ** The data frame *)

(** One row of the uploaded sheet.  [payment_date] is the column after line
    44: the calendar date the library recognised in the cell, [None] for
    [NaT].  [extended_amount] is a float64 column, a missing amount being
    NaN. *)
Record InvoiceRow : Type := mkInvoiceRow {
  payment_date : option Date.t;
  line_item_description : value;
  extended_amount : float;
  quantity : value;
  unit_cost : value;
  invoice_amount : value;
  due_date : value;
  cai_invoice_number : value;
  supplier_invoice_number : value
}.

(** One row of [df_final] before the summary columns are dropped. *)
Record ReconciledRow : Type := mkReconciledRow {
  r_first_name : option string;
  r_last_name : option string;
  r_candidate_id : option string;
  r_vector_week_ending : option string;
  r_fms_week_ending : option string;
  r_hours : value;
  r_bill_rate : value;
  r_extended_amount : float;
  r_invoice_amount : value;
  r_due_date : value;
  r_cai_invoice_number : value;
  r_esg_invoice_number : value;
  r_ach_description : string;
  r_ach_amount : float;
  r_ach_date : string
}.

(** The columns of the body, in output order. *)
Definition body_columns : list string :=
  [ "First Name"; "Last Name"; "Candidate CAI ID"; "Vector Week Ending";
    "FMS Week Ending"; "Hours"; "Bill Rate"; "Extended Amount";
    "Invoice Amount"; "Due Date"; "CAI Invoice Number"; "ESG Invoice Number" ].

(** A null of the [FMS Week Ending] column is the NaN that [strftime] leaves
    for [NaT]; the nulls of the parsed columns are [None]. *)
Definition fms_cell (o : option string) : value :=
  match o with
  | Some s => VStr s
  | None => nan_cell
  end.

(** [row.tolist()] once the summary columns are dropped. *)
Definition tolist (r : ReconciledRow) : list value :=
  [ of_text (r_first_name r); of_text (r_last_name r); of_text (r_candidate_id r);
    of_text (r_vector_week_ending r); fms_cell (r_fms_week_ending r);
    r_hours r; r_bill_rate r; VFloat (r_extended_amount r); r_invoice_amount r;
    r_due_date r; r_cai_invoice_number r; r_esg_invoice_number r ].

(** ** Sorting (line 82)

    [sort_values] orders the rows whose key is not null by the text of the
    key and puts the rows with a null key after them.  The model sorts by
    insertion, which keeps equal keys in their order of arrival; the
    library's default sort does not promise that for the rows whose key is
    not null. *)

Section Sort.

Variable A : Type.
Variable key : A -> option string.

Definition is_null (a : A) : bool :=
  match key a with
  | None => true
  | Some _ => false
  end.

(** The order on keys: text by code points, null last. *)
Definition key_le (k1 k2 : option string) : bool :=
  match k1, k2 with
  | _, None => true
  | None, Some _ => false
  | Some s1, Some s2 => String.leb s1 s2
  end.

(** [a] sorts before [b], or with it. *)
Definition le_by_key (a b : A) : Prop := key_le (key a) (key b) = true.

Fixpoint insert (a : A) (l : list A) : list A :=
  match l with
  | [] => [a]
  | b :: l' => if key_le (key a) (key b) then a :: l else b :: insert a l'
  end.

Fixpoint isort (l : list A) : list A :=
  match l with
  | [] => []
  | a :: l' => insert a (isort l')
  end.

Definition sort_values (l : list A) : list A :=
  (isort (filter (fun a => negb (is_null a)) l) ++ filter is_null l)%list.

End Sort.

(** ** Blank rows between week endings (lines 89-97) *)

(** Truth value of [prev_week], a text or the [None] of a column of Python
    objects: [None] and the empty text are false. *)
Definition week_truthy (w : option string) : bool :=
  match w with
  | Some s => negb (String.eqb s "")
  | None => false
  end.

(** [current_week != prev_week] *)
Definition week_neqb (a b : option string) : bool :=
  match a, b with
  | Some s1, Some s2 => negb (String.eqb s1 s2)
  | None, None => false
  | _, _ => true
  end.

Definition blank_row : list value := repeat (VStr "") (List.length body_columns).

(** The loop, with [prev_week] as its state. *)
Fixpoint format_from (prev_week : option string) (rows : list ReconciledRow)
  : list (list value) :=
  match rows with
  | [] => []
  | row :: rest =>
      let current_week := r_vector_week_ending row in
      ((if week_truthy prev_week && week_neqb current_week prev_week
        then [blank_row] else [])
       ++ tolist row :: format_from current_week rest)%list
  end.

Definition formatted_rows (rows : list ReconciledRow) : list (list value) :=
  format_from None rows.

(** *** The loop on either kind of null

    What a missing week ending is depends on the column that [apply] builds
    from the parser's results: [None] in a column of Python objects, which is
    the case above, and the float [nan] in a column of the library's own text
    type, which the library builds from its version 3 on.  The script pins
    no version.  [format_layout] is the loop on a week ending of either
    kind; it records what is appended and leaves the cells aside. *)

Inductive week_cell : Type :=
| WText (s : string)
| WNone
| WNaN.

(** [bool(w)]: [nan] is a float that is not zero. *)
Definition cell_truthy (w : week_cell) : bool :=
  match w with
  | WText s => negb (String.eqb s "")
  | WNone => false
  | WNaN => true
  end.

(** [a != b]: [nan] differs from everything, itself included. *)
Definition cell_neqb (a b : week_cell) : bool :=
  match a, b with
  | WText s1, WText s2 => negb (String.eqb s1 s2)
  | WNone, WNone => false
  | _, _ => true
  end.

(** The week ending of a row in a column whose null is [null]. *)
Definition week_cell_of (null : week_cell) (w : option string) : week_cell :=
  match w with
  | Some s => WText s
  | None => null
  end.

(** What one [append] adds: the blank row, or the cells of a row. *)
Inductive appended : Type :=
| Blank
| Data (row : ReconciledRow).

Definition cells_of (a : appended) : list value :=
  match a with
  | Blank => blank_row
  | Data row => tolist row
  end.

Fixpoint format_layout (null prev_week : week_cell) (rows : list ReconciledRow)
  : list appended :=
  match rows with
  | [] => []
  | row :: rest =>
      let current_week := week_cell_of null (r_vector_week_ending row) in
      ((if cell_truthy prev_week && cell_neqb current_week prev_week
        then [Blank] else [])
       ++ Data row :: format_layout null current_week rest)%list
  end.

(** ** The worksheet (lines 99-122) *)

Definition worksheet : Type := list (list value).

(** The cell of a row in column [j]; a cell that was never written is empty. *)
Definition cell (j : nat) (row : list value) : value := nth j row VNone.

Definition column (ws : worksheet) (j : nat) : list value := map (cell j) ws.

(** [len(str(cell.value)) if cell.value else 0] *)
Definition cell_len (v : value) : Z :=
  if truthy v then Z.of_nat (String.length (str v)) else 0%Z.

Definition max_len (col : list value) : Z :=
  fold_right Z.max 0%Z (map cell_len col).

(** [min(max_len + 2, 40)] *)
Definition column_width (col : list value) : Z :=
  Z.min (max_len col + 2) 40.

Definition max_column (ws : worksheet) : nat :=
  fold_right Nat.max 0%nat (map (@List.length value) ws).

Definition column_widths (ws : worksheet) : list Z :=
  map (fun j => column_width (column ws j)) (seq 0 (max_column ws)).

Record Report : Type := mkReport {
  summary_data : list (string * value);
  body : list ReconciledRow;
  sheet : worksheet;
  header_row : nat;
  widths : list Z
}.

(** The characters that a cell of the workbook refuses in a text: the
    control characters other than TAB, LF and CR. *)
Definition is_illegal (c : ascii) : bool :=
  let n := Char.code c in
  ((n <=? 8) || ((11 <=? n) && (n <=? 12)) || ((14 <=? n) && (n <=? 31)))%N.

Fixpoint any_illegal (s : string) : bool :=
  match s with
  | EmptyString => false
  | String c s' => is_illegal c || any_illegal s'
  end.

(** A text is cut to its first 32767 characters when it is bound to a
    cell, and it is the text so cut that is looked through and that the
    exception shows. *)
Fixpoint first_chars (n : N) (s : string) : string :=
  match s with
  | EmptyString => EmptyString
  | String c s' => if (n =? 0)%N then EmptyString else String c (first_chars (N.pred n) s')
  end.

Definition cell_text (s : string) : string := first_chars 32767 s.

Definition has_illegal (s : string) : bool := any_illegal (cell_text s).

Definition illegal_character (s : string) : exn :=
  mkExn OtherException (cell_text s ++ " cannot be used in worksheets.").

(** Binding a value to a cell. *)
Definition check_cell (v : value) : result unit :=
  match v with
  | VStr s => if has_illegal s then Raise (illegal_character s) else Ok tt
  | _ => Ok tt
  end.

(** [ws.append(row)] for a list of cells, and for the rows one after the
    other: the first text that is refused ends the writing. *)
Fixpoint append_row (row : list value) : result unit :=
  match row with
  | [] => Ok tt
  | v :: row' => (_ <- check_cell v ;; append_row row')%py
  end.

Fixpoint append_rows (rows : list (list value)) : result unit :=
  match rows with
  | [] => Ok tt
  | row :: rows' => (_ <- append_row row ;; append_rows rows')%py
  end.

Definition write_report (df_final : list ReconciledRow) (summary : list (string * value))
  : result Report :=
  let ws :=
    ([ [VStr "ACH Summary"] ]
     ++ map (fun kv => [VStr (fst kv); snd kv]) summary
     ++ [ [] ]
     ++ [ map VStr body_columns ]
     ++ formatted_rows df_final)%list in
  (_ <- append_rows ws ;;
   Ok (mkReport summary df_final ws (List.length summary + 2) (column_widths ws)))%py.

(** ** The reconciliation run (lines 36-135) *)

Inductive failure : Type :=
| MissingInput
| NonNumericAmount
| NoMatchingRows
| AmountMismatch (total entered : float)
| UnexpectedError (message : string).

Inductive ReconciliationResult : Type :=
| Failure (f : failure)
| Success (r : Report).

(** An uploaded file, known by what [pd.read_excel] makes of it: a frame
    with the required columns, or the exception the reader raises. *)
Inductive upload : Type :=
| Upload (contents : result (list InvoiceRow)).

Definition read_excel (f : upload) : result (list InvoiceRow) :=
  match f with
  | Upload contents => contents
  end.

(** [float(text)] *)
Definition py_float (text : string) : result float :=
  match Float64.float_of_str text with
  | Some x => Ok x
  | None => Raise (mkExn ValueError ("could not convert string to float: '" ++ text ++ "'"))
  end.

(** [df[df["Payment Date"] == date]] *)
Definition matches_date (date : Date.t) (row : InvoiceRow) : bool :=
  match payment_date row with
  | Some d => Date.eqb d date
  | None => false
  end.

Definition select_rows (date : Date.t) (df : list InvoiceRow) : list InvoiceRow :=
  filter (matches_date date) df.

(** The sum of a float64 array as the array library adds it.  Fewer than
    eight numbers are added from left to right.  Up to 128 numbers are added
    on eight running sums, one for each position in the blocks of eight; the
    running sums are then added in pairs, and what is left after the last
    whole block is added to the result, from left to right.  A longer array
    is cut in two, the first part a multiple of eight long, and the sums of
    the parts are added. *)
Definition add_lane (r : list float) (block : list float) : list float :=
  map (fun p => (fst p + snd p)%float) (combine r block).

Fixpoint add_blocks (blocks : nat) (r : list float) (xs : list float)
  : list float * list float :=
  match blocks with
  | O => (r, xs)
  | S b => add_blocks b (add_lane r (firstn 8 xs)) (skipn 8 xs)
  end.

Definition sum_left (acc : float) (xs : list float) : float :=
  fold_left (fun a x => (a + x)%float) xs acc.

Definition block_sum (xs : list float) : float :=
  let (r, rest) := add_blocks (List.length xs / 8 - 1) (firstn 8 xs) (skipn 8 xs) in
  match r with
  | [r0; r1; r2; r3; r4; r5; r6; r7] =>
      sum_left (((r0 + r1) + (r2 + r3)) + ((r4 + r5) + (r6 + r7)))%float rest
  | _ => sum_left (-0)%float xs
  end.

Fixpoint pairwise_sum (fuel : nat) (xs : list float) : float :=
  let n := List.length xs in
  if (n <? 8)%nat then sum_left (-0)%float xs
  else if (n <=? 128)%nat then block_sum xs
  else
    match fuel with
    | O => block_sum xs
    | S f =>
        let n2 := (n / 2 - (n / 2) mod 8)%nat in
        (pairwise_sum f (firstn n2 xs) + pairwise_sum f (skipn n2 xs))%float
    end.

(** [Series.sum()]: a missing amount counts as 0, the empty sum is 0, and
    the numbers are added pairwise. *)
Definition nansum (xs : list float) : float :=
  match xs with
  | [] => 0%float
  | _ =>
      pairwise_sum (List.length xs)
        (map (fun x => if PrimFloat.is_nan x then 0%float else x) xs)
  end.

Definition total_of (matching_df : list InvoiceRow) : float :=
  nansum (map extended_amount matching_df).

(** [round(total, 2) != round(ach_amount_float, 2)]: the total is a numpy
    scalar, the entered amount a Python float. *)
Definition amounts_differ (total ach_amount_float : float) : bool :=
  negb (PrimFloat.eqb (Float64.np_round2 total) (Float64.py_round2 ach_amount_float)).

(** Lines 41-54: where the run stands after the amount check. *)
Inductive checked : Type :=
| Rejected (f : failure)
| Accepted (ach_amount_float : float) (matching_df : list InvoiceRow).

Definition check_amount (ach_amount : string) (ach_date : Date.t) (uploaded_file : upload)
  : result checked :=
  (ach_amount_float <- py_float ach_amount ;;
   df <- read_excel uploaded_file ;;
   let matching_df := select_rows ach_date df in
   match matching_df with
   | [] => Ok (Rejected NoMatchingRows)
   | _ =>
       let total := total_of matching_df in
       if amounts_differ total ach_amount_float
       then Ok (Rejected (AmountMismatch total ach_amount_float))
       else Ok (Accepted ach_amount_float matching_df)
   end)%py.

(** Lines 61-79 for one row whose description is parsed. *)
Definition derive_row (ach_description : string) (ach_amount_float : float)
    (ach_date : Date.t) (row : InvoiceRow) (p : parsed) : result ReconciledRow :=
  (fms <- fms_week_ending_of (vector_week_ending p) ;;
   Ok (mkReconciledRow
         (first_name p) (last_name p) (candidate_id p) (vector_week_ending p) fms
         (quantity row) (unit_cost row) (extended_amount row) (invoice_amount row)
         (due_date row) (cai_invoice_number row) (supplier_invoice_number row)
         ach_description ach_amount_float (Date.isoformat ach_date)))%py.

(** Lines 57-79 for one row. *)
Definition reconcile_row (ach_description : string) (ach_amount_float : float)
    (ach_date : Date.t) (row : InvoiceRow) : result ReconciledRow :=
  (p <- parse_line_item (line_item_description row) ;;
   derive_row ach_description ach_amount_float ach_date row p)%py.

(** Lines 57-58: the parser on every row. *)
Definition parse_row (row : InvoiceRow) : result (InvoiceRow * parsed) :=
  (p <- parse_line_item (line_item_description row) ;; Ok (row, p))%py.

(** [apply] over the rows: the first exception ends the loop. *)
Fixpoint map_rows {A B : Type} (f : A -> result B) (l : list A) : result (list B) :=
  match l with
  | [] => Ok []
  | a :: l' => (b <- f a ;; bs <- map_rows f l' ;; Ok (b :: bs))%py
  end.

(** [{field: df_final[field].iloc[0] for field in summary_fields}] *)
Definition summary_of (df_final : list ReconciledRow) : result (list (string * value)) :=
  match df_final with
  | r :: _ =>
      Ok [ ("ACH Description", VStr (r_ach_description r));
           ("ACH Amount", VFloat (r_ach_amount r));
           ("ACH Date", VStr (r_ach_date r)) ]
  | [] => Raise (mkExn IndexError "single positional indexer is out-of-bounds")
  end.

(** Lines 56-130: the descriptions of all rows are parsed before the first
    week ending is shifted. *)
Definition build_report (ach_description : string) (ach_amount_float : float)
    (ach_date : Date.t) (matching_df : list InvoiceRow) : result Report :=
  (parsed_rows <- map_rows parse_row matching_df ;;
   rows <- map_rows
             (fun rp => derive_row ach_description ach_amount_float ach_date
                          (fst rp) (snd rp))
             parsed_rows ;;
   let df_final := sort_values r_vector_week_ending rows in
   summary <- summary_of df_final ;;
   write_report df_final summary)%py.

(** The body of the [try]. *)
Definition try_body (ach_amount ach_description : string) (ach_date : Date.t)
    (uploaded_file : upload) : result ReconciliationResult :=
  (c <- check_amount ach_amount ach_date uploaded_file ;;
   match c with
   | Rejected f => Ok (Failure f)
   | Accepted ach_amount_float matching_df =>
       r <- build_report ach_description ach_amount_float ach_date matching_df ;;
       Ok (Success r)
   end)%py.

Definition is_ValueError (e : exn) : bool :=
  match exn_kind e with
  | ValueError => true
  | _ => false
  end.

(** [except ValueError: ... except Exception as e: ...] *)
Definition handle (body : result ReconciliationResult) : ReconciliationResult :=
  match body with
  | Ok r => r
  | Raise e =>
      if is_ValueError e then Failure NonNumericAmount
      else Failure (UnexpectedError (exn_message e))
  end.

Definition reconcile (ach_amount ach_description : string) (ach_date : Date.t)
    (uploaded_file : upload) : ReconciliationResult :=
  handle (try_body ach_amount ach_description ach_date uploaded_file).

(** The button handler: the form is checked for missing fields before the
    [try] is entered. *)
Definition on_generate (ach_amount ach_description : string) (ach_date : Date.t)
    (uploaded_file : option upload) : ReconciliationResult :=
  match uploaded_file with
  | Some f =>
      if String.eqb ach_amount "" || String.eqb ach_description ""
      then Failure MissingInput
      else reconcile ach_amount ach_description ach_date f
  | None => Failure MissingInput
  end.

(** ** What the pattern describes

    The texts of the form [<name> (S<digits>)[C]:<date1>:<date2>...], stated
    on the text itself: this is what the matcher is proved against. *)

Module Pattern.

Import Regex.

Fixpoint all_digits (s : string) : bool :=
  match s with
  | EmptyString => true
  | String c s' => Char.is_digit c && all_digits s'
  end.

Fixpoint has_char (p : ascii -> bool) (s : string) : bool :=
  match s with
  | EmptyString => false
  | String c s' => p c || has_char p s'
  end.

Definition no_newline (s : string) : bool := negb (has_char Char.is_newline s).

Definition is_sp (c : ascii) : bool := Ascii.eqb c " ".

Definition is_paren (c : ascii) : bool := Ascii.eqb c "(".

(** Texts without an opening parenthesis. *)
Definition plain (s : string) : Prop := has_char is_paren s = false.

Definition digits_of_length (n : nat) (s : string) : Prop :=
  String.length s = n /\ all_digits s = true.

(** [YYYY-MM-DD] as a shape: digits and hyphens, no calendar check. *)
Definition date_text (t : string) : Prop :=
  exists y m d,
    t = y ++ "-" ++ m ++ "-" ++ d
    /\ digits_of_length 4 y /\ digits_of_length 2 m /\ digits_of_length 2 d.

(** [t] is [ (S<digits>)[C]:<date1>:<date2>] followed by [rest]. *)
Definition tail_shape (id d1 d2 rest t : string) : Prop :=
  exists ds,
    id = "S" ++ ds /\ ds <> "" /\ all_digits ds = true
    /\ date_text d1 /\ date_text d2
    /\ t = " (" ++ id ++ ")[C]:" ++ d1 ++ ":" ++ d2 ++ rest.

(** [s] is a name on one line, then the tail, then [rest]. *)
Definition shape (g : groups) (rest s : string) : Prop :=
  group1 g <> "" /\ no_newline (group1 g) = true
  /\ exists t, s = group1 g ++ t /\ tail_shape (group2 g) (group3 g) (group4 g) rest t.

(** The match found by the engine: of all the ways to read [s], the one
    with the shortest name, since the name group is lazy. *)
Definition matches (s : string) (g : groups) : Prop :=
  exists rest,
    shape g rest s
    /\ forall g' rest', shape g' rest' s ->
         String.length (group1 g) <= String.length (group1 g').

(** The tokens of a name. *)
Definition tokens (name : string) : list string := Str.split (Str.strip name).

Fixpoint all_space (s : string) : bool :=
  match s with
  | EmptyString => true
  | String c s' => Char.is_space c && all_space s'
  end.

(** A token: at least one character, none of them white space. *)
Definition is_token (t : string) : Prop :=
  t <> "" /\ has_char Char.is_space t = false.

End Pattern.

(** ** The layout the specification describes *)

(** Same week ending: equality of the raw value, nulls equal to each other. *)
Definition same_week (a b : ReconciledRow) : bool :=
  negb (week_neqb (r_vector_week_ending a) (r_vector_week_ending b)).

(** The maximal runs of adjacent rows with the same week ending. *)
Fixpoint group_runs (rows : list ReconciledRow) : list (list ReconciledRow) :=
  match rows with
  | [] => []
  | r :: rest =>
      match group_runs rest with
      | (r' :: g) :: gs => if same_week r r' then (r :: r' :: g) :: gs
                           else [r] :: (r' :: g) :: gs
      | _ => [[r]]
      end
  end.

(** The groups one after the other, one blank row between two groups. *)
Fixpoint join_groups (gs : list (list (list value))) : list (list value) :=
  match gs with
  | [] => []
  | [g] => g
  | g :: gs' => (g ++ blank_row :: join_groups gs')%list
  end.

Definition spec_body (rows : list ReconciledRow) : list (list value) :=
  join_groups (map (map tolist) (group_runs rows)).

(** The same layout row by row: what follows a row [r]. *)
Fixpoint body_after (r : ReconciledRow) (rest : list ReconciledRow) : list (list value) :=
  match rest with
  | [] => []
  | r' :: rest' =>
      ((if same_week r r' then [] else [blank_row])
       ++ tolist r' :: body_after r' rest')%list
  end.

(** Two runs that follow each other differ in their week ending: the runs
    are as long as they can be. *)
Fixpoint runs_differ (gs : list (list ReconciledRow)) : Prop :=
  match gs with
  | g1 :: gs' =>
      match gs' with
      | g2 :: _ =>
          (forall a b, In a g1 -> In b g2 ->
                       r_vector_week_ending a <> r_vector_week_ending b)
          /\ runs_differ gs'
      | [] => True
      end
  | [] => True
  end.

Definition is_blank (row : list value) : bool :=
  forallb (fun v => match v with VStr EmptyString => true | _ => false end) row.

(** Sorted by week ending, nulls last. *)
Definition week_le : ReconciledRow -> ReconciledRow -> Prop :=
  le_by_key r_vector_week_ending.

(** A week ending is null or a non-empty text. *)
Definition week_well_formed (r : ReconciledRow) : Prop :=
  r_vector_week_ending r <> Some "".

(** The width the specification words give: the longest text of the column,
    capped, then padded. *)
Definition longest_text (col : list value) : Z :=
  fold_right Z.max 0%Z (map (fun v => Z.of_nat (String.length (str v))) col).

Definition spec_width (padding : Z) (col : list value) : Z :=
  (Z.min (longest_text col) 40 + padding)%Z.

(** ** Checks by enumeration

    Boolean statements about the writing of small numbers, decided by running
    them on every case. *)

(** [n] written on [w] digits is [w] digits that read back as [n]. *)
Definition padded_ok (w : nat) (n : Z) : bool :=
  (String.length (Dec.padded w n) =? w)%nat
  && Pattern.all_digits (Dec.padded w n)
  && (Dec.value (Dec.padded w n) =? n)%Z.

Definition of_vals (vs : list Z) : string :=
  fold_right (fun v s => String (Dec.digit_char v) s) "" vs.

(** Digits read and written again on [w] digits are the same digits. *)
Definition reprint_ok (w : nat) (vs : list Z) : bool :=
  String.eqb (Dec.padded w (Dec.value (of_vals vs))) (of_vals vs).

Definition ten : list Z := map Z.of_nat (seq 0 10).

(** A month and a day of the month that exist, in whatever year. *)
Definition on_calendar (d : Date.t) : Prop :=
  (1 <= Date.month d <= 12
   /\ 1 <= Date.day d <= Date.days_in_month (Date.year d) (Date.month d))%Z.

(** ** The rounding the specification describes

    Rounded to 2 decimal places: the multiple of [0.01] nearest to the
    number, the even one when two are equally near, as the float nearest to
    it.  A float without binary places is a whole number and is its own
    rounding. *)




(** ** Sample data *)

Definition sample_row (first : string) (week : option string) : ReconciledRow :=
  mkReconciledRow (Some first) (Some "Doe") (Some "S1") week
    (match fms_week_ending_of week with Ok fms => fms | Raise _ => None end)
    (VFloat 40) (VFloat 25) 1000 (VFloat 1000) (VStr "2024-02-01")
    (VStr "CAI-1") (VStr "ESG-1") "Payroll" 3000 "2024-01-20".

Definition sample_rows : list ReconciledRow :=
  [ sample_row "Ann" (Some "2024-01-07");
    sample_row "Bob" (Some "2024-01-07");
    sample_row "Cy" (Some "2024-01-14") ].

Definition sample_date : Date.t := Date.mk 2024 3 15.

Definition sample_invoice (description : string) (amount : float) : InvoiceRow :=
  mkInvoiceRow (Some sample_date) (VStr description) amount
    (VFloat 40) (VFloat 12.5) (VFloat 1000) (VTimestamp (Date.mk 2024 4 1) 0)
    (VStr "CAI-1") (VStr "ESG-9").

Definition sample_invoices : list InvoiceRow :=
  [ sample_invoice "Jane Doe (S2)[C]:2024-03-04:2024-03-10" 500;
    sample_invoice "John Q Public (S1)[C]:2024-02-26:2024-03-03" 500;
    sample_invoice "no week ending here" 0 ].

Definition march_rows : list InvoiceRow :=
  [ sample_invoice "Jane Doe (S2)[C]:2024-03-04:2024-03-10" 500;
    sample_invoice "John Q Public (S1)[C]:2024-02-26:2024-03-03" 500 ].

(** The float that a decimal text denotes. *)
Definition float_lit (text : string) : float :=
  match Float64.float_of_str text with
  | Some x => x
  | None => nan
  end.

(** One row of the payment date with the given extended amount. *)
Definition one_row (amount : string) : list InvoiceRow :=
  [ sample_invoice "Jane Doe (S2)[C]:2024-03-04:2024-03-10" (float_lit amount) ].

(** A reconciled row whose description the parser did not match. *)
Definition unparsed_row (esg : string) : ReconciledRow :=
  mkReconciledRow None None None None None
    (VFloat 40) (VFloat 25) 1000 (VFloat 1000) (VStr "2024-02-01")
    (VStr "CAI-1") (VStr esg) "Payroll" 3000 "2024-01-20".

Definition null_week_rows : list ReconciledRow :=
  [ sample_row "Ann" (Some "2024-01-07"); unparsed_row "ESG-2"; unparsed_row "ESG-3" ].

(** A file that is not a workbook: the reader raises a [ValueError]. *)
Definition not_a_workbook : upload :=
  Upload (Raise (mkExn ValueError
    "Excel file format cannot be determined, you must specify an engine manually.")).

(** A description whose name is blank. *)
Definition blank_name : string := "  (S1)[C]:2024-01-01:2024-01-07".

Definition forty : string := "0123456789012345678901234567890123456789".

(** ** Notions used by the further properties *)

(** The line feed, the one character that [.] does not match. *)
Definition line_feed : ascii := "010"%char.

(** The cells of a row of the uploaded sheet that lines 70-79 carry to the
    report as they are, in output order: [Quantity] (as [Hours]), [Unit Cost]
    (as [Bill Rate]), [Extended Amount], [Invoice Amount], [Due Date],
    [CAI Invoice Number] and [Supplier's Invoice Number] (as
    [ESG Invoice Number]). *)
Definition carried (row : InvoiceRow) : list value :=
  [ quantity row; unit_cost row; VFloat (extended_amount row); invoice_amount row;
    due_date row; cai_invoice_number row; supplier_invoice_number row ].

(** No blank row is next to another one. *)
Fixpoint no_adjacent_blanks (rows : list (list value)) : bool :=
  match rows with
  | a :: rest =>
      match rest with
      | b :: _ => negb (is_blank a && is_blank b) && no_adjacent_blanks rest
      | [] => true
      end
  | [] => true
  end.

(** The characters a text read by [float] is made of: digits, the signs, the
    point, the underscore that groups digits, the white space around the
    number, and the letters of the exponent mark and of [inf], [infinity]
    and [nan], in either case. *)
Definition numeral_char (c : ascii) : bool :=
  Char.is_digit c || Char.is_space c
  || Pattern.has_char (Ascii.eqb c) "+-._eEinfatyINFATY".

(** Every other character, the currency sign and the comma among them. *)
Definition foreign (c : ascii) : bool := negb (numeral_char c).

(** * Properties *)

Unset Implicit Arguments.

Import Regex Pattern.

(** ** Text *)

Lemma append_nil_r (s : string) : s ++ "" = s.
Proof. induction s as [|c s IH]; simpl; [reflexivity | now rewrite IH]. Qed.

Lemma append_assoc (a b c : string) : (a ++ b) ++ c = a ++ (b ++ c).
Proof. induction a as [|x a IH]; simpl; [reflexivity | now rewrite IH]. Qed.

Lemma length_append (a b : string) :
  String.length (a ++ b) = String.length a + String.length b.
Proof. induction a as [|x a IH]; simpl; [reflexivity | now rewrite IH]. Qed.

Lemma append_inv_head (a b c : string) : a ++ b = a ++ c -> b = c.
Proof.
  induction a as [|x a IH]; simpl; intros H; [assumption |].
  injection H as H. now apply IH.
Qed.

(** Two ways of cutting the same text: the shorter front is a front of
    the longer one. *)
Lemma append_cut (a x b y : string) :
  a ++ x = b ++ y -> String.length a <= String.length b ->
  exists z, b = a ++ z /\ x = z ++ y.
Proof.
  revert b. induction a as [|c a IH]; simpl; intros b H Hlen.
  - exists b. now split.
  - destruct b as [|c' b]; simpl in *; [lia |].
    injection H as -> H.
    destruct (IH b H) as (z & -> & ->); [lia |].
    now exists z.
Qed.

Lemma has_char_append (p : ascii -> bool) (a b : string) :
  Pattern.has_char p (a ++ b) = Pattern.has_char p a || Pattern.has_char p b.
Proof.
  induction a as [|c a IH]; simpl; [reflexivity |].
  now rewrite IH, orb_assoc.
Qed.

Lemma all_digits_append (a b : string) :
  Pattern.all_digits (a ++ b) = Pattern.all_digits a && Pattern.all_digits b.
Proof.
  induction a as [|c a IH]; simpl; [reflexivity |].
  now rewrite IH, andb_assoc.
Qed.

(** A run of digits contains no character of another class. *)
Lemma all_digits_has_char (p : ascii -> bool) (s : string) :
  (forall c, Char.is_digit c = true -> p c = false) ->
  Pattern.all_digits s = true -> Pattern.has_char p s = false.
Proof.
  intros Hp. induction s as [|c s IH]; simpl; [reflexivity |].
  intros [Hc Hs]%andb_prop. now rewrite (Hp c Hc), IH.
Qed.

Lemma no_newline_cons (c : ascii) (s : string) :
  Pattern.no_newline (String c s) = negb (Char.is_newline c) && Pattern.no_newline s.
Proof. unfold Pattern.no_newline. cbn [Pattern.has_char]. now rewrite negb_orb. Qed.

(** ** The matcher against the pattern *)

Ltac norm_append :=
  repeat first [rewrite !append_assoc | progress cbn [append]].

Ltac inv_obind H :=
  match type of H with
  | obind ?m _ = Some _ =>
      let E := fresh "E" in
      destruct m as [?|] eqn:E; cbn beta iota delta [obind] in H; [| discriminate H]
  end.

Lemma expect_append (lit s : string) : expect lit (lit ++ s) = Some s.
Proof.
  induction lit as [|c lit IH]; simpl; [reflexivity |].
  now rewrite Ascii.eqb_refl.
Qed.

Lemma expect_sound (lit s r : string) : expect lit s = Some r -> s = lit ++ r.
Proof.
  revert s. induction lit as [|c lit IH]; simpl; intros s H.
  - now injection H.
  - destruct s as [|b s]; [discriminate |].
    destruct (Ascii.eqb_spec c b) as [->|]; [| discriminate].
    now rewrite (IH _ H).
Qed.

Lemma span_digits_sound (s ds r : string) :
  span_digits s = (ds, r) ->
  s = ds ++ r /\ all_digits ds = true
  /\ match r with String c _ => Char.is_digit c = false | EmptyString => True end.
Proof.
  revert ds r. induction s as [|c s IH]; simpl; intros ds r H.
  - injection H as <- <-. now repeat split.
  - destruct (Char.is_digit c) eqn:Hc.
    + destruct (span_digits s) as [ds' r'] eqn:E.
      injection H as <- <-.
      destruct (IH _ _ eq_refl) as (-> & Hd & Hr).
      simpl. now rewrite Hc, Hd.
    + injection H as <- <-. now repeat split.
Qed.

Lemma span_digits_append (ds r : string) :
  all_digits ds = true ->
  match r with String c _ => Char.is_digit c = false | EmptyString => True end ->
  span_digits (ds ++ r) = (ds, r).
Proof.
  intros Hd Hr. induction ds as [|c ds IH]; simpl in *.
  - destruct r as [|c r]; [reflexivity | simpl; now rewrite Hr].
  - apply andb_prop in Hd as [Hc Hd]. now rewrite Hc, (IH Hd).
Qed.

Lemma digits_n_sound (n : nat) (s ds r : string) :
  digits_n n s = Some (ds, r) -> s = ds ++ r /\ digits_of_length n ds.
Proof.
  revert s ds r. induction n as [|n IH]; simpl; intros s ds r H.
  - injection H as <- <-. now repeat split.
  - destruct s as [|c s]; [discriminate |].
    destruct (Char.is_digit c) eqn:Hc; [| discriminate].
    inv_obind H. destruct p as [ds' r']. injection H as <- <-.
    destruct (IH _ _ _ E) as (-> & Hl & Hd).
    repeat split; cbn [String.length all_digits]; [now rewrite Hl | now rewrite Hc, Hd].
Qed.

Lemma digits_n_append (n : nat) (ds r : string) :
  digits_of_length n ds -> digits_n n (ds ++ r) = Some (ds, r).
Proof.
  revert ds. induction n as [|n IH]; intros ds [Hl Hd].
  - destruct ds; [reflexivity | discriminate].
  - destruct ds as [|c ds]; [discriminate |]. simpl in *.
    apply andb_prop in Hd as [Hc Hd]. rewrite Hc.
    rewrite IH; [reflexivity | split; [now injection Hl | assumption]].
Qed.

Lemma date_shape_sound (s d r : string) :
  date_shape s = Some (d, r) -> s = d ++ r /\ date_text d.
Proof.
  unfold date_shape. intros H.
  inv_obind H. destruct p as [y s1].
  inv_obind H. inv_obind H. destruct p as [m s3].
  inv_obind H. inv_obind H. destruct p as [dd s5].
  injection H as <- <-.
  apply digits_n_sound in E as (-> & Hy).
  apply expect_sound in E0 as ->.
  apply digits_n_sound in E1 as (-> & Hm).
  apply expect_sound in E2 as ->.
  apply digits_n_sound in E3 as (-> & Hd).
  split.
  - now norm_append.
  - now exists y, m, dd.
Qed.

Lemma expect_cons (c : ascii) (lit s : string) :
  expect (String c lit) (String c s) = expect lit s.
Proof. simpl. now rewrite Ascii.eqb_refl. Qed.

Lemma expect_nil (s : string) : expect "" s = Some s.
Proof. reflexivity. Qed.

Ltac run_expect :=
  repeat (progress (cbn beta iota delta [obind append];
                    rewrite ?expect_cons, ?expect_nil)).

Lemma date_shape_append (d r : string) :
  date_text d -> date_shape (d ++ r) = Some (d, r).
Proof.
  intros (y & m & dd & -> & Hy & Hm & Hd). unfold date_shape.
  rewrite ?append_assoc.
  rewrite (digits_n_append _ _ _ Hy). run_expect.
  rewrite ?append_assoc.
  rewrite (digits_n_append _ _ _ Hm). run_expect.
  rewrite (digits_n_append _ _ _ Hd). reflexivity.
Qed.

Lemma match_tail_sound (t id d1 d2 rest : string) :
  match_tail t = Some (id, d1, d2, rest) -> tail_shape id d1 d2 rest t.
Proof.
  unfold match_tail, digits1. intros H.
  inv_obind H. inv_obind H.
  destruct (span_digits s0) as [ds s3] eqn:Es.
  destruct ds as [|c ds]; cbn beta iota delta [obind] in H; [discriminate |].
  inv_obind H. inv_obind H. destruct p as [x1 s5].
  inv_obind H. inv_obind H. destruct p as [x2 s7].
  injection H as <- <- <- <-.
  apply expect_sound in E as ->.
  apply expect_sound in E0 as ->.
  apply span_digits_sound in Es as (-> & Hds & _).
  apply expect_sound in E1 as ->.
  apply date_shape_sound in E2 as (-> & Hd1).
  apply expect_sound in E3 as ->.
  apply date_shape_sound in E4 as (-> & Hd2).
  exists (String c ds). repeat split; try assumption; discriminate.
Qed.

Lemma match_tail_complete (t id d1 d2 rest : string) :
  tail_shape id d1 d2 rest t -> match_tail t = Some (id, d1, d2, rest).
Proof.
  intros (ds & -> & Hne & Hds & Hd1 & Hd2 & ->).
  unfold match_tail, digits1. run_expect.
  rewrite ?append_assoc.
  rewrite span_digits_append by (assumption || reflexivity).
  destruct ds as [|c ds]; [congruence |]. run_expect.
  rewrite ?append_assoc.
  rewrite (date_shape_append _ _ Hd1). run_expect.
  rewrite (date_shape_append _ _ Hd2). reflexivity.
Qed.

Lemma lazy_search_sound (s : string) (g : groups) (rest : string) :
  lazy_search s = Some (g, rest) -> shape g rest s.
Proof.
  revert g rest. induction s as [|c s IH]; cbn [lazy_search]; intros g rest H;
    [discriminate |].
  destruct (Char.is_newline c) eqn:Hc; [discriminate |].
  destruct (match_tail s) as [[[[g2 g3] g4] r]|] eqn:Et.
  - injection H as <- <-. unfold shape; cbn.
    repeat split; [discriminate | now rewrite no_newline_cons, Hc |].
    exists s. split; [reflexivity | now apply match_tail_sound].
  - destruct (lazy_search s) as [[g0 r0]|] eqn:Es; [| discriminate].
    injection H as <- <-.
    destruct (IH _ _ eq_refl) as (Hne & Hnl & t & -> & Ht).
    unfold shape; cbn. repeat split; [discriminate | |].
    + now rewrite no_newline_cons, Hc, Hnl.
    + now exists t.
Qed.

Lemma lazy_search_shortest (s : string) (g : groups) (rest : string) :
  lazy_search s = Some (g, rest) ->
  forall g' rest', shape g' rest' s ->
    String.length (group1 g) <= String.length (group1 g').
Proof.
  revert g rest. induction s as [|c s IH]; cbn [lazy_search]; intros g rest H;
    [discriminate |].
  destruct (Char.is_newline c) eqn:Hc; [discriminate |].
  intros g' rest' (Hne & Hnl & t & Hs & Ht).
  destruct (group1 g') as [|c' n'] eqn:En; [congruence |].
  cbn in Hs. injection Hs as <- Hs.
  destruct (match_tail s) as [[[[g2 g3] g4] r]|] eqn:Et.
  - injection H as <- <-. cbn. lia.
  - destruct (lazy_search s) as [[g0 r0]|] eqn:Es; [| discriminate].
    injection H as <- <-. cbn.
    destruct n' as [|c'' n''].
    + cbn in Hs. subst t. apply match_tail_complete in Ht. congruence.
    + apply le_n_S.
      apply (IH _ _ eq_refl
               (mkGroups (String c'' n'') (group2 g') (group3 g') (group4 g')) rest').
      unfold shape; cbn. repeat split; [discriminate | |].
      * rewrite no_newline_cons in Hnl. now apply andb_prop in Hnl.
      * now exists t.
Qed.

Lemma lazy_search_complete (s : string) (g : groups) (rest : string) :
  shape g rest s -> exists g' rest', lazy_search s = Some (g', rest').
Proof.
  destruct g as [n g2 g3 g4]. unfold shape; cbn [group1 group2 group3 group4].
  revert s. induction n as [|c n IH]; intros s (Hne & Hnl & t & -> & Ht);
    [congruence |].
  cbn [append lazy_search].
  rewrite no_newline_cons in Hnl. apply andb_prop in Hnl as [Hc Hnl].
  apply negb_true_iff in Hc. rewrite Hc.
  destruct (match_tail (n ++ t)) as [[[[x2 x3] x4] r]|] eqn:Et; [eauto |].
  destruct n as [|c' n'].
  - cbn in Et. apply match_tail_complete in Ht. congruence.
  - destruct (IH (String c' n' ++ t)) as (g' & rest' & ->); [| eauto].
    repeat split; [discriminate | assumption | now exists t].
Qed.

Lemma shape_unique (s : string) (g g' : groups) (rest rest' : string) :
  shape g rest s -> shape g' rest' s ->
  String.length (group1 g) = String.length (group1 g') ->
  g = g' /\ rest = rest'.
Proof.
  intros (_ & _ & t & Hs & Ht) (_ & _ & t' & Hs' & Ht') Hlen.
  rewrite Hs in Hs'.
  destruct (append_cut _ _ _ _ Hs') as (z & Hz & Hzt); [lia |].
  assert (z = "") as ->.
  { apply (f_equal String.length) in Hz. rewrite length_append in Hz.
    destruct z; [reflexivity | cbn in Hz; lia]. }
  rewrite append_nil_r in Hz. cbn in Hzt. subst t'.
  apply match_tail_complete in Ht, Ht'. rewrite Ht in Ht'.
  destruct g, g'. cbn in *. injection Ht' as -> -> -> ->. now subst.
Qed.

(** The matcher finds exactly the match the pattern describes. *)
Theorem re_match_iff (s : string) (g : groups) :
  re_match s = Some g <-> matches s g.
Proof.
  unfold re_match. split.
  - destruct (lazy_search s) as [[g0 r]|] eqn:E; [| discriminate].
    cbn. intros [= ->]. exists r. split.
    + now apply lazy_search_sound.
    + now apply (lazy_search_shortest _ _ _ E).
  - intros (rest & Hs & Hmin).
    destruct (lazy_search_complete _ _ _ Hs) as (g' & rest' & E). rewrite E. cbn.
    pose proof (lazy_search_sound _ _ _ E) as Hs'.
    pose proof (lazy_search_shortest _ _ _ E _ _ Hs) as H1.
    pose proof (Hmin _ _ Hs') as H2.
    destruct (shape_unique _ _ _ _ _ Hs Hs') as [-> _]; [lia | reflexivity].
Qed.

(** *** Matching is on a front of the text *)

Lemma digit_not_sp (c : ascii) : Char.is_digit c = true -> is_sp c = false.
Proof.
  unfold is_sp. destruct (Ascii.eqb_spec c " ") as [->|]; [discriminate | reflexivity].
Qed.

Lemma digits_no_sp (n : nat) (s : string) :
  digits_of_length n s -> has_char is_sp s = false.
Proof. intros [_ H]. now apply all_digits_has_char; [apply digit_not_sp |]. Qed.

Lemma date_text_no_sp (d : string) : date_text d -> has_char is_sp d = false.
Proof.
  intros (y & m & dd & -> & Hy & Hm & Hd).
  rewrite !has_char_append.
  rewrite (digits_no_sp _ _ Hy), (digits_no_sp _ _ Hm), (digits_no_sp _ _ Hd). reflexivity.
Qed.

(** After its leading blank, the tail of the pattern contains no blank. *)
Lemma tail_shape_no_sp (id d1 d2 rest t : string) :
  tail_shape id d1 d2 rest t ->
  exists q, t = " " ++ q ++ rest /\ has_char is_sp q = false
            /\ tail_shape id d1 d2 "" (" " ++ q).
Proof.
  intros (ds & -> & Hne & Hds & Hd1 & Hd2 & ->).
  exists ("(" ++ ("S" ++ ds) ++ ")[C]:" ++ d1 ++ ":" ++ d2).
  split; [now norm_append |]. split.
  - rewrite !has_char_append.
    rewrite (date_text_no_sp _ Hd1), (date_text_no_sp _ Hd2).
    rewrite (all_digits_has_char is_sp _ digit_not_sp Hds). reflexivity.
  - exists ds. repeat split; try assumption. norm_append. now rewrite append_nil_r.
Qed.

Lemma match_tail_extend (t x id d1 d2 r : string) :
  match_tail t = Some (id, d1, d2, r) ->
  match_tail (t ++ x) = Some (id, d1, d2, r ++ x).
Proof.
  intros H. apply match_tail_sound in H as (ds & -> & Hne & Hds & Hd1 & Hd2 & ->).
  apply match_tail_complete. exists ds. repeat split; try assumption.
  now norm_append.
Qed.

(** A tail that fails in front of a later match still fails when the text
    is continued: it did not fail for lack of text. *)
Lemma match_tail_stays_none (s x : string) (g : groups) (r : string) :
  match_tail s = None -> lazy_search s = Some (g, r) -> match_tail (s ++ x) = None.
Proof.
  intros Hnone Hlater.
  destruct (match_tail (s ++ x)) as [[[[id d1] d2] r1]|] eqn:E; [| reflexivity].
  exfalso.
  apply match_tail_sound in E.
  destruct (tail_shape_no_sp _ _ _ _ _ E) as (q & Hsx & Hq & Hfull).
  destruct (Nat.le_gt_cases (String.length (" " ++ q)) (String.length s)) as [Hle|Hgt].
  - (* the whole tail lies within [s] *)
    rewrite <- append_assoc in Hsx. symmetry in Hsx.
    destruct (append_cut _ _ _ _ Hsx Hle) as (z & -> & _).
    destruct Hfull as (ds & Hid & Hne & Hds & Hd1 & Hd2 & Hq').
    assert (tail_shape id d1 d2 z ((" " ++ q) ++ z)) as Hz.
    { exists ds. repeat split; try assumption.
      rewrite Hq'. norm_append. reflexivity. }
    apply match_tail_complete in Hz. congruence.
  - (* [s] stops inside the tail *)
    rewrite <- append_assoc in Hsx.
    destruct (append_cut _ _ _ _ Hsx) as (z & Hz & _); [lia |].
    apply lazy_search_sound in Hlater as (Hne & _ & t & Hs & Ht).
    destruct (tail_shape_no_sp _ _ _ _ _ Ht) as (q' & -> & _ & _).
    destruct (group1 g) as [|c n]; [congruence |].
    rewrite Hs in Hz. cbn in Hz. injection Hz as _ Hz.
    rewrite Hz in Hq. norm_append. rewrite !append_assoc in Hq.
    rewrite !has_char_append in Hq. cbn in Hq.
    rewrite orb_true_r in Hq. discriminate.
Qed.

Lemma lazy_search_extend (s x : string) (g : groups) (r : string) :
  lazy_search s = Some (g, r) -> lazy_search (s ++ x) = Some (g, r ++ x).
Proof.
  revert g r. induction s as [|c s IH]; cbn [lazy_search append]; intros g r H;
    [discriminate |].
  destruct (Char.is_newline c); [discriminate |].
  destruct (match_tail s) as [[[[g2 g3] g4] r0]|] eqn:Et.
  - injection H as <- <-. now rewrite (match_tail_extend _ x _ _ _ _ Et).
  - destruct (lazy_search s) as [[g0 r0]|] eqn:Es; [| discriminate].
    injection H as <- <-.
    rewrite (match_tail_stays_none _ x _ _ Et Es).
    now rewrite (IH _ _ eq_refl).
Qed.

(** A text without an opening parenthesis matches nothing. *)
Lemma lazy_search_needs_paren (s : string) :
  has_char is_paren s = false -> lazy_search s = None.
Proof.
  induction s as [|c s IH]; cbn [lazy_search has_char]; [reflexivity |].
  intros [_ Hs]%orb_false_iff.
  destruct (Char.is_newline c); [reflexivity |].
  destruct (match_tail s) as [[[[g2 g3] g4] r0]|] eqn:Et.
  - apply match_tail_sound in Et as (ds & _ & _ & _ & _ & _ & ->).
    cbn in Hs. discriminate.
  - now rewrite (IH Hs).
Qed.


(** ** Splitting into tokens *)

Lemma split_from_all_space (tok ws : string) :
  all_space ws = true ->
  Str.split_from tok ws = match tok with EmptyString => [] | _ => [tok] end.
Proof.
  revert tok. induction ws as [|c ws IH]; intros tok H; [reflexivity |].
  cbn [all_space] in H. apply andb_prop in H as [Hc Hws].
  cbn [Str.split_from]. rewrite Hc, (IH EmptyString Hws). now destruct tok.
Qed.

Lemma split_from_token (tok t rest : string) :
  has_char Char.is_space t = false ->
  Str.split_from tok (t ++ rest) = Str.split_from (tok ++ t) rest.
Proof.
  revert tok. induction t as [|c t IH]; intros tok H.
  - now rewrite append_nil_r.
  - cbn [has_char] in H. apply orb_false_iff in H as [Hc Ht].
    cbn [append Str.split_from]. rewrite Hc, (IH _ Ht).
    now rewrite append_assoc.
Qed.

(** Tokens joined by single blanks split into the same tokens. *)
Lemma split_join (l : list string) :
  Forall is_token l -> Str.split (Str.join " " l) = l.
Proof.
  unfold Str.split, Str.join.
  induction 1 as [|t l [Hne Hsp] Hl IH]; [reflexivity |].
  cbn [String.concat]. destruct l as [|t' l'].
  - rewrite <- (append_nil_r t) at 1. rewrite split_from_token by assumption.
    cbn [append Str.split_from]. now destruct t.
  - rewrite split_from_token by assumption.
    cbn [append Str.split_from].
    change (Char.is_space " ") with true. cbn iota.
    rewrite IH. now destruct t.
Qed.

Lemma lstrip_split (s : string) :
  Str.split_from EmptyString (Str.lstrip s) = Str.split_from EmptyString s.
Proof.
  induction s as [|c s IH]; [reflexivity |].
  cbn [Str.lstrip Str.split_from].
  destruct (Char.is_space c) eqn:Hc; [exact IH |].
  cbn [Str.split_from]. now rewrite Hc.
Qed.

Lemma rstrip_empty (s : string) : Str.rstrip s = EmptyString -> all_space s = true.
Proof.
  induction s as [|c s IH]; [reflexivity |].
  cbn [Str.rstrip all_space].
  destruct (Str.rstrip s); [| discriminate].
  destruct (Char.is_space c); [intros _; now apply IH | discriminate].
Qed.

Lemma rstrip_split (tok s : string) :
  Str.split_from tok (Str.rstrip s) = Str.split_from tok s.
Proof.
  revert tok. induction s as [|c s IH]; intros tok; [reflexivity |].
  cbn [Str.rstrip].
  destruct (Str.rstrip s) as [|c' r] eqn:E.
  - pose proof (rstrip_empty s E) as Hs.
    destruct (Char.is_space c) eqn:Hc; cbn [Str.split_from]; rewrite Hc.
    + rewrite (split_from_all_space EmptyString s Hs). now destruct tok.
    + rewrite (split_from_all_space _ s Hs). reflexivity.
  - remember (String c' r) as rs eqn:Ers. clear Ers E. cbn [Str.split_from].
    destruct (Char.is_space c); [destruct tok |]; now rewrite IH.
Qed.

(** Stripping a text does not change its tokens. *)
Lemma split_strip (s : string) : Str.split (Str.strip s) = Str.split s.
Proof.
  unfold Str.split, Str.strip. now rewrite rstrip_split, lstrip_split.
Qed.

Lemma tokens_join (l : list string) :
  Forall is_token l -> tokens (Str.join " " l) = l.
Proof. intros H. unfold tokens. now rewrite split_strip, split_join. Qed.

Lemma newline_is_space (c : ascii) :
  Char.is_newline c = true -> Char.is_space c = true.
Proof.
  unfold Char.is_newline, Char.is_space. intros H%N.eqb_eq. now rewrite H.
Qed.

Lemma has_char_weaken (p q : ascii -> bool) (s : string) :
  (forall c, p c = true -> q c = true) ->
  has_char q s = false -> has_char p s = false.
Proof.
  intros Hpq. induction s as [|c s IH]; [reflexivity |].
  cbn [has_char]. intros [Hc Hs]%orb_false_iff. rewrite (IH Hs), orb_false_r.
  destruct (p c) eqn:E; [| reflexivity]. now rewrite (Hpq c E) in Hc.
Qed.

Lemma has_char_join (p : ascii -> bool) (l : list string) :
  p " "%char = false ->
  Forall (fun t => has_char p t = false) l ->
  has_char p (Str.join " " l) = false.
Proof.
  intros Hp. unfold Str.join. induction 1 as [|t l Ht Hl IH]; [reflexivity |].
  cbn [String.concat]. destruct l as [|t' l']; [assumption |].
  rewrite !has_char_append, Ht, IH. cbn [has_char]. now rewrite Hp.
Qed.

(** ** The description parser *)

Lemma parse_line_item_match (s : string) (g : groups) (first : string) (rest : list string) :
  re_match s = Some g ->
  tokens (group1 g) = first :: rest ->
  parse_line_item (VStr s)
  = Ok (mkParsed (Some first) (Some (Str.join " " rest))
                 (Some (group2 g)) (Some (group4 g))).
Proof.
  intros Hm Ht. unfold parse_line_item, tokens in *. cbn [str].
  rewrite Hm, Ht. cbn [item0 bind List.tl List.length].
  destruct rest as [|t rest]; reflexivity.
Qed.

Lemma parse_line_item_no_match (v : value) :
  re_match (str v) = None -> parse_line_item v = Ok all_null.
Proof. intros H. unfold parse_line_item. now rewrite H. Qed.

(** Whatever is returned is filled in completely or not at all. *)
Lemma parse_line_item_all_or_nothing (v : value) (p : parsed) :
  parse_line_item v = Ok p ->
  p = all_null
  \/ exists a b c d, p = mkParsed (Some a) (Some b) (Some c) (Some d).
Proof.
  unfold parse_line_item.
  destruct (re_match (str v)) as [g|]; [| intros [= <-]; now left].
  destruct (Str.split (Str.strip (group1 g))) as [|t ts]; cbn [item0 bind];
    [discriminate |].
  intros [= <-]. right. eauto.
Qed.

(** The only exception is the index error of a name without a token. *)
Lemma parse_line_item_raises (v : value) (e : exn) :
  parse_line_item v = Raise e ->
  e = index_error
  /\ exists g, matches (str v) g /\ tokens (group1 g) = [].
Proof.
  unfold parse_line_item.
  destruct (re_match (str v)) as [g|] eqn:E; [| discriminate].
  apply re_match_iff in E.
  destruct (Str.split (Str.strip (group1 g))) as [|t ts] eqn:Et; cbn [item0 bind];
    [| discriminate].
  intros [= <-]. split; [reflexivity |]. now exists g.
Qed.

(** C2: on a description that matches the pattern, with a name of at least
    one token, the parser returns the first token of the name as first name,
    the other tokens joined by single blanks as last name (the empty text
    when there is none), the captured [S<digits>] as candidate id and the
    second date as vector week ending. *)
Theorem parse_line_item_on_match
    (s : string) (g : groups) (first : string) (rest : list string) :
  matches s g ->
  tokens (group1 g) = first :: rest ->
  parse_line_item (VStr s)
  = Ok (mkParsed (Some first) (Some (Str.join " " rest))
                 (Some (group2 g)) (Some (group4 g)))
  /\ Str.join " " [] = ""
  /\ (exists ds, group2 g = "S" ++ ds /\ ds <> "" /\ all_digits ds = true)
  /\ date_text (group4 g).
Proof.
  intros Hm Ht. split; [| split; [reflexivity |]].
  - apply parse_line_item_match; [now apply re_match_iff | assumption].
  - destruct Hm as (r & (_ & _ & t & _ & ds & Hid & Hne & Hds & _ & Hd2 & _) & _).
    split; [now exists ds | assumption].
Qed.

Lemma parse_line_item_on_match_witness :
  let s := "John Q Public (S12345)[C]:2024-01-01:2024-01-07" in
  let g := mkGroups "John Q Public" "S12345" "2024-01-01" "2024-01-07" in
  matches s g
  /\ tokens (group1 g) = ["John"; "Q"; "Public"]
  /\ parse_line_item (VStr s)
     = Ok (mkParsed (Some "John") (Some "Q Public") (Some "S12345") (Some "2024-01-07")).
Proof.
  intros s g.
  assert (Hm : matches s g) by (apply re_match_iff; reflexivity).
  assert (Ht : tokens (group1 g) = ["John"; "Q"; "Public"]) by reflexivity.
  split; [exact Hm | split; [exact Ht |]].
  exact (proj1 (parse_line_item_on_match s g "John" ["Q"; "Public"] Hm Ht)).
Defined.

(** The same on a description put together from its parts: a name of
    tokens without parenthesis, joined by single blanks. *)
Lemma matches_of_parts (name ds d1 d2 extra : string) :
  name <> "" -> no_newline name = true -> plain name ->
  ds <> "" -> all_digits ds = true -> date_text d1 -> date_text d2 ->
  matches (name ++ " (S" ++ ds ++ ")[C]:" ++ d1 ++ ":" ++ d2 ++ extra)
          (mkGroups name ("S" ++ ds) d1 d2).
Proof.
  intros Hne Hnl Hpl Hds Had Hd1 Hd2.
  assert (Ht : tail_shape ("S" ++ ds) d1 d2 extra
                 (" (S" ++ ds ++ ")[C]:" ++ d1 ++ ":" ++ d2 ++ extra)).
  { exists ds. repeat split; assumption. }
  exists extra. split.
  - repeat split; cbn [group1 group2 group3 group4]; try assumption.
    now eexists.
  - intros g' rest' (Hne' & _ & t' & Hs & Ht'). cbn [group1] in *.
    destruct (Nat.le_gt_cases (String.length name) (String.length (group1 g')))
      as [Hle|Hgt]; [exact Hle | exfalso].
    destruct (append_cut _ _ _ _ (eq_sym Hs)) as (z & Hz & Hzt); [lia |].
    destruct Ht' as (ds' & _ & _ & _ & _ & _ & ->).
    destruct z as [|c1 [|c2 z]].
    + rewrite append_nil_r in Hz. rewrite Hz in Hgt. lia.
    + cbn in Hzt. injection Hzt as _ Hzt. discriminate Hzt.
    + cbn in Hzt. injection Hzt as <- <- _.
      unfold plain in Hpl. rewrite Hz, has_char_append in Hpl.
      cbn in Hpl. rewrite orb_true_r in Hpl. discriminate.
Qed.

(** X6: round trip from the parts: a description written as tokens joined
    by single blanks, [ (S], digits, [)[C]:], two date-shaped texts with a
    colon between them, and anything after, is parsed back into the first
    token, the other tokens joined by single blanks, [S] with the digits,
    and the second date; no token may contain an opening parenthesis. *)
Lemma parse_line_item_of_tokens (first : string) (others : list string)
    (ds d1 d2 extra : string) :
  Forall is_token (first :: others) ->
  Forall plain (first :: others) ->
  ds <> "" -> all_digits ds = true -> date_text d1 -> date_text d2 ->
  parse_line_item
    (VStr (Str.join " " (first :: others)
           ++ " (S" ++ ds ++ ")[C]:" ++ d1 ++ ":" ++ d2 ++ extra))
  = Ok (mkParsed (Some first) (Some (Str.join " " others)) (Some ("S" ++ ds)) (Some d2)).
Proof.
  intros Htok Hpl Hds Had Hd1 Hd2.
  set (name := Str.join " " (first :: others)).
  assert (Hm : matches (name ++ " (S" ++ ds ++ ")[C]:" ++ d1 ++ ":" ++ d2 ++ extra)
                       (mkGroups name ("S" ++ ds) d1 d2)).
  { apply matches_of_parts; try assumption.
    - subst name. unfold Str.join. cbn [String.concat].
      apply Forall_cons_iff in Htok as [[Hne _] _].
      destruct others; destruct first; try congruence; discriminate.
    - unfold no_newline. apply negb_true_iff.
      apply has_char_join; [reflexivity |].
      eapply Forall_impl; [| exact Htok]. intros t [_ Ht].
      now apply (has_char_weaken _ Char.is_space); [apply newline_is_space |].
    - apply has_char_join; [reflexivity | exact Hpl]. }
  apply (parse_line_item_match _ (mkGroups name ("S" ++ ds) d1 d2));
    [now apply re_match_iff |].
  cbn [group1]. now apply tokens_join.
Qed.

(** C10: the pattern is matched against a front of the description: text
    after the second date, digits included, changes nothing of the result. *)
Theorem parse_line_item_prefix
    (s extra : string) (g : groups) (first : string) (rest : list string) :
  matches s g ->
  tokens (group1 g) = first :: rest ->
  matches (s ++ extra) g
  /\ parse_line_item (VStr (s ++ extra))
     = Ok (mkParsed (Some first) (Some (Str.join " " rest))
                    (Some (group2 g)) (Some (group4 g))).
Proof.
  intros Hm Ht.
  assert (E : re_match (s ++ extra) = Some g).
  { apply re_match_iff in Hm. unfold re_match in *.
    destruct (lazy_search s) as [[g0 r]|] eqn:Es; [| discriminate].
    cbn in Hm. injection Hm as ->.
    now rewrite (lazy_search_extend _ extra _ _ Es). }
  split; [now apply re_match_iff |].
  now apply parse_line_item_match.
Qed.

Lemma parse_line_item_prefix_witness :
  let s := "Cher (S7)[C]:2024-01-01:2024-01-07" in
  let g := mkGroups "Cher" "S7" "2024-01-01" "2024-01-07" in
  matches s g
  /\ tokens (group1 g) = ["Cher"]
  /\ parse_line_item (VStr (s ++ "99 and more"))
     = Ok (mkParsed (Some "Cher") (Some "") (Some "S7") (Some "2024-01-07")).
Proof.
  intros s g.
  assert (Hm : matches s g) by (apply re_match_iff; reflexivity).
  assert (Ht : tokens (group1 g) = ["Cher"]) by reflexivity.
  split; [exact Hm | split; [exact Ht |]].
  exact (proj2 (parse_line_item_prefix s "99 and more" g "Cher" [] Hm Ht)).
Defined.


(** *** Cells that are not text *)

Local Open Scope Z_scope.

Lemma plain_append (a b : string) : plain a -> plain b -> plain (a ++ b).
Proof. unfold plain. intros Ha Hb. now rewrite has_char_append, Ha, Hb. Qed.

Lemma plain_cons (c : ascii) (s : string) :
  is_paren c = false -> plain s -> plain (String c s).
Proof. unfold plain. cbn [has_char]. now intros -> ->. Qed.

Lemma plain_substring (s : string) (n m : nat) : plain s -> plain (substring n m s).
Proof.
  unfold plain. revert n m. induction s as [|c s IH]; intros n m H.
  - now destruct n, m.
  - cbn [has_char] in H. apply orb_false_iff in H as [Hc Hs].
    destruct n as [|n]; cbn [substring].
    + destruct m as [|m]; [reflexivity |]. cbn [has_char].
      now rewrite Hc, (IH 0%nat m Hs).
    + now apply IH.
Qed.

Lemma digit_char_plain (d : Z) : is_paren (Dec.digit_char (d mod 10)) = false.
Proof.
  pose proof (Z.mod_pos_bound d 10 eq_refl) as Hb.
  assert (H : d mod 10 = 0 \/ d mod 10 = 1 \/ d mod 10 = 2 \/ d mod 10 = 3
              \/ d mod 10 = 4 \/ d mod 10 = 5 \/ d mod 10 = 6 \/ d mod 10 = 7
              \/ d mod 10 = 8 \/ d mod 10 = 9) by lia.
  repeat (destruct H as [-> | H]; [reflexivity |]). now rewrite H.
Qed.

Lemma plain_digits_onto (fuel : nat) (n : Z) (acc : string) :
  plain acc -> plain (Dec.digits_onto fuel n acc).
Proof.
  revert n acc. induction fuel as [|fuel IH]; intros n acc Hacc; cbn [Dec.digits_onto].
  - apply plain_cons; [apply digit_char_plain | assumption].
  - destruct (n <? 10).
    + apply plain_cons; [apply digit_char_plain | assumption].
    + apply IH. apply plain_cons; [apply digit_char_plain | assumption].
Qed.

Lemma plain_of_nonneg (n : Z) : plain (Dec.of_nonneg n).
Proof. apply plain_digits_onto. reflexivity. Qed.

Lemma plain_of_Z (n : Z) : plain (Dec.of_Z n).
Proof.
  unfold Dec.of_Z. destruct (n <? 0); [| apply plain_of_nonneg].
  apply plain_cons; [reflexivity | apply plain_of_nonneg].
Qed.

Lemma plain_zeros (k : nat) : plain (Dec.zeros k).
Proof. induction k; [reflexivity | now apply plain_cons]. Qed.

Lemma plain_padded (w : nat) (n : Z) : plain (Dec.padded w n).
Proof. apply plain_append; [apply plain_zeros | apply plain_of_nonneg]. Qed.

Lemma plain_layout (ds : string) (decpt : Z) : plain ds -> plain (Float64.layout ds decpt).
Proof.
  intros H. unfold Float64.layout, Float64.take, Float64.drop.
  repeat match goal with
         | |- plain (if ?b then _ else _) => destruct b
         | |- plain (_ ++ _) => apply plain_append
         | |- plain (substring _ _ _) => apply plain_substring
         | |- plain (Dec.zeros _) => apply plain_zeros
         | |- plain (Dec.padded _ _) => apply plain_padded
         | |- plain ds => exact H
         | |- plain _ => reflexivity
         end.
Qed.

Lemma plain_repr (x : float) : plain (Float64.repr x).
Proof.
  unfold Float64.repr.
  destruct (Prim2SF x) as [s|s| |s m e]; try (destruct s; reflexivity); [reflexivity |].
  destruct (0 <=? e);
    match goal with
    | |- context [Float64.shortest ?a ?b ?c ?d ?e ?f] =>
        destruct (Float64.shortest a b c d e f) as [c0 sc0]
    end;
    match goal with
    | |- context [Float64.strip_zeros ?a ?b ?c] =>
        destruct (Float64.strip_zeros a b c) as [c1 sc1]
    end;
    (apply plain_append; [now destruct s | apply plain_layout, plain_of_nonneg]).
Qed.

Lemma plain_isoformat (d : Date.t) : plain (Date.isoformat d).
Proof.
  unfold Date.isoformat.
  repeat first [apply plain_padded | apply plain_append | reflexivity].
Qed.

Lemma plain_clock (seconds : Z) : plain (clock seconds).
Proof.
  unfold clock.
  repeat first [apply plain_padded | apply plain_append | reflexivity].
Qed.

(** The text of a cell that is not text has no parenthesis in it. *)
Lemma plain_str (v : value) : (forall s, v <> VStr s) -> plain (str v).
Proof.
  destruct v as [|s|x|n|b|d sec]; intros H; cbn [str].
  - reflexivity.
  - now destruct (H s).
  - apply plain_repr.
  - apply plain_of_Z.
  - now destruct b.
  - apply plain_append; [apply plain_isoformat |].
    apply plain_cons; [reflexivity | apply plain_clock].
Qed.

(** X5: a description cell that is not text (a missing value, a number, a
    truth value, a date) never matches, [str] of it having no parenthesis:
    all four fields are null. *)
Lemma parse_line_item_non_text (v : value) :
  (forall s, v <> VStr s) -> parse_line_item v = Ok all_null.
Proof.
  intros H. apply parse_line_item_no_match. unfold re_match.
  now rewrite (lazy_search_needs_paren _ (plain_str v H)).
Qed.


(** ** Dates *)

Local Open Scope Z_scope.

Lemma forallb_below (n : nat) (P : Z -> bool) :
  forallb P (map Z.of_nat (seq 0 n)) = true ->
  forall z, 0 <= z < Z.of_nat n -> P z = true.
Proof.
  intros H z Hz. rewrite forallb_forall in H. apply H.
  apply in_map_iff. exists (Z.to_nat z). split; [lia |].
  apply in_seq. lia.
Qed.

Lemma digit_val_range (c : ascii) :
  Char.is_digit c = true -> 0 <= Dec.digit_val c < 10.
Proof.
  unfold Char.is_digit, Dec.digit_val. intros [H1 H2]%andb_prop.
  apply N.leb_le in H1, H2. lia.
Qed.

Lemma digit_char_val (c : ascii) :
  Char.is_digit c = true -> Dec.digit_char (Dec.digit_val c) = c.
Proof.
  unfold Char.is_digit, Dec.digit_val, Dec.digit_char. intros [H1 H2]%andb_prop.
  apply N.leb_le in H1, H2.
  replace (48 + (Z.of_N (Char.code c) - 48)) with (Z.of_N (Char.code c)) by lia.
  rewrite N2Z.id. apply ascii_N_embedding.
Qed.

Lemma padded_4 (n : Z) : 0 <= n < 10000 -> padded_ok 4 n = true.
Proof.
  intros Hn.
  apply (forallb_below (100 * 100) (padded_ok 4)); [vm_compute; reflexivity | lia].
Qed.

Lemma padded_2 (n : Z) : 0 <= n < 100 -> padded_ok 2 n = true.
Proof.
  intros Hn.
  apply (forallb_below 100 (padded_ok 2)); [vm_compute; reflexivity | lia].
Qed.

Lemma padded_ok_spec (w : nat) (n : Z) :
  padded_ok w n = true ->
  digits_of_length w (Dec.padded w n) /\ Dec.value (Dec.padded w n) = n.
Proof.
  unfold padded_ok, digits_of_length.
  intros [[H1 H2]%andb_prop H3]%andb_prop.
  apply Nat.eqb_eq in H1. apply Z.eqb_eq in H3. now repeat split.
Qed.

Lemma reprint_2 (a b : Z) :
  0 <= a < 10 -> 0 <= b < 10 -> reprint_ok 2 [a; b] = true.
Proof.
  intros Ha Hb.
  assert (H : forallb (fun a => forallb (fun b => reprint_ok 2 [a; b]) ten) ten = true)
    by (vm_compute; reflexivity).
  apply (forallb_below 10 _ H) in Ha. now apply (forallb_below 10 _ Ha).
Qed.

Lemma reprint_4 (a b c d : Z) :
  0 <= a < 10 -> 0 <= b < 10 -> 0 <= c < 10 -> 0 <= d < 10 ->
  reprint_ok 4 [a; b; c; d] = true.
Proof.
  intros Ha Hb Hc Hd.
  assert (H : forallb (fun a => forallb (fun b => forallb (fun c => forallb
                (fun d => reprint_ok 4 [a; b; c; d]) ten) ten) ten) ten = true)
    by (vm_compute; reflexivity).
  apply (forallb_below 10 _ H) in Ha. apply (forallb_below 10 _ Ha) in Hb.
  apply (forallb_below 10 _ Hb) in Hc. now apply (forallb_below 10 _ Hc).
Qed.

Lemma digits_as_vals (s : string) :
  all_digits s = true ->
  s = of_vals (map Dec.digit_val (list_ascii_of_string s))
  /\ Forall (fun v => 0 <= v < 10) (map Dec.digit_val (list_ascii_of_string s)).
Proof.
  induction s as [|c s IH]; cbn [all_digits list_ascii_of_string map of_vals fold_right].
  - now split.
  - intros [Hc Hs]%andb_prop. destruct (IH Hs) as [E F]. split.
    + rewrite (digit_char_val c Hc). fold (of_vals (map Dec.digit_val (list_ascii_of_string s))).
      now rewrite <- E.
    + constructor; [now apply digit_val_range | assumption].
Qed.

Lemma padded_value_4 (s : string) :
  digits_of_length 4 s -> Dec.padded 4 (Dec.value s) = s.
Proof.
  intros [Hl Hd]. destruct (digits_as_vals s Hd) as [E F].
  destruct s as [|c1 [|c2 [|c3 [|c4 [|c5 s]]]]]; try discriminate.
  cbn [list_ascii_of_string map] in E, F. rewrite E.
  inversion F as [|? ? H1 F1]; subst. inversion F1 as [|? ? H2 F2]; subst.
  inversion F2 as [|? ? H3 F3]; subst. inversion F3 as [|? ? H4 F4]; subst.
  apply String.eqb_eq. now apply reprint_4.
Qed.

Lemma padded_value_2 (s : string) :
  digits_of_length 2 s -> Dec.padded 2 (Dec.value s) = s.
Proof.
  intros [Hl Hd]. destruct (digits_as_vals s Hd) as [E F].
  destruct s as [|c1 [|c2 [|c3 s]]]; try discriminate.
  cbn [list_ascii_of_string map] in E, F. rewrite E.
  inversion F as [|? ? H1 F1]; subst. inversion F1 as [|? ? H2 F2]; subst.
  apply String.eqb_eq. now apply reprint_2.
Qed.

Lemma valid_bounds (d : Date.t) :
  Date.valid d = true ->
  1 <= Date.year d <= 9999 /\ 1 <= Date.month d <= 12
  /\ 1 <= Date.day d <= Date.days_in_month (Date.year d) (Date.month d).
Proof.
  unfold Date.valid. intros H.
  repeat (apply andb_prop in H as [H ?]).
  repeat match goal with H : (_ <=? _) = true |- _ => apply Z.leb_le in H end.
  lia.
Qed.

Lemma days_in_month_bounds (y m : Z) :
  1 <= m <= 12 -> 28 <= Date.days_in_month y m <= 31.
Proof.
  intros Hm.
  assert (H : m = 1 \/ m = 2 \/ m = 3 \/ m = 4 \/ m = 5 \/ m = 6 \/ m = 7
              \/ m = 8 \/ m = 9 \/ m = 10 \/ m = 11 \/ m = 12) by lia.
  repeat (destruct H as [-> | H]; [cbn; try destruct (Date.is_leap y); lia |]).
  subst. cbn. lia.
Qed.

(** Writing a date and reading it back. *)
Lemma parse_iso_isoformat (d : Date.t) :
  Date.valid d = true -> Date.parse_iso (Date.isoformat d) = Some d.
Proof.
  intros Hv. destruct (valid_bounds d Hv) as (Hy & Hm & Hd).
  pose proof (days_in_month_bounds (Date.year d) (Date.month d) Hm) as Hdim.
  destruct (padded_ok_spec 4 (Date.year d)) as [Dy Vy]; [apply padded_4; lia |].
  destruct (padded_ok_spec 2 (Date.month d)) as [Dm Vm]; [apply padded_2; lia |].
  destruct (padded_ok_spec 2 (Date.day d)) as [Dd Vd]; [apply padded_2; lia |].
  unfold Date.parse_iso, Date.isoformat.
  rewrite (digits_n_append _ _ _ Dy). run_expect.
  rewrite (digits_n_append _ _ _ Dm). run_expect.
  rewrite <- (append_nil_r (Dec.padded 2 (Date.day d))).
  rewrite (digits_n_append _ _ _ Dd). cbn beta iota delta [obind].
  rewrite Vy, Vm, Vd. destruct d as [y m dd]. cbn [Date.year Date.month Date.day] in *.
  now rewrite Hv.
Qed.

(** What is read as a date is the text of a day of the calendar. *)
Lemma parse_iso_sound (s : string) (d : Date.t) :
  Date.parse_iso s = Some d -> Date.valid d = true /\ s = Date.isoformat d.
Proof.
  unfold Date.parse_iso. intros H.
  inv_obind H. destruct p as [y s1].
  inv_obind H. inv_obind H. destruct p as [m s3].
  inv_obind H. inv_obind H. destruct p as [dd s5].
  destruct s5; [| discriminate].
  destruct (Date.valid _) eqn:Hv; [| discriminate].
  injection H as <-. split; [assumption |].
  apply digits_n_sound in E as (-> & Hy).
  apply expect_sound in E0 as ->.
  apply digits_n_sound in E1 as (-> & Hm).
  apply expect_sound in E2 as ->.
  apply digits_n_sound in E3 as (-> & Hd).
  unfold Date.isoformat. cbn [Date.year Date.month Date.day].
  rewrite (padded_value_4 _ Hy), (padded_value_2 _ Hm), (padded_value_2 _ Hd).
  now rewrite append_nil_r.
Qed.

(** The text of a date has the shape the pattern asks for. *)
Lemma isoformat_date_text (d : Date.t) :
  Date.valid d = true -> date_text (Date.isoformat d).
Proof.
  intros Hv. destruct (valid_bounds d Hv) as (Hy & Hm & Hd).
  pose proof (days_in_month_bounds (Date.year d) (Date.month d) Hm) as Hdim.
  exists (Dec.padded 4 (Date.year d)), (Dec.padded 2 (Date.month d)),
         (Dec.padded 2 (Date.day d)).
  split; [reflexivity |].
  repeat split; (apply padded_ok_spec; (apply padded_4 || apply padded_2); lia).
Qed.

(** [next_day] moves one day forward in the count of days. *)
Lemma days_before_year_succ (y : Z) :
  Date.days_before_year (y + 1)
  = Date.days_before_year y + (if Date.is_leap y then 366 else 365).
Proof.
  unfold Date.days_before_year, Date.is_leap.
  replace (y + 1 - 1) with y by lia.
  destruct (y mod 4 =? 0) eqn:H4; destruct (y mod 100 =? 0) eqn:H100;
    destruct (y mod 400 =? 0) eqn:H400; cbn [negb andb orb];
    rewrite ?Z.eqb_eq, ?Z.eqb_neq in *;
    Z.div_mod_to_equations; lia.
Qed.

Lemma valid_on_calendar (d : Date.t) : Date.valid d = true -> on_calendar d.
Proof. intros Hv. destruct (valid_bounds d Hv) as (_ & Hm & Hd). now split. Qed.

Lemma on_calendar_next_day (d : Date.t) : on_calendar d -> on_calendar (Date.next_day d).
Proof.
  destruct d as [y m dd]. unfold on_calendar, Date.next_day.
  cbn [Date.year Date.month Date.day]. intros [Hm Hd].
  destruct (dd <? Date.days_in_month y m) eqn:E1; cbn [Date.year Date.month Date.day].
  - apply Z.ltb_lt in E1. lia.
  - destruct (m <? 12) eqn:E2; cbn [Date.year Date.month Date.day].
    + apply Z.ltb_lt in E2. pose proof (days_in_month_bounds y (m + 1)). lia.
    + cbn. lia.
Qed.

Lemma ordinal_next_day (d : Date.t) :
  on_calendar d -> Date.ordinal (Date.next_day d) = Date.ordinal d + 1.
Proof.
  destruct d as [y m dd]. unfold on_calendar, Date.next_day, Date.ordinal.
  cbn [Date.year Date.month Date.day]. intros [Hm Hd].
  destruct (dd <? Date.days_in_month y m) eqn:E1; cbn [Date.year Date.month Date.day].
  - lia.
  - apply Z.ltb_ge in E1. assert (dd = Date.days_in_month y m) as -> by lia.
    clear Hd E1.
    destruct (m <? 12) eqn:E2; cbn [Date.year Date.month Date.day].
    + apply Z.ltb_lt in E2.
      assert (H : m = 1 \/ m = 2 \/ m = 3 \/ m = 4 \/ m = 5 \/ m = 6 \/ m = 7
                  \/ m = 8 \/ m = 9 \/ m = 10 \/ m = 11) by lia.
      unfold Date.days_before_month, Date.days_in_month.
      destruct (Date.is_leap y);
        repeat (destruct H as [-> | H]; [cbn; lia |]); subst; cbn; lia.
    + apply Z.ltb_ge in E2. assert (m = 12) as -> by lia.
      rewrite days_before_year_succ.
      unfold Date.days_before_month, Date.days_in_month.
      destruct (Date.is_leap y); cbn; lia.
Qed.

Lemma valid_next_day (d : Date.t) :
  Date.valid d = true -> Date.year d < 9999 -> Date.valid (Date.next_day d) = true.
Proof.
  intros Hv Hlt. destruct (valid_bounds d Hv) as (Hy & Hm & Hd).
  pose proof (on_calendar_next_day d (valid_on_calendar d Hv)) as [Hm' Hd'].
  assert (Hy' : 1 <= Date.year (Date.next_day d) <= 9999).
  { unfold Date.next_day.
    repeat match goal with |- context [if ?b then _ else _] => destruct b end;
      cbn [Date.year]; lia. }
  unfold Date.valid. repeat (apply andb_true_intro; split); apply Z.leb_le; lia.
Qed.

Ltac calendar_order :=
  unfold in_timestamp_range, Date.leb, timestamp_first, timestamp_last;
  cbn [Date.year Date.month Date.day];
  rewrite ?andb_true_iff, ?orb_true_iff, ?andb_true_iff, ?orb_true_iff,
          ?andb_true_iff, ?Z.ltb_lt, ?Z.eqb_eq, ?Z.leb_le;
  lia.

(** The years 1678 to 2261 lie within the timestamps, and so does the
    second day after any of their days. *)
Lemma in_timestamp_range_years (d : Date.t) :
  1678 <= Date.year d <= 2261 -> in_timestamp_range d = true.
Proof. intros H. calendar_order. Qed.

Lemma next_day_cases (d : Date.t) :
  Date.next_day d = Date.mk (Date.year d) (Date.month d) (Date.day d + 1)
  \/ Date.next_day d = Date.mk (Date.year d) (Date.month d + 1) 1
  \/ Date.next_day d = Date.mk (Date.year d + 1) 1 1.
Proof.
  unfold Date.next_day.
  destruct (Date.day d <? _); [now left |].
  destruct (Date.month d <? 12); [right; now left | right; now right].
Qed.

Lemma in_timestamp_range_shift (d : Date.t) :
  1678 <= Date.year d <= 2261 ->
  in_timestamp_range (Date.next_day (Date.next_day d)) = true.
Proof.
  intros H.
  destruct (next_day_cases d) as [E|[E|E]]; rewrite E.
  - match goal with |- context [Date.next_day ?x] =>
      destruct (next_day_cases x) as [E'|[E'|E']]; rewrite E'
    end; cbn [Date.year Date.month Date.day]; calendar_order.
  - match goal with |- context [Date.next_day ?x] =>
      destruct (next_day_cases x) as [E'|[E'|E']]; rewrite E'
    end; cbn [Date.year Date.month Date.day]; calendar_order.
  - change (Date.next_day (Date.mk (Date.year d + 1) 1 1))
      with (Date.mk (Date.year d + 1) 1 2).
    calendar_order.
Qed.

Lemma fms_week_ending_null (s : string) :
  Date.parse_iso s = None -> fms_week_ending_of (Some s) = Ok None.
Proof. intros H. unfold fms_week_ending_of, to_datetime. now rewrite H. Qed.

Lemma fms_week_ending_shift (d : Date.t) :
  Date.valid d = true -> 1678 <= Date.year d <= 2261 ->
  fms_week_ending_of (Some (Date.isoformat d))
  = Ok (Some (Date.isoformat (Date.next_day (Date.next_day d)))).
Proof.
  intros Hv Hy. unfold fms_week_ending_of, to_datetime, add_two_days.
  rewrite (parse_iso_isoformat d Hv), (in_timestamp_range_years d Hy).
  change (Date.add_days 2 d) with (Date.next_day (Date.next_day d)).
  now rewrite (in_timestamp_range_shift d Hy).
Qed.

(** A date-shaped text that names no day of the calendar. *)
Lemma fms_week_ending_no_day (y m dd : string) :
  digits_of_length 4 y -> digits_of_length 2 m -> digits_of_length 2 dd ->
  Date.valid (Date.mk (Dec.value y) (Dec.value m) (Dec.value dd)) = false ->
  fms_week_ending_of (Some (y ++ "-" ++ m ++ "-" ++ dd)%string) = Ok None.
Proof.
  intros Hy Hm Hd Hv. apply fms_week_ending_null.
  unfold Date.parse_iso.
  rewrite (digits_n_append _ _ _ Hy). run_expect.
  rewrite (digits_n_append _ _ _ Hm). run_expect.
  rewrite <- (append_nil_r dd).
  rewrite (digits_n_append _ _ _ Hd). cbn beta iota delta [obind].
  now rewrite Hv.
Qed.



(** ** Sorting *)

Local Open Scope list_scope.

Lemma ascii_compare_refl (c : ascii) : Ascii.compare c c = Eq.
Proof. unfold Ascii.compare. apply N.compare_refl. Qed.

Lemma string_leb_refl (s : string) : String.leb s s = true.
Proof.
  unfold String.leb.
  assert (H : String.compare s s = Eq).
  { induction s as [|c s IH]; cbn; [reflexivity |].
    now rewrite ascii_compare_refl. }
  now rewrite H.
Qed.

Lemma string_leb_trans (a b c : string) :
  String.leb a b = true -> String.leb b c = true -> String.leb a c = true.
Proof.
  unfold String.leb. revert b c.
  induction a as [|x a IH]; intros [|y b] [|z c]; cbn; try congruence.
  unfold Ascii.compare.
  destruct (N.compare_spec (N_of_ascii x) (N_of_ascii y)) as [Exy|Lxy|Gxy];
    destruct (N.compare_spec (N_of_ascii y) (N_of_ascii z)) as [Eyz|Lyz|Gyz];
    destruct (N.compare_spec (N_of_ascii x) (N_of_ascii z)) as [Exz|Lxz|Gxz];
    try congruence; try lia.
  apply IH.
Qed.

Section SortFacts.

Variable A : Type.
Variable key : A -> option string.

Lemma key_le_refl (k : option string) : key_le k k = true.
Proof. destruct k; cbn; [apply string_leb_refl | reflexivity]. Qed.

Lemma key_le_total (k1 k2 : option string) :
  key_le k1 k2 = true \/ key_le k2 k1 = true.
Proof.
  destruct k1 as [s1|], k2 as [s2|]; cbn; auto using String.leb_total.
Qed.

Lemma key_le_trans (k1 k2 k3 : option string) :
  key_le k1 k2 = true -> key_le k2 k3 = true -> key_le k1 k3 = true.
Proof.
  destruct k1 as [s1|], k2 as [s2|], k3 as [s3|]; cbn; try congruence.
  apply string_leb_trans.
Qed.

Lemma key_le_none (k : option string) : key_le None k = true -> k = None.
Proof. destruct k; cbn; [discriminate | reflexivity]. Qed.

Lemma insert_perm (a : A) (l : list A) : Permutation (insert key a l) (a :: l).
Proof.
  induction l as [|b l IH]; cbn; [reflexivity |].
  destruct (key_le (key a) (key b)); [reflexivity |].
  rewrite IH. apply perm_swap.
Qed.

Lemma isort_perm (l : list A) : Permutation (isort key l) l.
Proof.
  induction l as [|a l IH]; cbn; [reflexivity |].
  rewrite insert_perm. now constructor.
Qed.

Lemma insert_sorted (a : A) (l : list A) :
  StronglySorted (le_by_key key) l -> StronglySorted (le_by_key key) (insert key a l).
Proof.
  induction l as [|b l IH]; cbn; intros Hs.
  - repeat constructor.
  - apply StronglySorted_inv in Hs as [Hs Hb].
    destruct (key_le (key a) (key b)) eqn:E.
    + constructor; [now constructor |].
      constructor; [exact E |].
      eapply Forall_impl; [| exact Hb].
      intros c Hc. unfold le_by_key in *. now apply (key_le_trans _ (key b)).
    + constructor; [now apply IH |].
      eapply Permutation_Forall; [symmetry; apply insert_perm |].
      constructor; [| exact Hb].
      unfold le_by_key. destruct (key_le_total (key a) (key b)); congruence.
Qed.

Lemma isort_sorted (l : list A) : StronglySorted (le_by_key key) (isort key l).
Proof.
  induction l as [|a l IH]; cbn; [constructor | now apply insert_sorted].
Qed.

Lemma filter_split_perm (f : A -> bool) (l : list A) :
  Permutation (filter (fun a => negb (f a)) l ++ filter f l) l.
Proof.
  induction l as [|a l IH]; cbn; [reflexivity |].
  destruct (f a); cbn.
  - rewrite <- Permutation_middle. now constructor.
  - now constructor.
Qed.

(** [sort_values] rearranges the rows and changes none. *)
Lemma sort_values_perm (l : list A) : Permutation (sort_values key l) l.
Proof.
  unfold sort_values. rewrite isort_perm. apply filter_split_perm.
Qed.

(** Rows with a key first, rows without a key after them. *)
Lemma sort_values_nulls_last (l : list A) :
  exists texts nulls,
    sort_values key l = texts ++ nulls
    /\ Forall (fun a => key a <> None) texts
    /\ Forall (fun a => key a = None) nulls.
Proof.
  exists (isort key (filter (fun a => negb (is_null key a)) l)), (filter (is_null key) l).
  split; [reflexivity |]. split.
  - eapply Permutation_Forall; [symmetry; apply isort_perm |].
    apply Forall_forall. intros a [_ Ha]%filter_In.
    unfold is_null in Ha. now destruct (key a).
  - apply Forall_forall. intros a [_ Ha]%filter_In.
    unfold is_null in Ha. now destruct (key a).
Qed.

Lemma strongly_sorted_app (l1 l2 : list A) :
  StronglySorted (le_by_key key) l1 -> StronglySorted (le_by_key key) l2 ->
  (forall a b, In a l1 -> In b l2 -> le_by_key key a b) ->
  StronglySorted (le_by_key key) (l1 ++ l2).
Proof.
  induction l1 as [|a l1 IH]; cbn; intros H1 H2 H12; [assumption |].
  apply StronglySorted_inv in H1 as [H1 Ha].
  constructor.
  - apply IH; auto.
  - apply Forall_app. split; [assumption |].
    apply Forall_forall. intros b Hb. apply H12; [now left | assumption].
Qed.

Lemma nulls_sorted (l : list A) :
  Forall (fun a => key a = None) l -> StronglySorted (le_by_key key) l.
Proof.
  induction 1 as [|a l Ha Hl IH]; constructor; [assumption |].
  eapply Forall_impl; [| exact Hl].
  intros b Hb. unfold le_by_key. rewrite Hb. now destruct (key a).
Qed.

(** Ascending by key, nulls greatest. *)
Lemma sort_values_sorted (l : list A) : StronglySorted (le_by_key key) (sort_values key l).
Proof.
  unfold sort_values. apply strongly_sorted_app.
  - apply isort_sorted.
  - apply nulls_sorted. apply Forall_forall. intros a [_ Ha]%filter_In.
    unfold is_null in Ha. now destruct (key a).
  - intros a b _ [_ Hb]%filter_In. unfold le_by_key, is_null in *.
    destruct (key b); [discriminate |]. now destruct (key a).
Qed.

End SortFacts.

(** ** Blank rows between week endings *)

Lemma week_neqb_false (a b : option string) : week_neqb a b = false <-> a = b.
Proof.
  destruct a as [s1|], b as [s2|]; cbn; split; try congruence; try discriminate.
  - intros H. apply negb_false_iff, String.eqb_eq in H. now subst.
  - intros [= ->]. now rewrite String.eqb_refl.
Qed.

Lemma same_week_iff (a b : ReconciledRow) :
  same_week a b = true <-> r_vector_week_ending a = r_vector_week_ending b.
Proof.
  unfold same_week. rewrite negb_true_iff. apply week_neqb_false.
Qed.

(** A data row is never taken for a blank row: its amount is a number. *)
Lemma tolist_not_blank (r : ReconciledRow) : is_blank (tolist r) = false.
Proof.
  unfold tolist, is_blank. cbn [forallb]. now rewrite !andb_false_r.
Qed.

Lemma blank_row_is_blank : is_blank blank_row = true.
Proof. reflexivity. Qed.

(** The first run starts with the first row. *)
Lemma group_runs_head (r : ReconciledRow) (rest : list ReconciledRow) :
  exists g gs, group_runs (r :: rest) = (r :: g) :: gs.
Proof.
  cbn [group_runs].
  destruct (group_runs rest) as [|[|r' g] gs]; eauto.
  destruct (same_week r r'); eauto.
Qed.

(** The runs, put end to end, are the rows. *)
Lemma group_runs_concat (rows : list ReconciledRow) : List.concat (group_runs rows) = rows.
Proof.
  induction rows as [|r rest IH]; [reflexivity |].
  cbn [group_runs].
  destruct rest as [|r' rest']; [reflexivity |].
  destruct (group_runs_head r' rest') as (g & gs & E). rewrite E in *.
  destruct (same_week r r'); cbn in *; now rewrite IH.
Qed.

(** Within a run the week ending is the same. *)
Lemma group_runs_uniform (rows : list ReconciledRow) :
  Forall (fun g => forall a b, In a g -> In b g ->
                   r_vector_week_ending a = r_vector_week_ending b)
         (group_runs rows).
Proof.
  induction rows as [|r rest IH]; [constructor |].
  cbn [group_runs].
  destruct (group_runs rest) as [|[|r' g] gs] eqn:E.
  - constructor; [| constructor]. intros a b [<-|[]] [<-|[]]. reflexivity.
  - constructor; [| constructor]. intros a b [<-|[]] [<-|[]]. reflexivity.
  - destruct (same_week r r') eqn:Hs.
    + apply Forall_cons_iff in IH as [Hg Hgs]. constructor; [| exact Hgs].
      apply same_week_iff in Hs.
      assert (Hr : forall a, In a (r :: r' :: g) ->
                             r_vector_week_ending a = r_vector_week_ending r').
      { intros a [<-|Ha]; [exact Hs | apply Hg; [exact Ha | now left]]. }
      intros a b Ha Hb. now rewrite (Hr a Ha), (Hr b Hb).
    + constructor; [| exact IH]. intros a b [<-|[]] [<-|[]]. reflexivity.
Qed.

Lemma group_runs_differ (rows : list ReconciledRow) : runs_differ (group_runs rows).
Proof.
  induction rows as [|r rest IH]; [exact I |].
  pose proof (group_runs_uniform rest) as Hu.
  cbn [group_runs].
  destruct (group_runs rest) as [|[|r' g] gs] eqn:E; [exact I | exact I |].
  destruct (same_week r r') eqn:Hs.
  - apply same_week_iff in Hs. cbn [runs_differ] in *.
    destruct gs as [|g2 gs]; [exact I |].
    destruct IH as [Hd IH]. split; [| exact IH].
    intros a b [<-|Ha] Hb; [rewrite Hs |]; apply Hd; auto using in_eq.
  - cbn [runs_differ]. split; [| exact IH].
    apply Forall_cons_iff in Hu as [Hg _].
    intros a b [<-|[]] Hb. rewrite (Hg b r' Hb (in_eq _ _)).
    intros H. apply same_week_iff in H. congruence.
Qed.

Lemma spec_body_cons (r : ReconciledRow) (rest : list ReconciledRow) :
  spec_body (r :: rest) = tolist r :: body_after r rest.
Proof.
  unfold spec_body. revert r. induction rest as [|r' rest IH]; intros r; [reflexivity |].
  specialize (IH r'). cbn [group_runs body_after] in *.
  destruct (group_runs_head r' rest) as (g & gs & E).
  cbn [group_runs] in E. rewrite E in *.
  destruct (same_week r r'); cbn [map join_groups app] in *.
  - destruct gs; cbn [map join_groups app] in *; now rewrite IH.
  - now rewrite IH.
Qed.

(** On rows sorted with the nulls last, the loop and the layout agree. *)
Lemma format_from_body_after (r : ReconciledRow) (rest : list ReconciledRow) :
  Sorted week_le (r :: rest) -> Forall week_well_formed (r :: rest) ->
  format_from (r_vector_week_ending r) rest = body_after r rest.
Proof.
  revert r. induction rest as [|r' rest IH]; intros r Hs Hw; [reflexivity |].
  apply Sorted_inv in Hs as [Hs Hh]. apply HdRel_inv in Hh.
  apply Forall_cons_iff in Hw as [Hr Hw].
  cbn [format_from body_after]. rewrite (IH r' Hs Hw). f_equal.
  unfold same_week, week_le, le_by_key, week_well_formed in *.
  destruct (r_vector_week_ending r) as [s|] eqn:Er.
  - assert (Ht : week_truthy (Some s) = true).
    { cbn. apply negb_true_iff, String.eqb_neq. congruence. }
    rewrite Ht. cbn [andb].
    destruct (r_vector_week_ending r') as [s'|]; cbn; [| reflexivity].
    rewrite (String.eqb_sym s' s). now destruct (String.eqb s s').
  - apply key_le_none in Hh. now rewrite Hh.
Qed.

Lemma blank_count_join (gs : list (list ReconciledRow)) :
  List.length (filter is_blank (join_groups (map (map tolist) gs)))
  = Nat.pred (List.length gs).
Proof.
  assert (Hg : forall g, filter is_blank (map tolist g) = []).
  { induction g as [|r g IHg]; cbn [map filter]; [reflexivity |].
    now rewrite tolist_not_blank. }
  induction gs as [|g gs IH]; [reflexivity |].
  destruct gs as [|g' gs]; cbn [map join_groups List.length Nat.pred] in *.
  - now rewrite Hg.
  - rewrite filter_app, Hg. cbn [app filter].
    rewrite blank_row_is_blank. cbn [List.length]. now rewrite IH.
Qed.

Lemma data_rows_join (gs : list (list ReconciledRow)) :
  filter (fun row => negb (is_blank row)) (join_groups (map (map tolist) gs))
  = map tolist (List.concat gs).
Proof.
  assert (Hg : forall g, filter (fun row => negb (is_blank row)) (map tolist g)
                         = map tolist g).
  { induction g as [|r g IHg]; cbn [map filter]; [reflexivity |].
    now rewrite tolist_not_blank, IHg. }
  induction gs as [|g gs IH]; [reflexivity |].
  destruct gs as [|g' gs]; cbn [map join_groups List.concat] in *.
  - now rewrite Hg, app_nil_r.
  - rewrite filter_app, Hg. cbn [filter].
    rewrite blank_row_is_blank. cbn [negb]. rewrite IH. symmetry. apply map_app.
Qed.

Lemma last_app_cons (A : Type) (l1 : list A) (x : A) (l2 : list A) (d : A) :
  last (l1 ++ x :: l2) d = last (x :: l2) d.
Proof.
  induction l1 as [|a l1 IH]; [reflexivity |].
  cbn [app]. rewrite <- IH. cbn [last]. now destruct (l1 ++ x :: l2) eqn:E; [destruct l1 |].
Qed.

Lemma format_from_last (prev : option string) (rows : list ReconciledRow) :
  last (format_from prev rows) blank_row = last (map tolist rows) blank_row.
Proof.
  revert prev. induction rows as [|r rest IH]; intros prev; [reflexivity |].
  cbn [format_from]. rewrite last_app_cons.
  specialize (IH (r_vector_week_ending r)).
  destruct rest as [|r' rest']; [reflexivity |].
  cbn [map] in *. cbn [format_from] in *.
  destruct (week_truthy (r_vector_week_ending r)
            && week_neqb (r_vector_week_ending r') (r_vector_week_ending r));
    cbn [app] in *; cbn [last] in *; exact IH.
Qed.

Lemma formatted_rows_spec_body (rows : list ReconciledRow) :
  Sorted week_le rows -> Forall week_well_formed rows ->
  formatted_rows rows = spec_body rows.
Proof.
  intros Hs Hw. destruct rows as [|r rest]; [reflexivity |].
  rewrite spec_body_cons. unfold formatted_rows. cbn [format_from week_truthy andb app].
  now rewrite format_from_body_after.
Qed.

(** On a column whose nulls are [None], and on rows sorted by week ending
    with the nulls last, the loop lays out the runs of equal week ending one
    after the other with exactly one blank row between two runs: the blank
    rows are one less than the runs, none is first, none is last, the data
    rows are all there in order; equality is that of the raw value, so the
    rows without a week ending form one run of their own. *)
Theorem formatted_rows_separate_groups (rows : list ReconciledRow) :
  Sorted week_le rows ->
  Forall week_well_formed rows ->
  formatted_rows rows = spec_body rows
  /\ List.concat (group_runs rows) = rows
  /\ runs_differ (group_runs rows)
  /\ List.length (filter is_blank (formatted_rows rows))
     = Nat.pred (List.length (group_runs rows))
  /\ filter (fun row => negb (is_blank row)) (formatted_rows rows) = map tolist rows
  /\ hd_error (formatted_rows rows) = hd_error (map tolist rows)
  /\ last (formatted_rows rows) blank_row = last (map tolist rows) blank_row.
Proof.
  intros Hs Hw.
  assert (E : formatted_rows rows = spec_body rows)
    by now apply formatted_rows_spec_body.
  split; [exact E |]. split; [apply group_runs_concat |].
  split; [apply group_runs_differ |]. rewrite E. unfold spec_body.
  split; [apply blank_count_join |].
  split; [now rewrite data_rows_join, group_runs_concat |].
  fold (spec_body rows). rewrite <- E.
  split; [now destruct rows | apply format_from_last].
Qed.

Lemma formatted_rows_separate_groups_witness :
  Sorted week_le sample_rows
  /\ Forall week_well_formed sample_rows
  /\ formatted_rows sample_rows
     = [ tolist (sample_row "Ann" (Some "2024-01-07"));
         tolist (sample_row "Bob" (Some "2024-01-07"));
         blank_row;
         tolist (sample_row "Cy" (Some "2024-01-14")) ].
Proof.
  assert (Hs : Sorted week_le sample_rows)
    by (repeat constructor).
  assert (Hw : Forall week_well_formed sample_rows)
    by (repeat constructor; discriminate).
  split; [exact Hs | split; [exact Hw |]].
  rewrite (proj1 (formatted_rows_separate_groups sample_rows Hs Hw)).
  reflexivity.
Defined.

(** *** Nulls that are [nan] *)

Lemma format_layout_none (prev : option string) (rows : list ReconciledRow) :
  map cells_of (format_layout WNone (week_cell_of WNone prev) rows)
  = format_from prev rows.
Proof.
  revert prev. induction rows as [|row rest IH]; intros prev; [reflexivity |].
  cbn [format_layout format_from]. rewrite map_app. cbn [map cells_of].
  rewrite IH. f_equal.
  destruct prev as [p|], (r_vector_week_ending row) as [w|]; cbn;
    try destruct (String.eqb p ""); try destruct (String.eqb w p); reflexivity.
Qed.

Lemma cell_neqb_nan (w : week_cell) : cell_neqb WNaN w = true.
Proof. now destruct w. Qed.

(** C7: the loop compares the week endings with [!=].  On a column whose
    nulls are [None] it is the loop of the model, and sorted rows are laid
    out as the claim says, the rows without a week ending in one run.  On a
    column whose nulls are [nan] two adjacent rows without a week ending
    are separated by a blank row, [nan] being true and different from
    itself: after a row with a week ending, two rows without one are laid
    out with a blank row before each, where the claim has one blank row
    before the two. *)
Theorem format_layout_nan_nulls :
  (forall rows, map cells_of (format_layout WNone WNone rows) = formatted_rows rows)
  /\ (forall rows, Sorted week_le rows -> Forall week_well_formed rows ->
        map cells_of (format_layout WNone WNone rows) = spec_body rows)
  /\ (forall prev r1 r2 rest,
        r_vector_week_ending r1 = None -> r_vector_week_ending r2 = None ->
        format_layout WNaN prev (r1 :: r2 :: rest)
        = ((if cell_truthy prev then [Blank] else [])
           ++ Data r1 :: Blank :: Data r2 :: format_layout WNaN WNaN rest)%list)
  /\ Sorted week_le null_week_rows
  /\ Forall week_well_formed null_week_rows
  /\ format_layout WNaN WNone null_week_rows
     = [ Data (sample_row "Ann" (Some "2024-01-07")); Blank;
         Data (unparsed_row "ESG-2"); Blank; Data (unparsed_row "ESG-3") ]
  /\ format_layout WNone WNone null_week_rows
     = [ Data (sample_row "Ann" (Some "2024-01-07")); Blank;
         Data (unparsed_row "ESG-2"); Data (unparsed_row "ESG-3") ]
  /\ spec_body null_week_rows
     = [ tolist (sample_row "Ann" (Some "2024-01-07")); blank_row;
         tolist (unparsed_row "ESG-2"); tolist (unparsed_row "ESG-3") ].
Proof.
  assert (Hi : forall rows,
             map cells_of (format_layout WNone WNone rows) = formatted_rows rows)
    by (intros rows; exact (format_layout_none None rows)).
  split; [exact Hi |]. split.
  { intros rows Hs Hw. rewrite Hi. now apply formatted_rows_spec_body. }
  split.
  { intros prev r1 r2 rest E1 E2. cbn [format_layout]. rewrite E1, E2.
    cbn [week_cell_of cell_truthy andb]. rewrite !cell_neqb_nan, andb_true_r.
    reflexivity. }
  split; [repeat constructor |].
  split; [repeat constructor; discriminate |].
  repeat split; reflexivity.
Qed.

(** ** Column widths *)

Lemma max_len_upper (col : list value) (v : value) :
  In v col -> (cell_len v <= max_len col)%Z.
Proof.
  unfold max_len. induction col as [|a col IH]; cbn [map fold_right In]; [easy |].
  intros [<-|H]; [lia |]. specialize (IH H). lia.
Qed.

Lemma cell_len_nonneg (v : value) : (0 <= cell_len v)%Z.
Proof. unfold cell_len. destruct (truthy v); lia. Qed.

Lemma max_len_attained (col : list value) :
  max_len col = 0%Z
  \/ exists v, In v col /\ truthy v = true
               /\ max_len col = Z.of_nat (String.length (str v)).
Proof.
  unfold max_len. induction col as [|a col IH]; cbn [map fold_right]; [now left |].
  fold (max_len col) in *.
  destruct (Z.max_spec (cell_len a) (max_len col)) as [[Hlt ->]|[Hle ->]].
  - destruct IH as [IH|(v & Hv & Ht & E)]; [now left |].
    right. exists v. repeat split; [now right | assumption | assumption].
  - unfold cell_len in *. destruct (truthy a) eqn:Ht; [| now left].
    right. exists a. repeat split; [now left | assumption].
Qed.

(** C9, as the code has it: the width of a column is the length of its
    longest text plus 2, and at most 40, where a cell that is empty, zero or
    false counts for nothing and every row of the sheet counts, the summary
    block and the header included; each column on its own. *)
Theorem column_width_spec (ws : worksheet) :
  column_widths ws = map (fun j => column_width (column ws j)) (seq 0 (max_column ws))
  /\ forall col,
       column_width col = Z.min (max_len col + 2) 40
       /\ (forall v, In v col ->
             ((if truthy v then Z.of_nat (String.length (str v)) else 0) <= max_len col)%Z)
       /\ (max_len col = 0%Z
           \/ exists v, In v col /\ truthy v = true
                        /\ max_len col = Z.of_nat (String.length (str v)))
       /\ (2 <= column_width col <= 40)%Z.
Proof.
  split; [reflexivity |]. intros col.
  split; [reflexivity |]. split; [apply max_len_upper |].
  split; [apply max_len_attained |].
  unfold column_width.
  assert (0 <= max_len col)%Z.
  { unfold max_len. induction col; cbn [map fold_right]; lia. }
  lia.
Qed.

(** C9, as the claim has it, fails: no padding makes the width the capped
    length plus the padding.  A three-letter column is 5 wide, so the
    padding would be 2; a forty-letter column is 40 wide, not 42. *)
Lemma column_width_not_spec_width :
  ~ exists padding, forall col, column_width col = spec_width padding col.
Proof.
  intros [p H].
  pose proof (H [VStr "abc"]) as H1. pose proof (H [VStr forty]) as H2.
  unfold spec_width in H1, H2.
  assert (E1 : column_width [VStr "abc"] = 5%Z) by (vm_compute; reflexivity).
  assert (E2 : longest_text [VStr "abc"] = 3%Z) by (vm_compute; reflexivity).
  assert (E3 : column_width [VStr forty] = 40%Z) by (vm_compute; reflexivity).
  assert (E4 : longest_text [VStr forty] = 40%Z) by (vm_compute; reflexivity).
  rewrite E1, E2 in H1. rewrite E3, E4 in H2. lia.
Qed.

(** ** The reconciliation run *)

Lemma map_rows_length (A B : Type) (f : A -> result B) (l : list A) (rs : list B) :
  map_rows f l = Ok rs -> List.length rs = List.length l.
Proof.
  revert rs. induction l as [|a l IH]; cbn [map_rows]; intros rs H.
  - now injection H as <-.
  - destruct (f a) as [b|e]; cbn [bind] in H; [| discriminate].
    destruct (map_rows f l) as [bs|e]; cbn [bind] in H; [| discriminate].
    injection H as <-. cbn. now rewrite (IH bs eq_refl).
Qed.

Lemma map_rows_Forall (A B : Type) (f : A -> result B) (P : B -> Prop)
    (l : list A) (rs : list B) :
  (forall a b, f a = Ok b -> P b) -> map_rows f l = Ok rs -> Forall P rs.
Proof.
  intros Hf. revert rs. induction l as [|a l IH]; cbn [map_rows]; intros rs H.
  - injection H as <-. constructor.
  - destruct (f a) as [b|e] eqn:E; cbn [bind] in H; [| discriminate].
    destruct (map_rows f l) as [bs|e]; cbn [bind] in H; [| discriminate].
    injection H as <-. constructor; [now apply (Hf a) | now apply IH].
Qed.

Lemma map_rows_raise (A B : Type) (f : A -> result B) (l : list A) (e : exn) :
  map_rows f l = Raise e -> exists a, In a l /\ f a = Raise e.
Proof.
  induction l as [|a l IH]; cbn [map_rows]; intros H; [discriminate |].
  destruct (f a) as [b|e'] eqn:E; cbn [bind] in H.
  - destruct (map_rows f l) as [bs|e'']; cbn [bind] in H; [discriminate |].
    injection H as ->. destruct (IH eq_refl) as (a' & Hin & Ha').
    exists a'. split; [now right | assumption].
  - injection H as ->. exists a. split; [now left | assumption].
Qed.

Lemma map_rows_two_phases (desc : string) (x : float) (d : Date.t)
    (matching : list InvoiceRow) (parsed_rows : list (InvoiceRow * parsed))
    (rows : list ReconciledRow) :
  map_rows parse_row matching = Ok parsed_rows ->
  map_rows (fun rp => derive_row desc x d (fst rp) (snd rp)) parsed_rows = Ok rows ->
  map_rows (reconcile_row desc x d) matching = Ok rows.
Proof.
  revert parsed_rows rows.
  induction matching as [|row matching IH]; cbn [map_rows]; intros prs rows H1 H2.
  - injection H1 as <-. exact H2.
  - unfold parse_row at 1 in H1. unfold reconcile_row at 1.
    destruct (parse_line_item (line_item_description row)) as [p|e];
      cbn [bind] in H1 |- *; [| discriminate].
    destruct (map_rows parse_row matching) as [prs'|e]; cbn [bind] in H1; [| discriminate].
    injection H1 as <-. cbn [map_rows fst snd] in H2.
    destruct (derive_row desc x d row p) as [r0|e]; cbn [bind] in H2 |- *; [| discriminate].
    destruct (map_rows _ prs') as [rows'|e] eqn:E; cbn [bind] in H2; [| discriminate].
    injection H2 as <-. now rewrite (IH _ _ eq_refl E).
Qed.

(** What a report holds when it is written. *)
Lemma write_report_ok (df_final : list ReconciledRow) (summary : list (string * value))
    (r : Report) :
  write_report df_final summary = Ok r ->
  (body r = df_final /\ summary_data r = summary
   /\ header_row r = (List.length summary + 2)%nat
   /\ widths r = column_widths (sheet r))
  /\ sheet r = ([ [VStr "ACH Summary"] ]
               ++ map (fun kv => [VStr (fst kv); snd kv]) summary
               ++ [ [] ]
               ++ [ map VStr body_columns ]
               ++ formatted_rows df_final)%list
  /\ append_rows (sheet r) = Ok tt.
Proof.
  unfold write_report.
  destruct (append_rows _) as [[]|e] eqn:E; cbn [bind]; [| discriminate].
  intros [= <-]. cbn [sheet body summary_data header_row widths]. now repeat split.
Qed.

Lemma build_report_ok (desc : string) (x : float) (d : Date.t)
    (matching : list InvoiceRow) (r : Report) :
  build_report desc x d matching = Ok r ->
  exists rows summary,
    map_rows (reconcile_row desc x d) matching = Ok rows
    /\ summary_of (sort_values r_vector_week_ending rows) = Ok summary
    /\ write_report (sort_values r_vector_week_ending rows) summary = Ok r.
Proof.
  unfold build_report.
  destruct (map_rows parse_row matching) as [prs|e] eqn:E1; cbn [bind]; [| discriminate].
  destruct (map_rows _ prs) as [rows|e] eqn:E2; cbn [bind]; [| discriminate].
  destruct (summary_of _) as [summary|e] eqn:E3; cbn [bind]; [| discriminate].
  intros H. exists rows, summary. split; [| now split].
  exact (map_rows_two_phases _ _ _ _ _ _ E1 E2).
Qed.

Lemma reconcile_success (a desc : string) (d : Date.t) (f : upload) (r : Report) :
  reconcile a desc d f = Success r ->
  exists x df rows summary,
    Float64.float_of_str a = Some x
    /\ read_excel f = Ok df
    /\ select_rows d df <> []
    /\ amounts_differ (total_of (select_rows d df)) x = false
    /\ map_rows (reconcile_row desc x d) (select_rows d df) = Ok rows
    /\ body r = sort_values r_vector_week_ending rows
    /\ write_report (sort_values r_vector_week_ending rows) summary = Ok r
    /\ summary_of (sort_values r_vector_week_ending rows) = Ok summary.
Proof.
  unfold reconcile, try_body, check_amount, py_float.
  destruct (Float64.float_of_str a) as [x|]; cbn [bind handle]; [| discriminate].
  destruct (read_excel f) as [df|e]; cbn [bind handle];
    [| destruct (is_ValueError e); discriminate].
  destruct (select_rows d df) as [|row rest] eqn:Em; cbn [bind handle]; [discriminate |].
  destruct (amounts_differ _ x) eqn:Ed; cbn [bind handle]; [discriminate |].
  destruct (build_report desc x d (row :: rest)) as [r0|e] eqn:Eb; cbn [bind handle];
    [| destruct (is_ValueError e); discriminate].
  intros [= <-].
  destruct (build_report_ok _ _ _ _ _ Eb) as (rows & summary & Hr & Hs & Hw).
  exists x, df, rows, summary. rewrite Em.
  repeat split; try assumption; [discriminate |].
  exact (proj1 (proj1 (write_report_ok _ _ _ Hw))).
Qed.

(** C8: in a successful run the rows of the report are sorted by week
    ending, by the order of the text, and the rows without a week ending
    come after all the others; the rows are those built from the matching
    rows of the sheet, rearranged. *)
Theorem success_rows_sorted (a desc : string) (d : Date.t) (f : upload) (r : Report) :
  reconcile a desc d f = Success r ->
  StronglySorted week_le (body r)
  /\ (exists texts nulls,
        body r = texts ++ nulls
        /\ Forall (fun row => r_vector_week_ending row <> None) texts
        /\ Forall (fun row => r_vector_week_ending row = None) nulls)
  /\ (exists x df rows,
        read_excel f = Ok df
        /\ map_rows (reconcile_row desc x d) (select_rows d df) = Ok rows
        /\ Permutation (body r) rows).
Proof.
  intros H. apply reconcile_success in H
    as (x & df & rows & summary & _ & Hf & _ & _ & Hr & -> & _ & _).
  split; [apply sort_values_sorted |].
  split; [apply sort_values_nulls_last |].
  exists x, df, rows. repeat split; try assumption. apply sort_values_perm.
Qed.

Lemma success_rows_sorted_witness :
  exists r,
    reconcile "1000.00" "March Payroll" sample_date (Upload (Ok sample_invoices)) = Success r
    /\ StronglySorted week_le (body r).
Proof.
  destruct (reconcile "1000.00" "March Payroll" sample_date (Upload (Ok sample_invoices)))
    as [e|r] eqn:E.
  - vm_compute in E. discriminate E.
  - exists r. split; [reflexivity |].
    exact (proj1 (success_rows_sorted _ _ _ _ r E)).
Defined.

(** *** Rounding to two places *)









(** C4: an amount that [float] does not read ends the run with the
    non-numeric failure whatever the uploaded file is: the amount is read
    first, the exception leaves the body before the file is opened. *)
Theorem non_numeric_amount_first (a desc : string) (d : Date.t) (f : upload) :
  Float64.float_of_str a = None ->
  reconcile a desc d f = Failure NonNumericAmount
  /\ check_amount a d f = check_amount a d (Upload (Ok []))
  /\ exists e, check_amount a d f = Raise e /\ exn_kind e = ValueError.
Proof.
  intros Ha. unfold reconcile, try_body, check_amount, py_float. rewrite Ha.
  cbn [bind handle is_ValueError exn_kind]. repeat split. eauto.
Qed.

Lemma non_numeric_amount_first_witness :
  Float64.float_of_str "abc" = None
  /\ (exists entered,
        reconcile "999.99" "March Payroll" sample_date (Upload (Ok sample_invoices))
        = Failure (AmountMismatch 1000 entered))
  /\ reconcile "abc" "March Payroll" sample_date (Upload (Ok sample_invoices))
     = Failure NonNumericAmount.
Proof.
  assert (Ha : Float64.float_of_str "abc" = None) by reflexivity.
  split; [exact Ha | split; [eexists; vm_compute; reflexivity |]].
  exact (proj1 (non_numeric_amount_first "abc" "March Payroll" sample_date
                  (Upload (Ok sample_invoices)) Ha)).
Defined.

(** The form is checked before the run: an empty amount is a missing
    input, and a filled form is handed to the run. *)
Lemma on_generate_filled (a desc : string) (d : Date.t) (f : upload) :
  a <> "" -> desc <> "" -> on_generate a desc d (Some f) = reconcile a desc d f.
Proof.
  intros Ha Hd. unfold on_generate.
  apply String.eqb_neq in Ha, Hd. now rewrite Ha, Hd.
Qed.

(** What the handler makes of an exception. *)
Lemma handle_raise (e : exn) :
  handle (Raise e)
  = if is_ValueError e then Failure NonNumericAmount
    else Failure (UnexpectedError (exn_message e)).
Proof. reflexivity. Qed.

(** An exception of the reader that is not a [ValueError] is reported as
    unexpected, with its message. *)
Lemma reader_error_unexpected (a desc : string) (d : Date.t) (e : exn) (x : float) :
  Float64.float_of_str a = Some x ->
  is_ValueError e = false ->
  reconcile a desc d (Upload (Raise e)) = Failure (UnexpectedError (exn_message e)).
Proof.
  intros Ha He. unfold reconcile, try_body, check_amount, py_float. rewrite Ha.
  cbn [bind read_excel handle]. now rewrite He.
Qed.

(** C6 fails on a [ValueError] raised after the amount is read: a file that
    is not a workbook, with the numeric amount [1000.00], is reported as a
    non-numeric amount, not as an unexpected error with the reader's
    message. *)
Theorem value_error_reported_as_non_numeric :
  Float64.float_of_str "1000.00" = Some 1000%float
  /\ read_excel not_a_workbook
     = Raise (mkExn ValueError
         "Excel file format cannot be determined, you must specify an engine manually.")
  /\ reconcile "1000.00" "March Payroll" sample_date not_a_workbook
     = Failure NonNumericAmount.
Proof. repeat split; vm_compute; reflexivity. Qed.

(** C3 fails on a description whose name is blank: the pattern matches
    with a name of one blank, the name has no token, and taking the first
    token raises an index error, which ends the run. *)
Theorem parse_line_item_blank_name_raises :
  Regex.re_match blank_name
  = Some (Regex.mkGroups " " "S1" "2024-01-01" "2024-01-07")
  /\ Pattern.tokens " " = []
  /\ parse_line_item (VStr blank_name) = Raise index_error
  /\ reconcile "1000" "March Payroll" sample_date
       (Upload (Ok [sample_invoice blank_name 1000]))
     = Failure (UnexpectedError "list index out of range").
Proof. repeat split; vm_compute; reflexivity. Qed.

(** ** Every way a run can end *)

Lemma date_text_not_empty (d : string) : date_text d -> d <> "".
Proof.
  intros (y & m & dd & -> & [Hy _] & _). destruct y; [discriminate Hy | discriminate].
Qed.

(** The week ending that the parser returns is null or a date-shaped text. *)
Lemma parse_line_item_week (v : value) (p : parsed) :
  parse_line_item v = Ok p ->
  vector_week_ending p = None
  \/ exists d, vector_week_ending p = Some d /\ date_text d.
Proof.
  unfold parse_line_item.
  destruct (re_match (str v)) as [g|] eqn:E; [| intros [= <-]; now left].
  destruct (Str.split (Str.strip (group1 g))) as [|t ts]; cbn [item0 bind];
    [discriminate |].
  intros [= <-]. right. exists (group4 g). split; [reflexivity |].
  apply re_match_iff in E as (r & (_ & _ & t0 & _ & ds & _ & _ & _ & _ & Hd & _) & _).
  exact Hd.
Qed.

(** What a row of the report is made of. *)
Lemma reconcile_row_inv (desc : string) (x : float) (d : Date.t)
    (row : InvoiceRow) (r : ReconciledRow) :
  reconcile_row desc x d row = Ok r ->
  exists p fms,
    parse_line_item (line_item_description row) = Ok p
    /\ fms_week_ending_of (vector_week_ending p) = Ok fms
    /\ r = mkReconciledRow
             (first_name p) (last_name p) (candidate_id p) (vector_week_ending p) fms
             (quantity row) (unit_cost row) (extended_amount row) (invoice_amount row)
             (due_date row) (cai_invoice_number row) (supplier_invoice_number row)
             desc x (Date.isoformat d).
Proof.
  unfold reconcile_row, derive_row.
  destruct (parse_line_item (line_item_description row)) as [p|e];
    cbn [bind]; [| discriminate].
  destruct (fms_week_ending_of (vector_week_ending p)) as [fms|e] eqn:Ef;
    cbn [bind]; [| discriminate].
  intros [= <-]. exists p, fms. now repeat split.
Qed.

Lemma reconcile_row_well_formed (desc : string) (x : float) (d : Date.t)
    (row : InvoiceRow) (r : ReconciledRow) :
  reconcile_row desc x d row = Ok r -> week_well_formed r.
Proof.
  intros H. destruct (reconcile_row_inv _ _ _ _ _ H) as (p & fms & E & _ & ->).
  unfold week_well_formed. cbn [r_vector_week_ending].
  destruct (parse_line_item_week _ _ E) as [->|(t & -> & Ht)]; [discriminate |].
  intros [= ->]. exact (date_text_not_empty "" Ht eq_refl).
Qed.

(** The sheet of a successful run: title, summary, an empty row, the
    header, then the runs of equal week ending with one blank row between
    two runs. *)
Lemma success_sheet_layout (a desc : string) (d : Date.t) (f : upload) (r : Report) :
  reconcile a desc d f = Success r ->
  exists x,
    Float64.float_of_str a = Some x
    /\ summary_data r = [ ("ACH Description", VStr desc); ("ACH Amount", VFloat x);
                          ("ACH Date", VStr (Date.isoformat d)) ]
    /\ sheet r = [ [VStr "ACH Summary"];
                   [VStr "ACH Description"; VStr desc];
                   [VStr "ACH Amount"; VFloat x];
                   [VStr "ACH Date"; VStr (Date.isoformat d)];
                   [];
                   map VStr body_columns ]
                 ++ spec_body (body r)
    /\ widths r = column_widths (sheet r).
Proof.
  intros H. apply reconcile_success in H
    as (x & df & rows & summary & Ha & _ & _ & _ & Er & Hbody & Hwr & Hsum).
  destruct (write_report_ok _ _ _ Hwr) as ((_ & Hsd & _ & Hwd) & Hsheet & _).
  assert (Hw : Forall week_well_formed (sort_values r_vector_week_ending rows)).
  { eapply Permutation_Forall; [symmetry; apply sort_values_perm |].
    eapply map_rows_Forall; [| exact Er].
    intros ? ?. apply reconcile_row_well_formed. }
  assert (Hs : Sorted week_le (sort_values r_vector_week_ending rows))
    by apply StronglySorted_Sorted, sort_values_sorted.
  assert (Hach : Forall (fun r0 => r_ach_description r0 = desc /\ r_ach_amount r0 = x
                                   /\ r_ach_date r0 = Date.isoformat d)
                        (sort_values r_vector_week_ending rows)).
  { eapply Permutation_Forall; [symmetry; apply sort_values_perm |].
    eapply map_rows_Forall; [| exact Er].
    intros a0 b Hb. destruct (reconcile_row_inv _ _ _ _ _ Hb) as (p & fms & _ & _ & ->).
    now repeat split. }
  exists x. split; [assumption |].
  destruct (sort_values r_vector_week_ending rows) as [|r0 rs] eqn:Es;
    cbn [summary_of] in Hsum; [discriminate |].
  injection Hsum as <-.
  apply Forall_cons_iff in Hach as [(E1 & E2 & E3) _].
  rewrite E1, E2, E3 in Hsd, Hsheet.
  rewrite (formatted_rows_spec_body _ Hs Hw), <- Hbody in Hsheet.
  split; [exact Hsd |]. split; [exact Hsheet | exact Hwd].
Qed.

Lemma map_rows_first_raise (A B : Type) (f : A -> result B) (l : list A) (e0 : exn) :
  (forall a e, f a = Raise e -> e = e0) ->
  (exists a, In a l /\ f a = Raise e0) ->
  map_rows f l = Raise e0.
Proof.
  intros Hf. induction l as [|a l IH]; intros (a0 & Hin & Ha0); [destruct Hin |].
  cbn [map_rows]. destruct (f a) as [b|e] eqn:E; cbn [bind].
  - destruct Hin as [->|Hin]; [congruence |].
    rewrite IH by now exists a0. reflexivity.
  - now rewrite (Hf a e E).
Qed.

Lemma parse_row_raise (row : InvoiceRow) (e : exn) :
  parse_row row = Raise e ->
  e = index_error /\ parse_line_item (line_item_description row) = Raise index_error.
Proof.
  unfold parse_row.
  destruct (parse_line_item (line_item_description row)) as [p|e'] eqn:E;
    cbn [bind]; [discriminate |].
  intros [= ->]. destruct (parse_line_item_raises _ _ E) as [-> _]. now split.
Qed.

(** A description with a blank name ends the building of the report with
    the index error, whatever the other rows are: the descriptions are all
    parsed first. *)
Lemma build_report_blank_name (desc : string) (x : float) (d : Date.t)
    (matching : list InvoiceRow) (row : InvoiceRow) :
  In row matching ->
  parse_line_item (line_item_description row) = Raise index_error ->
  build_report desc x d matching = Raise index_error.
Proof.
  intros Hin Hrow. unfold build_report.
  rewrite (map_rows_first_raise _ _ parse_row matching index_error); [reflexivity | |].
  - intros a e H. now destruct (parse_row_raise _ _ H).
  - exists row. split; [assumption |]. unfold parse_row. now rewrite Hrow.
Qed.

Lemma fms_week_ending_raise (v : option string) (e : exn) :
  fms_week_ending_of v = Raise e -> e = overflow_error.
Proof.
  unfold fms_week_ending_of, add_two_days.
  destruct (to_datetime v) as [d|]; [| discriminate].
  destruct (in_timestamp_range _); cbn [bind]; [discriminate | now intros [= <-]].
Qed.

Lemma append_row_raise (row : list value) (e : exn) :
  append_row row = Raise e ->
  exists s, In (VStr s) row /\ has_illegal s = true /\ e = illegal_character s.
Proof.
  induction row as [|v row IH]; cbn [append_row]; [discriminate |].
  destruct (check_cell v) as [[]|e'] eqn:E; cbn [bind].
  - intros H. destruct (IH H) as (s & Hin & Hs & ->).
    exists s. split; [now right | now split].
  - intros [= ->]. unfold check_cell in E. destruct v as [|s|?|?|?|? ?]; try discriminate.
    destruct (has_illegal s) eqn:Hs; [| discriminate].
    injection E as <-. exists s. split; [now left | now split].
Qed.

Lemma append_rows_raise (rows : list (list value)) (e : exn) :
  append_rows rows = Raise e ->
  exists row s, In row rows /\ In (VStr s) row /\ has_illegal s = true
                /\ e = illegal_character s.
Proof.
  induction rows as [|row rows IH]; cbn [append_rows]; [discriminate |].
  destruct (append_row row) as [[]|e'] eqn:E; cbn [bind].
  - intros H. destruct (IH H) as (row' & s & Hin & Hs).
    exists row', s. split; [now right | assumption].
  - intros [= ->]. destruct (append_row_raise _ _ E) as (s & Hs).
    exists row, s. split; [now left | assumption].
Qed.

(** The exceptions that leave the building of a report: the index error of
    a blank name, the overflow of a shifted week ending, and the refusal of
    a text by the workbook.  None of them is a [ValueError]. *)
Lemma build_report_raise (desc : string) (x : float) (d : Date.t)
    (matching : list InvoiceRow) (e : exn) :
  matching <> [] ->
  build_report desc x d matching = Raise e ->
  is_ValueError e = false
  /\ ((e = index_error
       /\ exists row, In row matching
                      /\ parse_line_item (line_item_description row) = Raise index_error)
      \/ e = overflow_error
      \/ exists s, has_illegal s = true /\ e = illegal_character s).
Proof.
  intros Hne. unfold build_report.
  destruct (map_rows parse_row matching) as [prs|e'] eqn:E1; cbn [bind].
  2:{ intros [= ->]. apply map_rows_raise in E1 as (row & Hin & Hrow).
      destruct (parse_row_raise _ _ Hrow) as [-> Hp].
      split; [reflexivity | left]. split; [reflexivity | now exists row]. }
  destruct (map_rows _ prs) as [rows|e'] eqn:E2; cbn [bind].
  2:{ intros [= ->]. apply map_rows_raise in E2 as ([row p] & _ & Hrow).
      unfold derive_row in Hrow. cbn [fst snd] in Hrow.
      destruct (fms_week_ending_of (vector_week_ending p)) as [fms|e'] eqn:Ef;
        cbn [bind] in Hrow; [discriminate |].
      injection Hrow as ->. rewrite (fms_week_ending_raise _ _ Ef).
      split; [reflexivity | right; now left]. }
  pose proof (map_rows_length _ _ _ _ _ E1) as Hl1.
  pose proof (map_rows_length _ _ _ _ _ E2) as Hl2.
  pose proof (Permutation_length (sort_values_perm _ r_vector_week_ending rows)) as Hp.
  destruct (sort_values r_vector_week_ending rows) as [|r0 rs] eqn:Es;
    cbn [summary_of bind].
  { destruct matching; [congruence |]. cbn in Hl1, Hl2, Hp. lia. }
  unfold write_report.
  destruct (append_rows _) as [[]|e'] eqn:Ea; cbn [bind]; [discriminate |].
  intros [= ->]. destruct (append_rows_raise _ _ Ea) as (row & s & _ & _ & Hs & ->).
  split; [reflexivity | right; right; now exists s].
Qed.

(** Every run ends in one of seven ways, told apart by the inputs. *)
Lemma reconcile_cases (a desc : string) (d : Date.t) (f : upload) :
  match Float64.float_of_str a, read_excel f with
  | None, _ => reconcile a desc d f = Failure NonNumericAmount
  | Some _, Raise e =>
      reconcile a desc d f
      = if is_ValueError e then Failure NonNumericAmount
        else Failure (UnexpectedError (exn_message e))
  | Some x, Ok df =>
      let matching := select_rows d df in
      match matching with
      | [] => reconcile a desc d f = Failure NoMatchingRows
      | _ :: _ =>
          if amounts_differ (total_of matching) x
          then reconcile a desc d f = Failure (AmountMismatch (total_of matching) x)
          else (exists r, build_report desc x d matching = Ok r
                          /\ reconcile a desc d f = Success r)
               \/ (exists e, build_report desc x d matching = Raise e
                             /\ reconcile a desc d f
                                = Failure (UnexpectedError (exn_message e)))
      end
  end.
Proof.
  unfold reconcile, try_body, check_amount, py_float.
  destruct (Float64.float_of_str a) as [x|]; cbn [bind handle]; [| reflexivity].
  destruct (read_excel f) as [df|e]; cbn [bind handle]; [| reflexivity].
  cbv zeta.
  destruct (select_rows d df) as [|row rest] eqn:Em; cbn [bind handle]; [reflexivity |].
  destruct (amounts_differ _ x) eqn:Ed; cbn [bind handle]; [reflexivity |].
  destruct (build_report desc x d (row :: rest)) as [r|e] eqn:Eb; cbn [bind handle].
  - left. now exists r.
  - right. exists e. split; [reflexivity |].
    apply build_report_raise in Eb as [-> _]; [reflexivity | discriminate].
Qed.

(** ** The scenarios of the specification *)

Example scenario_match :
  exists r,
    reconcile "1000.00" "March Payroll" sample_date (Upload (Ok march_rows)) = Success r
    /\ List.length (body r) = 2%nat
    /\ map r_vector_week_ending (body r) = [Some "2024-03-03"; Some "2024-03-10"]
    /\ map r_fms_week_ending (body r) = [Some "2024-03-05"; Some "2024-03-12"].
Proof. eexists. split; [vm_compute; reflexivity | repeat split]. Qed.

Example scenario_mismatch :
  exists entered,
    Float64.float_of_str "999.99" = Some entered
    /\ reconcile "999.99" "March Payroll" sample_date (Upload (Ok march_rows))
       = Failure (AmountMismatch 1000 entered).
Proof. eexists. split; vm_compute; reflexivity. Qed.

Example scenario_no_rows :
  reconcile "1000.00" "March Payroll" (Date.mk 2024 4 1) (Upload (Ok march_rows))
  = Failure NoMatchingRows.
Proof. vm_compute. reflexivity. Qed.

Example scenario_not_numeric :
  reconcile "abc" "March Payroll" sample_date (Upload (Ok march_rows))
  = Failure NonNumericAmount.
Proof. reflexivity. Qed.

(** A sum of [1000.004] agrees with the amount [1000.00]; a sum one cent
    away does not. *)
Example scenario_tolerance :
  (exists r, reconcile "1000.00" "March Payroll" sample_date
               (Upload (Ok [sample_invoice "Al B (S3)[C]:2024-03-04:2024-03-10"
                              (float_lit "1000.004")]))
             = Success r)
  /\ (exists total entered,
        reconcile "1000.00" "March Payroll" sample_date
          (Upload (Ok [sample_invoice "Al B (S3)[C]:2024-03-04:2024-03-10"
                         (float_lit "1000.01")]))
        = Failure (AmountMismatch total entered)).
Proof.
  split; [eexists | do 2 eexists]; vm_compute; reflexivity.
Qed.

Example scenario_grouping :
  formatted_rows sample_rows
  = [ tolist (sample_row "Ann" (Some "2024-01-07"));
      tolist (sample_row "Bob" (Some "2024-01-07"));
      blank_row;
      tolist (sample_row "Cy" (Some "2024-01-14")) ].
Proof. reflexivity. Qed.

Example scenario_fms :
  fms_week_ending_of (Some "2024-01-01") = Ok (Some "2024-01-03")
  /\ fms_week_ending_of (Some "2024-02-28") = Ok (Some "2024-03-01")
  /\ fms_week_ending_of (Some "2023-12-31") = Ok (Some "2024-01-02")
  /\ fms_week_ending_of (Some "2023-02-29") = Ok None
  /\ fms_week_ending_of None = Ok None.
Proof. repeat split. Qed.

(** * Further properties *)

(** ** The regular expression (line 24) *)

(** The tail of the pattern is made of digits and of the characters of its
    literals: a class of characters that has none of them is absent. *)
Lemma tail_shape_chars (p : ascii -> bool) (id d1 d2 t : string) :
  (forall c, Char.is_digit c = true -> p c = false) ->
  has_char p " (S)[C]:-" = false ->
  tail_shape id d1 d2 "" t -> has_char p t = false.
Proof.
  intros Hdig Hlit
    (ds & -> & _ & Hds & (y1 & m1 & e1 & -> & [_ Hy1] & [_ Hm1] & [_ He1])
        & (y2 & m2 & e2 & -> & [_ Hy2] & [_ Hm2] & [_ He2]) & ->).
  cbn [has_char] in Hlit.
  repeat (apply orb_false_iff in Hlit as [? Hlit]).
  repeat first [rewrite has_char_append | progress cbn [has_char append]].
  rewrite !(all_digits_has_char p _ Hdig) by assumption.
  repeat match goal with H : p _ = false |- _ => rewrite H; clear H end.
  reflexivity.
Qed.

Lemma date_text_length (d : string) : date_text d -> String.length d = 10%nat.
Proof.
  intros (y & m & dd & -> & [Hy _] & [Hm _] & [Hd _]).
  rewrite !length_append, Hy, Hm, Hd. reflexivity.
Qed.

(** X1: the groups of a match, put back in the pattern's frame, give the
    description again, up to what follows the match: the description is
    the name, [ (], the id, [)[C]:], the first date, [:], the second date
    and a remainder.  The name is not empty and lies on one line, the id is
    [S] and at least one digit, each date is ten characters long. *)
Theorem re_match_reassembles (s : string) (g : groups) :
  re_match s = Some g ->
  exists ds rest,
    s = (group1 g ++ " (" ++ group2 g ++ ")[C]:" ++ group3 g ++ ":" ++ group4 g
         ++ rest)%string
    /\ group1 g <> "" /\ no_newline (group1 g) = true
    /\ group2 g = ("S" ++ ds)%string /\ ds <> "" /\ all_digits ds = true
    /\ date_text (group3 g) /\ String.length (group3 g) = 10%nat
    /\ date_text (group4 g) /\ String.length (group4 g) = 10%nat.
Proof.
  unfold re_match.
  destruct (lazy_search s) as [[g0 rest]|] eqn:E; [| discriminate].
  cbn [option_map fst]. intros [= ->].
  destruct (lazy_search_sound _ _ _ E)
    as (Hne & Hnl & t & -> & ds & Hid & Hds & Had & Hd1 & Hd2 & ->).
  exists ds, rest. repeat split; try assumption; now apply date_text_length.
Qed.

Lemma re_match_reassembles_witness :
  exists ds rest,
    "Ann Lee (S42)[C]:2024-01-01:2024-01-07 x"
    = ("Ann Lee" ++ " (" ++ "S42" ++ ")[C]:" ++ "2024-01-01" ++ ":" ++ "2024-01-07"
       ++ rest)%string
    /\ "S42" = ("S" ++ ds)%string.
Proof.
  destruct (re_match_reassembles "Ann Lee (S42)[C]:2024-01-01:2024-01-07 x"
              (mkGroups "Ann Lee" "S42" "2024-01-01" "2024-01-07") eq_refl)
    as (ds & rest & Hs & _ & _ & Hid & _).
  exists ds, rest. split; [exact Hs | exact Hid].
Defined.

(** *** Only the first line is read *)

Lemma line_feed_is_newline : Char.is_newline line_feed = true.
Proof. reflexivity. Qed.

Lemma digit_not_newline (c : ascii) : Char.is_digit c = true -> Char.is_newline c = false.
Proof.
  unfold Char.is_digit, Char.is_newline. intros [H1 _]%andb_prop.
  apply N.leb_le in H1. apply N.eqb_neq. lia.
Qed.

(** A tail that does not match a line does not match it when more lines
    follow. *)
Lemma match_tail_line (a b : string) :
  match_tail a = None -> match_tail (a ++ String line_feed b) = None.
Proof.
  intros Hnone.
  destruct (match_tail (a ++ String line_feed b)) as [[[[id d1] d2] r1]|] eqn:E;
    [| reflexivity].
  exfalso. apply match_tail_sound in E.
  destruct (tail_shape_no_sp _ _ _ _ _ E) as (q & Hsx & _ & Hfull).
  pose proof (tail_shape_chars Char.is_newline _ _ _ _ digit_not_newline eq_refl Hfull)
    as Hnl.
  rewrite <- append_assoc in Hsx.
  destruct (Nat.le_gt_cases (String.length (" " ++ q)%string) (String.length a))
    as [Hle|Hgt].
  - symmetry in Hsx. destruct (append_cut _ _ _ _ Hsx Hle) as (z & -> & _).
    destruct Hfull as (ds & Hid & Hne & Hds & Hd1 & Hd2 & Hq').
    assert (tail_shape id d1 d2 z ((" " ++ q) ++ z)%string) as Hz.
    { exists ds. repeat split; try assumption.
      rewrite Hq'. norm_append. reflexivity. }
    apply match_tail_complete in Hz. congruence.
  - destruct (append_cut _ _ _ _ Hsx) as (z & Hz & Hzt); [lia |].
    destruct z as [|c z].
    + rewrite append_nil_r in Hz. rewrite Hz in Hgt. lia.
    + cbn [append] in Hzt. injection Hzt as <- _.
      rewrite Hz, has_char_append in Hnl. cbn [has_char] in Hnl.
      rewrite line_feed_is_newline, orb_true_r in Hnl. discriminate.
Qed.

Lemma lazy_search_line (a b : string) :
  no_newline a = true ->
  lazy_search (a ++ String line_feed b)
  = option_map (fun gr => (fst gr, (snd gr ++ String line_feed b)%string)) (lazy_search a).
Proof.
  induction a as [|c a IH]; intros Hnl.
  - cbn [append lazy_search]. now rewrite line_feed_is_newline.
  - rewrite no_newline_cons in Hnl. apply andb_prop in Hnl as [Hc Ha].
    apply negb_true_iff in Hc. cbn [append lazy_search]. rewrite Hc.
    destruct (match_tail a) as [[[[g2 g3] g4] r]|] eqn:Et.
    + now rewrite (match_tail_extend _ (String line_feed b) _ _ _ _ Et).
    + rewrite (match_tail_line _ b Et), (IH Ha).
      now destruct (lazy_search a) as [[g0 r0]|].
Qed.

(** X2: only the first line of a description is read: what follows the
    first line feed changes neither the match nor the parsed fields,
    whether the first line matches or not. *)
Theorem parse_line_item_first_line (a b : string) :
  no_newline a = true ->
  re_match (a ++ String line_feed b) = re_match a
  /\ parse_line_item (VStr (a ++ String line_feed b)) = parse_line_item (VStr a).
Proof.
  intros Hnl.
  assert (E : re_match (a ++ String line_feed b) = re_match a).
  { unfold re_match. rewrite (lazy_search_line a b Hnl).
    now destruct (lazy_search a) as [[g0 r0]|]. }
  split; [exact E |]. unfold parse_line_item. cbn [str]. now rewrite E.
Qed.

Lemma parse_line_item_first_line_witness :
  no_newline "see below" = true
  /\ parse_line_item
       (VStr ("see below" ++ String line_feed "Ann Lee (S42)[C]:2024-01-01:2024-01-07"))
     = Ok all_null.
Proof.
  split; [reflexivity |].
  rewrite (proj2 (parse_line_item_first_line "see below"
                    "Ann Lee (S42)[C]:2024-01-01:2024-01-07" eq_refl)).
  reflexivity.
Defined.

(** ** The description parser (lines 23-33) *)

Lemma split_from_nil (tok s : string) :
  Str.split_from tok s = [] -> tok = "" /\ all_space s = true.
Proof.
  revert tok. induction s as [|c s IH]; intros tok; cbn [Str.split_from all_space].
  - destruct tok; [now split | discriminate].
  - destruct (Char.is_space c).
    + destruct tok; [| discriminate]. intros H. now destruct (IH _ H).
    + intros H. destruct (IH _ H) as [Ht _]. now destruct tok.
Qed.

(** A name has no token exactly when it is white space. *)
Lemma tokens_nil_iff (name : string) : tokens name = [] <-> all_space name = true.
Proof.
  unfold tokens. rewrite split_strip. unfold Str.split. split.
  - intros H. now destruct (split_from_nil _ _ H).
  - intros H. now rewrite split_from_all_space.
Qed.

Lemma split_from_tokens (tok s : string) :
  has_char Char.is_space tok = false -> Forall is_token (Str.split_from tok s).
Proof.
  revert tok. induction s as [|c s IH]; intros tok Htok; cbn [Str.split_from].
  - destruct tok as [|c0 tok]; constructor; [| constructor].
    split; [discriminate | assumption].
  - destruct (Char.is_space c) eqn:Hc.
    + destruct tok as [|c0 tok]; [now apply IH |].
      constructor; [split; [discriminate | assumption] | now apply IH].
    + apply IH. rewrite has_char_append, Htok. cbn [has_char]. now rewrite Hc.
Qed.

(** Every token of a name is a token: not empty and free of white space. *)
Lemma tokens_are_tokens (name : string) : Forall is_token (tokens name).
Proof. unfold tokens, Str.split. now apply split_from_tokens. Qed.

(** Only a text can match. *)
Lemma re_match_text (v : value) (g : groups) :
  re_match (str v) = Some g -> exists s, v = VStr s.
Proof.
  intros H. destruct v as [|s|x|n|b|d sec]; [| now exists s | | | |];
    exfalso; unfold re_match in H;
    rewrite lazy_search_needs_paren in H; try discriminate H;
    apply plain_str; discriminate.
Qed.

(** X3: the parser raises exactly on a text that matches the pattern with
    a name made of white space only, and what it raises is the index error
    of [full_name[0]]; on every other cell it returns. *)
Theorem parse_line_item_raises_iff (v : value) (e : exn) :
  parse_line_item v = Raise e
  <-> e = index_error
      /\ exists s g, v = VStr s /\ re_match s = Some g /\ all_space (group1 g) = true.
Proof.
  split.
  - intros H. unfold parse_line_item in H.
    destruct (re_match (str v)) as [g|] eqn:E; [| discriminate].
    destruct (re_match_text _ _ E) as [s ->]. cbn [str] in E.
    destruct (Str.split (Str.strip (group1 g))) as [|t ts] eqn:Et;
      cbn [item0 bind] in H; [| discriminate].
    injection H as <-. split; [reflexivity |].
    exists s, g. repeat split; [assumption |]. now apply tokens_nil_iff.
  - intros (-> & s & g & -> & E & Hsp). unfold parse_line_item. cbn [str].
    rewrite E. apply tokens_nil_iff in Hsp. unfold tokens in Hsp. now rewrite Hsp.
Qed.

(** X4: whatever the parser returns is all null, or has the four fields
    set in their format: the first name is a token (not empty, no white
    space), the last name is tokens joined by single blanks, the candidate
    id is [S] and at least one digit, the week ending is a date-shaped text
    of ten characters. *)
Theorem parse_line_item_fields (v : value) (p : parsed) :
  parse_line_item v = Ok p ->
  p = all_null
  \/ exists first others ds week,
       p = mkParsed (Some first) (Some (Str.join " " others))
                    (Some ("S" ++ ds)%string) (Some week)
       /\ Forall is_token (first :: others)
       /\ ds <> "" /\ all_digits ds = true
       /\ date_text week /\ String.length week = 10%nat.
Proof.
  intros H. unfold parse_line_item in H.
  destruct (re_match (str v)) as [g|] eqn:E; [| injection H as <-; now left].
  destruct (re_match_text _ _ E) as [s ->]. cbn [str] in E.
  pose proof (tokens_are_tokens (group1 g)) as Htok.
  destruct (tokens (group1 g)) as [|first others] eqn:Et.
  - unfold tokens in Et. rewrite Et in H. discriminate H.
  - unfold parse_line_item in H.
    pose proof (parse_line_item_match _ _ _ _ E Et) as Hp.
    unfold parse_line_item in Hp. cbn [str] in Hp. rewrite E in Hp.
    rewrite Hp in H. injection H as <-.
    apply re_match_iff in E
      as (rest & (_ & _ & t & _ & ds & Hid & Hds & Had & _ & Hd2 & _) & _).
    right. exists first, others, ds, (group4 g). rewrite Hid.
    repeat split; try assumption. now apply date_text_length.
Qed.

Lemma parse_line_item_fields_witness :
  parse_line_item (VStr "Ann van  Lee (S42)[C]:2024-01-01:2024-01-07")
  = Ok (mkParsed (Some "Ann") (Some "van Lee") (Some "S42") (Some "2024-01-07"))
  /\ is_token "Ann".
Proof.
  assert (E : parse_line_item (VStr "Ann van  Lee (S42)[C]:2024-01-01:2024-01-07")
               = Ok (mkParsed (Some "Ann") (Some "van Lee") (Some "S42")
                              (Some "2024-01-07")))
    by reflexivity.
  split; [exact E |].
  destruct (parse_line_item_fields _ _ E)
    as [H|(first & others & ds & week & H & Htok & _)]; [discriminate H |].
  injection H as <- _ _ _. now apply Forall_cons_iff in Htok as [Htok _].
Defined.

(** A cell that is not text is never parsed into fields. *)
Lemma parse_line_item_non_text_witness :
  (forall s, VFloat 12.5 <> VStr s) /\ parse_line_item (VFloat 12.5) = Ok all_null.
Proof.
  assert (H : forall s, VFloat 12.5 <> VStr s) by discriminate.
  split; [exact H | exact (parse_line_item_non_text (VFloat 12.5) H)].
Defined.

Lemma parse_line_item_of_tokens_witness :
  Forall is_token ["Mary"; "Jo"; "Kim"]
  /\ parse_line_item (VStr "Mary Jo Kim (S007)[C]:2024-01-01:2024-01-07 8h")
     = Ok (mkParsed (Some "Mary") (Some "Jo Kim") (Some "S007") (Some "2024-01-07")).
Proof.
  assert (Ht : Forall is_token ["Mary"; "Jo"; "Kim"])
    by (repeat constructor; discriminate).
  assert (Hp : Forall plain ["Mary"; "Jo"; "Kim"]) by (repeat constructor).
  split; [exact Ht |].
  apply (parse_line_item_of_tokens "Mary" ["Jo"; "Kim"] "007" "2024-01-01" "2024-01-07" " 8h"
           Ht Hp); [discriminate | reflexivity | |].
  - exists "2024", "01", "01". now repeat split.
  - exists "2024", "01", "07". now repeat split.
Defined.

(** ** The ways a run ends (lines 36-55 and 132-135) *)

Lemma map_rows_each (A B : Type) (f : A -> result B) (l : list A) (rs : list B) :
  map_rows f l = Ok rs -> forall a, In a l -> exists b, f a = Ok b.
Proof.
  revert rs. induction l as [|a0 l IH]; cbn [map_rows]; intros rs H a Hin; [easy |].
  destruct (f a0) as [b|e] eqn:E; cbn [bind] in H; [| discriminate].
  destruct (map_rows f l) as [bs|e]; cbn [bind] in H; [| discriminate].
  destruct Hin as [<-|Hin]; [now exists b | now apply (IH bs)].
Qed.

Lemma reconcile_row_parsed (desc : string) (x : float) (d : Date.t)
    (row : InvoiceRow) (r : ReconciledRow) :
  reconcile_row desc x d row = Ok r ->
  exists p, parse_line_item (line_item_description row) = Ok p.
Proof.
  intros H. destruct (reconcile_row_inv _ _ _ _ _ H) as (p & _ & Hp & _).
  now exists p.
Qed.

(** The ways through the body of the [try], each with the inputs that lead
    to it. *)
Lemma reconcile_outcomes (a desc : string) (d : Date.t) (f : upload) :
  (Float64.float_of_str a = None
   /\ reconcile a desc d f = Failure NonNumericAmount)
  \/ (exists x e,
        Float64.float_of_str a = Some x /\ read_excel f = Raise e
        /\ is_ValueError e = true
        /\ reconcile a desc d f = Failure NonNumericAmount)
  \/ (exists x e,
        Float64.float_of_str a = Some x /\ read_excel f = Raise e
        /\ is_ValueError e = false
        /\ reconcile a desc d f = Failure (UnexpectedError (exn_message e)))
  \/ (exists x df,
        Float64.float_of_str a = Some x /\ read_excel f = Ok df
        /\ select_rows d df = []
        /\ reconcile a desc d f = Failure NoMatchingRows)
  \/ (exists x df,
        Float64.float_of_str a = Some x /\ read_excel f = Ok df
        /\ select_rows d df <> []
        /\ amounts_differ (total_of (select_rows d df)) x = true
        /\ reconcile a desc d f
           = Failure (AmountMismatch (total_of (select_rows d df)) x))
  \/ (exists x df r,
        Float64.float_of_str a = Some x /\ read_excel f = Ok df
        /\ select_rows d df <> []
        /\ amounts_differ (total_of (select_rows d df)) x = false
        /\ build_report desc x d (select_rows d df) = Ok r
        /\ reconcile a desc d f = Success r)
  \/ (exists x df e,
        Float64.float_of_str a = Some x /\ read_excel f = Ok df
        /\ select_rows d df <> []
        /\ amounts_differ (total_of (select_rows d df)) x = false
        /\ build_report desc x d (select_rows d df) = Raise e
        /\ reconcile a desc d f = Failure (UnexpectedError (exn_message e))).
Proof.
  pose proof (reconcile_cases a desc d f) as H. cbv zeta in H.
  destruct (Float64.float_of_str a) as [x|] eqn:Ea; [| now left].
  right. destruct (read_excel f) as [df|e] eqn:Ef.
  2:{ destruct (is_ValueError e) eqn:Ev; [left | right; left]; exists x, e;
        now repeat split. }
  do 2 right.
  destruct (select_rows d df) as [|row rest] eqn:Em;
    [left; exists x, df; now repeat split |].
  right. rewrite <- Em in H.
  assert (Hne : select_rows d df <> []) by (rewrite Em; discriminate).
  destruct (amounts_differ (total_of (select_rows d df)) x) eqn:Ed;
    [left; exists x, df; now repeat split |].
  right. destruct H as [(r & Hb & Hr)|(e & Hb & Hr)].
  - left. exists x, df, r. now repeat split.
  - right. exists x, df, e. now repeat split.
Qed.

Ltac outcome H :=
  let x := fresh "x" in let df := fresh "df" in
  let e := fresh "e" in let r := fresh "r" in
  let Ha := fresh "Ha" in let Hf := fresh "Hf" in let Hrun := fresh "Hrun" in
  destruct H as [[Ha Hrun]
    |[(x & e & Ha & Hf & ?Hv & Hrun)
    |[(x & e & Ha & Hf & ?Hv & Hrun)
    |[(x & df & Ha & Hf & ?Hsel & Hrun)
    |[(x & df & Ha & Hf & ?Hsel & ?Hdiff & Hrun)
    |[(x & df & r & Ha & Hf & ?Hsel & ?Hdiff & ?Hbuild & Hrun)
    |(x & df & e & Ha & Hf & ?Hsel & ?Hdiff & ?Hbuild & Hrun)]]]]]].

(** A run that is entered never ends as a missing input. *)
Lemma reconcile_not_missing_input (a desc : string) (d : Date.t) (f : upload) :
  reconcile a desc d f <> Failure MissingInput.
Proof.
  pose proof (reconcile_outcomes a desc d f) as H. outcome H; congruence.
Qed.

(** X7: the form is refused as incomplete exactly when the amount is
    empty, or the description is empty (the description is required, though
    the form calls it optional), or no file is uploaded; the date cannot
    be missing.  A complete form is handed to the run, which never reports
    a missing input itself. *)
Theorem on_generate_missing_input_iff
    (a desc : string) (d : Date.t) (f : option upload) :
  (on_generate a desc d f = Failure MissingInput
   <-> a = "" \/ desc = "" \/ f = None)
  /\ (forall u, a <> "" -> desc <> "" ->
        on_generate a desc d (Some u) = reconcile a desc d u).
Proof.
  split.
  - unfold on_generate. destruct f as [u|]; [| split; auto].
    destruct (String.eqb_spec a "") as [->|Ha]; [split; auto |].
    destruct (String.eqb_spec desc "") as [->|Hd]; [split; auto |].
    cbn [orb]. split.
    + intros H. now destruct (reconcile_not_missing_input _ _ _ _ H).
    + intros [H|[H|H]]; congruence.
  - intros u Ha Hd. now apply on_generate_filled.
Qed.

Lemma date_eqb_eq (a b : Date.t) : Date.eqb a b = true <-> a = b.
Proof.
  destruct a as [y1 m1 d1], b as [y2 m2 d2]. unfold Date.eqb.
  cbn [Date.year Date.month Date.day]. rewrite !andb_true_iff, !Z.eqb_eq.
  split; [intros [[-> ->] ->]; reflexivity | intros [= -> -> ->]; auto].
Qed.

Lemma matches_date_iff (d : Date.t) (row : InvoiceRow) :
  matches_date d row = true <-> payment_date row = Some d.
Proof.
  unfold matches_date. destruct (payment_date row) as [d'|]; [| easy].
  rewrite date_eqb_eq. split; congruence.
Qed.

Lemma select_rows_nil_iff (d : Date.t) (df : list InvoiceRow) :
  select_rows d df = [] <-> forall row, In row df -> payment_date row <> Some d.
Proof.
  unfold select_rows. induction df as [|r df IH]; cbn [filter]; [easy |].
  destruct (matches_date d r) eqn:E.
  - split; [discriminate |]. intros H. exfalso.
    apply (H r (in_eq _ _)). now apply matches_date_iff.
  - rewrite IH. split.
    + intros H row [<-|Hin]; [| now apply H].
      intros Hp. apply matches_date_iff in Hp. congruence.
    + intros H row Hin. apply H. now right.
Qed.

(** X8: a run ends with no matching rows exactly when the amount is
    numeric, the file is read, and no row of the sheet bears the payment
    date (rows whose payment date is not a date included); neither the
    amounts nor the descriptions of the sheet are looked at. *)
Theorem reconcile_no_matching_rows_iff (a desc : string) (d : Date.t) (f : upload) :
  reconcile a desc d f = Failure NoMatchingRows
  <-> exists x df,
        Float64.float_of_str a = Some x /\ read_excel f = Ok df
        /\ forall row, In row df -> payment_date row <> Some d.
Proof.
  pose proof (reconcile_outcomes a desc d f) as H. split.
  - intros Hr. outcome H; try congruence.
    exists x, df. repeat split; try assumption. now apply select_rows_nil_iff.
  - intros (x0 & df0 & Ha0 & Hf0 & Hno). apply select_rows_nil_iff in Hno.
    outcome H; congruence.
Qed.

(** X9: a run is reported as a non-numeric amount exactly when [float]
    rejects the amount, or the amount is read and the reader of the file
    raises a [ValueError]; nothing else is reported so. *)
Theorem reconcile_non_numeric_iff (a desc : string) (d : Date.t) (f : upload) :
  reconcile a desc d f = Failure NonNumericAmount
  <-> Float64.float_of_str a = None
      \/ exists x e, Float64.float_of_str a = Some x
                     /\ read_excel f = Raise e /\ exn_kind e = ValueError.
Proof.
  assert (Hk : forall e, is_ValueError e = true <-> exn_kind e = ValueError).
  { intros e. unfold is_ValueError. destruct (exn_kind e); split; congruence. }
  pose proof (reconcile_outcomes a desc d f) as H. split.
  - intros Hr. outcome H; try congruence; [now left |].
    right. exists x, e. repeat split; try assumption. now apply Hk.
  - intros [Ha0|(x0 & e0 & Ha0 & Hf0 & Hk0)]; [outcome H; congruence |].
    apply Hk in Hk0. outcome H; congruence.
Qed.

Lemma format_from_lengths (prev : option string) (rows : list ReconciledRow) :
  Forall (fun row => List.length row = List.length body_columns) (format_from prev rows).
Proof.
  revert prev. induction rows as [|r rest IH]; intros prev; cbn [format_from];
    [constructor |].
  apply Forall_app. split.
  - destruct (week_truthy prev && week_neqb (r_vector_week_ending r) prev);
      repeat constructor.
  - constructor; [reflexivity | apply IH].
Qed.

Lemma format_from_data (prev : option string) (rows : list ReconciledRow) :
  filter (fun row => negb (is_blank row)) (format_from prev rows) = map tolist rows.
Proof.
  revert prev. induction rows as [|r rest IH]; intros prev; cbn [format_from map];
    [reflexivity |].
  rewrite filter_app. cbn [filter]. rewrite tolist_not_blank. cbn [negb].
  rewrite IH.
  now destruct (week_truthy prev && week_neqb (r_vector_week_ending r) prev).
Qed.

Lemma append_row_ok (row : list value) (s : string) :
  append_row row = Ok tt -> In (VStr s) row -> has_illegal s = false.
Proof.
  induction row as [|v row IH]; cbn [append_row]; intros H Hin; [destruct Hin |].
  destruct (check_cell v) as [[]|e] eqn:E; cbn [bind] in H; [| discriminate].
  destruct Hin as [->|Hin]; [| now apply IH].
  cbn [check_cell] in E. now destruct (has_illegal s).
Qed.

(** In a sheet that is written, no text has a character that the workbook
    refuses. *)
Lemma append_rows_ok (rows : list (list value)) (row : list value) (s : string) :
  append_rows rows = Ok tt -> In row rows -> In (VStr s) row -> has_illegal s = false.
Proof.
  induction rows as [|row0 rows IH]; cbn [append_rows]; intros H Hin Hs; [destruct Hin |].
  destruct (append_row row0) as [[]|e] eqn:E; cbn [bind] in H; [| discriminate].
  destruct Hin as [->|Hin]; [now apply (append_row_ok row) | now apply IH].
Qed.

Lemma build_report_parsed (desc : string) (x : float) (d : Date.t)
    (matching : list InvoiceRow) (r : Report) :
  build_report desc x d matching = Ok r ->
  forall row, In row matching ->
    exists p, parse_line_item (line_item_description row) = Ok p.
Proof.
  intros H row Hin.
  destruct (build_report_ok _ _ _ _ _ H) as (rows & summary & Hr & _).
  destruct (map_rows_each _ _ _ _ _ Hr row Hin) as [b Hb].
  exact (reconcile_row_parsed _ _ _ _ _ Hb).
Qed.

(** X10: what leads to an unexpected error, and what such an error tells.
    When the reader of the file raises an exception that is not a
    [ValueError], the run ends as an unexpected error with the message of
    that exception.  When the amounts agree and a row with the payment date
    has a description whose name is blank, it ends as an unexpected error
    with the message of the index error, whatever the other rows are.  When
    the amounts agree and the description that was entered has a character
    that a workbook refuses, it ends as an unexpected error.  Conversely,
    after an unexpected error the amount was numeric, and either the reader
    had failed or the amount check had passed. *)
Theorem reconcile_unexpected_cases (a desc : string) (d : Date.t) (f : upload) :
  (forall x e,
     Float64.float_of_str a = Some x -> read_excel f = Raise e ->
     exn_kind e <> ValueError ->
     reconcile a desc d f = Failure (UnexpectedError (exn_message e)))
  /\ (forall x df row,
        Float64.float_of_str a = Some x -> read_excel f = Ok df ->
        amounts_differ (total_of (select_rows d df)) x = false ->
        In row (select_rows d df) ->
        parse_line_item (line_item_description row) = Raise index_error ->
        reconcile a desc d f = Failure (UnexpectedError "list index out of range"))
  /\ (forall x df,
        Float64.float_of_str a = Some x -> read_excel f = Ok df ->
        select_rows d df <> [] ->
        amounts_differ (total_of (select_rows d df)) x = false ->
        has_illegal desc = true ->
        exists message, reconcile a desc d f = Failure (UnexpectedError message))
  /\ (forall message,
        reconcile a desc d f = Failure (UnexpectedError message) ->
        exists x,
          Float64.float_of_str a = Some x
          /\ ((exists e, read_excel f = Raise e /\ exn_kind e <> ValueError
                         /\ message = exn_message e)
              \/ (exists df, read_excel f = Ok df /\ select_rows d df <> []
                    /\ amounts_differ (total_of (select_rows d df)) x = false))).
Proof.
  assert (Hk : forall e, is_ValueError e = false <-> exn_kind e <> ValueError).
  { intros e. unfold is_ValueError. destruct (exn_kind e); split; congruence. }
  pose proof (reconcile_outcomes a desc d f) as H.
  split; [| split; [| split]].
  - intros x0 e0 Ha0 Hf0 Hk0. apply Hk in Hk0. outcome H; congruence.
  - intros x0 df0 row0 Ha0 Hf0 Hd0 Hin0 Hrow0.
    pose proof (build_report_blank_name desc x0 d _ _ Hin0 Hrow0) as Hb0.
    outcome H; try congruence.
    + rewrite Hf0 in Hf. injection Hf as <-. rewrite Hsel in Hin0. destruct Hin0.
    + rewrite Ha0 in Ha. injection Ha as <-. rewrite Hf0 in Hf. injection Hf as <-.
      rewrite Hb0 in Hbuild. injection Hbuild as <-. exact Hrun.
  - intros x0 df0 Ha0 Hf0 Hne0 Hd0 Hill.
    outcome H; try congruence; [| eexists; eassumption].
    exfalso.
    destruct (success_sheet_layout _ _ _ _ _ Hrun) as (x1 & _ & _ & Hs & _).
    apply reconcile_success in Hrun
      as (x2 & df2 & rows & summary & _ & _ & _ & _ & _ & _ & Hw & _).
    destruct (write_report_ok _ _ _ Hw) as (_ & _ & Happ).
    assert (E : has_illegal desc = false).
    { apply (append_rows_ok _ [VStr "ACH Description"; VStr desc] desc Happ).
      - rewrite Hs. right. now left.
      - right. now left. }
    congruence.
  - intros message Hr. outcome H; try congruence.
    + exists x. split; [assumption | left]. exists e.
      repeat split; [assumption | now apply Hk | congruence].
    + exists x. split; [assumption | right]. now exists df.
Qed.

(** X11: what a report needs.  When a run produces a report, the amount
    is numeric, the file is read, at least one row has the payment date, the
    sum of those rows and the amount pass the amount check, the parser
    returns on the description of each of those rows, the description that
    was entered has no character that a workbook refuses, and neither has
    any text in the rows of the report. *)
Theorem reconcile_success_needs (a desc : string) (d : Date.t) (f : upload) (r : Report) :
  reconcile a desc d f = Success r ->
  exists x df,
    Float64.float_of_str a = Some x /\ read_excel f = Ok df
    /\ select_rows d df <> []
    /\ amounts_differ (total_of (select_rows d df)) x = false
    /\ (forall row, In row (select_rows d df) ->
          exists p, parse_line_item (line_item_description row) = Ok p)
    /\ has_illegal desc = false
    /\ (forall row s, In row (body r) -> In (VStr s) (tolist row) ->
          has_illegal s = false).
Proof.
  intros Hrun.
  destruct (success_sheet_layout _ _ _ _ _ Hrun) as (x1 & _ & _ & Hs & _).
  pose proof (reconcile_outcomes a desc d f) as H. outcome H; try congruence.
  rewrite Hrun in Hrun0. injection Hrun0 as <-.
  apply reconcile_success in Hrun
    as (x2 & df2 & rows & summary & _ & _ & _ & _ & _ & Hbody & Hw & _).
  destruct (write_report_ok _ _ _ Hw) as (_ & Hsheet & Happ).
  exists x, df. repeat split; try assumption.
  - exact (build_report_parsed _ _ _ _ _ Hbuild).
  - apply (append_rows_ok _ [VStr "ACH Description"; VStr desc] desc Happ).
    + rewrite Hs. right. now left.
    + right. now left.
  - intros row s Hin Hcell.
    apply (append_rows_ok _ (tolist row) s Happ); [| assumption].
    rewrite Hsheet. apply in_or_app. right. apply in_or_app. right.
    apply in_or_app. right. apply in_or_app. right.
    rewrite <- Hbody.
    assert (Hrow : In (tolist row)
                     (filter (fun c => negb (is_blank c)) (formatted_rows (body r)))).
    { unfold formatted_rows. rewrite format_from_data. now apply in_map. }
    now apply filter_In in Hrow as [Hrow _].
Qed.

Lemma reconcile_success_needs_witness :
  exists r,
    reconcile "1000.00" "March Payroll" sample_date (Upload (Ok march_rows)) = Success r
    /\ has_illegal "March Payroll" = false.
Proof.
  destruct (reconcile "1000.00" "March Payroll" sample_date (Upload (Ok march_rows)))
    as [e|r] eqn:E.
  - vm_compute in E. discriminate E.
  - exists r. split; [reflexivity |].
    destruct (reconcile_success_needs _ _ _ _ r E) as (x & df & _ & _ & _ & _ & _ & H & _).
    exact H.
Defined.

(** *** An amount that is not a number *)

Lemma prim2sf_nan (x : float) : PrimFloat.is_nan x = true -> Prim2SF x = S754_nan.
Proof. intros H. unfold Prim2SF. now rewrite H. Qed.

Lemma eqb_nan_r (x y : float) : PrimFloat.is_nan y = true -> PrimFloat.eqb x y = false.
Proof.
  intros H. rewrite eqb_spec, (prim2sf_nan y H).
  unfold SFeqb, SFcompare. now destruct (Prim2SF x) as [s|s| |s m e].
Qed.

(** X12: the amount [nan] is read by [float], so the run is entered, but
    it agrees with no sum: whenever a row bears the payment date the run
    ends with an amount mismatch, whatever the amounts of the sheet. *)
Theorem nan_amount_never_reconciles
    (a desc : string) (d : Date.t) (df : list InvoiceRow) (x : float) :
  Float64.float_of_str a = Some x ->
  PrimFloat.is_nan x = true ->
  select_rows d df <> [] ->
  reconcile a desc d (Upload (Ok df))
  = Failure (AmountMismatch (total_of (select_rows d df)) x).
Proof.
  intros Ha Hnan Hne.
  assert (Hd : amounts_differ (total_of (select_rows d df)) x = true).
  { unfold amounts_differ, Float64.py_round2. rewrite (prim2sf_nan x Hnan).
    now rewrite (eqb_nan_r _ x Hnan). }
  pose proof (reconcile_outcomes a desc d (Upload (Ok df))) as H.
  cbn [read_excel] in H. outcome H; try congruence;
    injection Hf as <-; congruence.
Qed.

Lemma nan_amount_never_reconciles_witness :
  Float64.float_of_str "nan" = Some nan
  /\ select_rows sample_date sample_invoices <> []
  /\ exists total,
       reconcile "nan" "March Payroll" sample_date (Upload (Ok sample_invoices))
       = Failure (AmountMismatch total nan).
Proof.
  assert (Ha : Float64.float_of_str "nan" = Some nan) by reflexivity.
  assert (Hm : select_rows sample_date sample_invoices <> [])
    by (vm_compute; discriminate).
  split; [exact Ha | split; [exact Hm |]].
  eexists.
  exact (nan_amount_never_reconciles "nan" "March Payroll" sample_date sample_invoices
           nan Ha eq_refl Hm).
Defined.

(** ** The rows of the report (lines 57-87) *)

Lemma map_rows_map (A B C : Type) (f : A -> result B) (g : B -> C) (h : A -> C)
    (l : list A) (rs : list B) :
  (forall a b, f a = Ok b -> g b = h a) ->
  map_rows f l = Ok rs -> map g rs = map h l.
Proof.
  intros Hf. revert rs. induction l as [|a l IH]; cbn [map_rows]; intros rs H.
  - now injection H as <-.
  - destruct (f a) as [b|e] eqn:E; cbn [bind] in H; [| discriminate].
    destruct (map_rows f l) as [bs|e]; cbn [bind] in H; [| discriminate].
    injection H as <-. cbn [map]. now rewrite (Hf a b E), (IH bs eq_refl).
Qed.

Lemma select_rows_date (d : Date.t) (df : list InvoiceRow) :
  Forall (fun row => payment_date row = Some d) (select_rows d df).
Proof.
  unfold select_rows. apply Forall_forall. intros row Hin.
  apply filter_In in Hin as [_ Hm]. now apply matches_date_iff.
Qed.

(** X13: the report has one row for each row of the sheet that bears the
    payment date, and no other: the cells from [Hours] to
    [ESG Invoice Number] of its rows are, up to the order of the rows, the
    cells [Quantity], [Unit Cost], [Extended Amount], [Invoice Amount],
    [Due Date], [CAI Invoice Number] and [Supplier's Invoice Number] of
    those rows, unchanged. *)
Theorem success_rows_carried (a desc : string) (d : Date.t) (f : upload) (r : Report) :
  reconcile a desc d f = Success r ->
  exists df,
    read_excel f = Ok df
    /\ Forall (fun row => payment_date row = Some d) (select_rows d df)
    /\ List.length (body r) = List.length (select_rows d df)
    /\ body r <> []
    /\ Permutation (map (fun row => skipn 5 (tolist row)) (body r))
                   (map carried (select_rows d df)).
Proof.
  intros H. apply reconcile_success in H
    as (x & df & rows & summary & _ & Hf & Hne & _ & Hr & -> & _ & _).
  pose proof (sort_values_perm _ r_vector_week_ending rows) as Hp.
  pose proof (map_rows_length _ _ _ _ _ Hr) as Hl.
  exists df.
  split; [exact Hf |]. split; [apply select_rows_date |].
  split; [now rewrite (Permutation_length Hp) |]. split.
  - intros E. rewrite E in Hp. apply Permutation_nil in Hp. subst rows.
    destruct (select_rows d df); [congruence | discriminate Hl].
  - rewrite (Permutation_map _ Hp).
    erewrite (map_rows_map _ _ _ _ _ carried _ _ _ Hr). reflexivity.
  Unshelve.
  intros row b Hb. destruct (reconcile_row_inv _ _ _ _ _ Hb) as (p & fms & _ & _ & ->).
  reflexivity.
Qed.

Lemma success_rows_carried_witness :
  exists r,
    reconcile "1000.00" "March Payroll" sample_date (Upload (Ok sample_invoices)) = Success r
    /\ List.length (body r) = 3%nat.
Proof.
  destruct (reconcile "1000.00" "March Payroll" sample_date (Upload (Ok sample_invoices)))
    as [e|r] eqn:E.
  - vm_compute in E. discriminate E.
  - exists r. split; [reflexivity |].
    destruct (success_rows_carried _ _ _ _ r E) as (df & Hf & _ & Hl & _).
    cbn [read_excel] in Hf. injection Hf as <-. exact Hl.
Defined.

(** The columns that a row of the report derives from its description. *)
Lemma reconcile_row_derived (desc : string) (x : float) (d : Date.t)
    (row : InvoiceRow) (r : ReconciledRow) :
  reconcile_row desc x d row = Ok r ->
  match r_vector_week_ending r with
  | None =>
      r_first_name r = None /\ r_last_name r = None /\ r_candidate_id r = None
      /\ r_fms_week_ending r = None
  | Some week =>
      date_text week
      /\ (exists first last id,
            r_first_name r = Some first /\ r_last_name r = Some last
            /\ r_candidate_id r = Some id)
      /\ fms_week_ending_of (Some week) = Ok (r_fms_week_ending r)
  end.
Proof.
  intros H. destruct (reconcile_row_inv _ _ _ _ _ H) as (p & fms & E & Ef & ->).
  cbn [r_vector_week_ending r_first_name r_last_name r_candidate_id r_fms_week_ending].
  destruct (parse_line_item_all_or_nothing _ _ E) as [->|(f & l & c & w & ->)].
  - cbn in Ef. injection Ef as <-. now repeat split.
  - cbn [vector_week_ending first_name last_name candidate_id] in *.
    destruct (parse_line_item_week _ _ E) as [Hw|(w' & Hw & Hd)]; cbn in Hw;
      [discriminate |].
    injection Hw as <-. repeat split; [assumption | now exists f, l, c | assumption].
Qed.

(** X14: in every row of a report the four columns taken from the
    description are all empty or all set, and the FMS week ending is empty
    with them.  A week ending that is set is a date-shaped text; when it is
    the writing of a day of the years 1678 to 2261, the FMS week ending is
    the writing of the second day after it, and when it is a date-shaped
    text of those years that names no day of the calendar, such as
    [2024-02-30], the FMS week ending is empty while the row stays in the
    report. *)
Theorem success_rows_derived (a desc : string) (d : Date.t) (f : upload) (r : Report) :
  reconcile a desc d f = Success r ->
  Forall (fun row =>
            match r_vector_week_ending row with
            | None =>
                r_first_name row = None /\ r_last_name row = None
                /\ r_candidate_id row = None /\ r_fms_week_ending row = None
            | Some week =>
                date_text week
                /\ (exists first last id,
                      r_first_name row = Some first /\ r_last_name row = Some last
                      /\ r_candidate_id row = Some id)
                /\ (forall day,
                      Date.valid day = true -> 1678 <= Date.year day <= 2261 ->
                      week = Date.isoformat day ->
                      r_fms_week_ending row
                      = Some (Date.isoformat (Date.add_days 2 day)))
                /\ (forall y m dd,
                      digits_of_length 4 y -> digits_of_length 2 m ->
                      digits_of_length 2 dd ->
                      week = (y ++ "-" ++ m ++ "-" ++ dd)%string ->
                      1678 <= Dec.value y <= 2261 ->
                      Date.valid (Date.mk (Dec.value y) (Dec.value m) (Dec.value dd))
                      = false ->
                      r_fms_week_ending row = None)
            end)
         (body r).
Proof.
  intros H. apply reconcile_success in H
    as (x & df & rows & summary & _ & _ & _ & _ & Hr & -> & _ & _).
  eapply Permutation_Forall; [symmetry; apply sort_values_perm |].
  eapply map_rows_Forall; [| exact Hr].
  intros row b Hb. pose proof (reconcile_row_derived _ _ _ _ _ Hb) as Hd.
  destruct (r_vector_week_ending b) as [week|]; [| exact Hd].
  destruct Hd as (Hshape & Hset & Hfms).
  split; [exact Hshape |]. split; [exact Hset |]. split.
  - intros day Hv Hy ->. rewrite (fms_week_ending_shift day Hv Hy) in Hfms.
    now injection Hfms as <-.
  - intros y m dd Hy Hm Hdd -> _ Hv.
    rewrite (fms_week_ending_no_day y m dd Hy Hm Hdd Hv) in Hfms.
    now injection Hfms as <-.
Qed.

Lemma success_rows_derived_witness :
  exists r,
    reconcile "500" "March Payroll" sample_date
      (Upload (Ok [sample_invoice "Al B (S3)[C]:2024-02-24:2024-02-30" 500]))
    = Success r
    /\ map r_vector_week_ending (body r) = [Some "2024-02-30"]
    /\ Forall (fun row => r_fms_week_ending row = None) (body r).
Proof.
  destruct (reconcile "500" "March Payroll" sample_date
              (Upload (Ok [sample_invoice "Al B (S3)[C]:2024-02-24:2024-02-30" 500])))
    as [e|r] eqn:E.
  - vm_compute in E. discriminate E.
  - exists r. pose proof (success_rows_derived _ _ _ _ r E) as Hrows.
    assert (Hw : map r_vector_week_ending (body r) = [Some "2024-02-30"])
      by (vm_compute in E; injection E as <-; reflexivity).
    split; [reflexivity | split; [exact Hw |]].
    destruct (body r) as [|row [|row' rest]]; try discriminate Hw.
    injection Hw as Hw. apply Forall_cons_iff in Hrows as [Hrow _].
    rewrite Hw in Hrow. destruct Hrow as (_ & _ & _ & Hnull).
    constructor; [| constructor].
    apply (Hnull "2024" "02" "30"); try (split; reflexivity); try reflexivity.
    cbn. lia.
Defined.

(** ** The worksheet (lines 99-122) *)

Lemma format_from_blanks (prev : option string) (rows : list ReconciledRow) :
  (List.length (filter is_blank (format_from prev rows)) <= List.length rows)%nat.
Proof.
  revert prev. induction rows as [|r rest IH]; intros prev; cbn [format_from];
    [apply Nat.le_refl |].
  rewrite filter_app. cbn [filter]. rewrite tolist_not_blank, length_app.
  specialize (IH (r_vector_week_ending r)). cbn [List.length].
  destruct (week_truthy prev && week_neqb (r_vector_week_ending r) prev);
    cbn [filter List.length]; rewrite ?blank_row_is_blank; cbn [List.length]; lia.
Qed.

Lemma no_adjacent_blanks_data (a : list value) (rows : list (list value)) :
  is_blank a = false -> no_adjacent_blanks (a :: rows) = no_adjacent_blanks rows.
Proof.
  intros Ha. cbn [no_adjacent_blanks]. rewrite Ha. now destruct rows.
Qed.

Lemma format_from_no_adjacent_blanks (prev : option string) (rows : list ReconciledRow) :
  no_adjacent_blanks (format_from prev rows) = true.
Proof.
  revert prev. induction rows as [|r rest IH]; intros prev; cbn [format_from];
    [reflexivity |].
  specialize (IH (r_vector_week_ending r)).
  destruct (week_truthy prev && week_neqb (r_vector_week_ending r) prev); cbn [app].
  - change (negb (is_blank blank_row && is_blank (tolist r))
            && no_adjacent_blanks (tolist r :: format_from (r_vector_week_ending r) rest)
            = true).
    rewrite tolist_not_blank, andb_false_r. cbn [negb andb].
    now rewrite no_adjacent_blanks_data by apply tolist_not_blank.
  - now rewrite no_adjacent_blanks_data by apply tolist_not_blank.
Qed.

(** X15: whatever the rows and their order, the loop keeps the data rows,
    all of them and in their order, and only adds blank rows in between:
    the first and the last row of its output are data rows, no two blank
    rows follow each other, the blank rows are fewer than the data rows,
    and every row has one cell for each column of the header.  When no
    row has a week ending, no blank row is added. *)
Theorem formatted_rows_discipline (rows : list ReconciledRow) :
  filter (fun row => negb (is_blank row)) (formatted_rows rows) = map tolist rows
  /\ hd_error (formatted_rows rows) = hd_error (map tolist rows)
  /\ last (formatted_rows rows) blank_row = last (map tolist rows) blank_row
  /\ no_adjacent_blanks (formatted_rows rows) = true
  /\ (List.length (filter is_blank (formatted_rows rows)) <= Nat.pred (List.length rows))%nat
  /\ Forall (fun row => List.length row = List.length body_columns) (formatted_rows rows)
  /\ (Forall (fun r => r_vector_week_ending r = None) rows ->
      formatted_rows rows = map tolist rows).
Proof.
  unfold formatted_rows.
  split; [apply format_from_data |].
  split; [now destruct rows |].
  split; [apply format_from_last |].
  split; [apply format_from_no_adjacent_blanks |].
  split; [| split; [apply format_from_lengths |]].
  - destruct rows as [|r rest]; [apply Nat.le_refl |].
    cbn [format_from week_truthy andb app filter List.length Nat.pred].
    rewrite tolist_not_blank. apply format_from_blanks.
  - induction 1 as [|r rest Hr Hrest IH]; [reflexivity |].
    cbn [format_from week_truthy andb app map]. f_equal.
    rewrite Hr. clear Hr. destruct Hrest as [|r' rest' Hr' Hrest']; [reflexivity |].
    cbn [format_from week_truthy andb app map] in *. exact IH.
Qed.

Lemma max_len_nonneg (col : list value) : 0 <= max_len col.
Proof. unfold max_len. induction col; cbn [map fold_right]; lia. Qed.

Lemma max_column_exact (ws : worksheet) (n : nat) :
  Forall (fun row => (List.length row <= n)%nat) ws ->
  (exists row, In row ws /\ List.length row = n) ->
  max_column ws = n.
Proof.
  unfold max_column. intros Hall (row & Hin & Hlen).
  assert (Hle : (fold_right Nat.max 0%nat (map (@List.length value) ws) <= n)%nat).
  { clear row Hin Hlen. induction Hall as [|r ws' Hr _ IH]; cbn [map fold_right]; lia. }
  assert (Hge : (n <= fold_right Nat.max 0%nat (map (@List.length value) ws))%nat).
  { clear Hall Hle. induction ws as [|r ws' IH]; [destruct Hin |].
    cbn [map fold_right]. destruct Hin as [->|Hin]; [lia |].
    specialize (IH Hin). lia. }
  lia.
Qed.

(** The sheet of a successful run, with the body as the loop leaves it. *)
Lemma success_sheet_rows (a desc : string) (d : Date.t) (f : upload) (r : Report) :
  reconcile a desc d f = Success r ->
  exists x,
    Float64.float_of_str a = Some x
    /\ sheet r = [ [VStr "ACH Summary"];
                   [VStr "ACH Description"; VStr desc];
                   [VStr "ACH Amount"; VFloat x];
                   [VStr "ACH Date"; VStr (Date.isoformat d)];
                   [];
                   map VStr body_columns ]
                 ++ formatted_rows (body r)
    /\ widths r = column_widths (sheet r)
    /\ header_row r = 5%nat.
Proof.
  intros H.
  destruct (success_sheet_layout _ _ _ _ _ H) as (x & Ha & Hsum & _ & Hw).
  apply reconcile_success in H
    as (x' & df & rows & summary & _ & _ & _ & _ & _ & Hbody & Hwr & _).
  destruct (write_report_ok _ _ _ Hwr) as ((_ & Hsd & Hh & _) & Hsheet & _).
  rewrite Hsum in Hsd. subst summary. exists x.
  split; [exact Ha |]. split; [now rewrite Hsheet, Hbody |].
  split; [exact Hw | exact Hh].
Qed.



Lemma column_width_lower (ws : worksheet) (j : nat) (row : list value) :
  In row ws -> Z.min (cell_len (cell j row) + 2) 40 <= column_width (column ws j).
Proof.
  intros Hin. unfold column_width.
  assert (H : cell_len (cell j row) <= max_len (column ws j)).
  { apply max_len_upper. unfold column. now apply in_map. }
  lia.
Qed.

(** X17: the sheet of a report has twelve column widths, each between 2
    and 40; no header is cut short, each column being at least two
    characters wider than its header; and the summary block counts: the
    second column is wide enough for the description that was entered, up
    to the cap of 40. *)
Theorem success_widths (a desc : string) (d : Date.t) (f : upload) (r : Report) :
  reconcile a desc d f = Success r ->
  List.length (widths r) = 12%nat
  /\ Forall (fun w => 2 <= w <= 40) (widths r)
  /\ (forall j name, nth_error body_columns j = Some name ->
        exists w, nth_error (widths r) j = Some w
                  /\ Z.of_nat (String.length name) + 2 <= w)
  /\ (exists w, nth_error (widths r) 1 = Some w
                /\ Z.min (Z.of_nat (String.length desc) + 2) 40 <= w).
Proof.
  intros H.
  destruct (success_sheet_rows _ _ _ _ _ H) as (x & Ha & Hs & Hw & _).
  assert (Hm : max_column (sheet r) = 12%nat).
  { rewrite Hs. apply max_column_exact.
    - repeat (constructor; [cbn; lia |]).
      eapply Forall_impl; [| apply format_from_lengths].
      intros row ->. cbn. lia.
    - exists (map VStr body_columns). split; [| reflexivity].
      do 5 right. now left. }
  assert (Hhead : In (map VStr body_columns) (sheet r))
    by (rewrite Hs; do 5 right; now left).
  assert (Hdesc : In [VStr "ACH Description"; VStr desc] (sheet r))
    by (rewrite Hs; right; now left).
  rewrite Hw. unfold column_widths. rewrite Hm.
  split; [now rewrite length_map, length_seq |]. split; [| split].
  - apply Forall_forall. intros w Hin.
    apply in_map_iff in Hin as (j & <- & _). unfold column_width.
    pose proof (max_len_nonneg (column (sheet r) j)). lia.
  - intros j name Hj.
    assert (Hlt : (j < List.length body_columns)%nat)
      by (apply nth_error_Some; rewrite Hj; discriminate).
    change (List.length body_columns) with 12%nat in Hlt.
    exists (column_width (column (sheet r) j)). split.
    + rewrite nth_error_map, nth_error_seq.
      destruct (Nat.ltb_spec j 12) as [_|Hge]; [reflexivity | lia].
    + pose proof (column_width_lower (sheet r) j _ Hhead) as Hlow.
      set (w := column_width (column (sheet r) j)) in *. clearbody w.
      do 12 (destruct j as [|j];
             [cbn [nth_error body_columns] in Hj; injection Hj as <-;
              match type of Hlow with
              | Z.min (?t + 2) 40 <= _ =>
                  let v := eval vm_compute in t in change t with v in Hlow
              end;
              match goal with
              | |- Z.of_nat ?n + 2 <= _ =>
                  let v := eval vm_compute in (Z.of_nat n) in change (Z.of_nat n) with v
              end; lia |]).
      lia.
  - exists (column_width (column (sheet r) 1)). split; [reflexivity |].
    pose proof (column_width_lower (sheet r) 1 _ Hdesc) as Hlow.
    cbn [cell nth] in Hlow. unfold cell_len in Hlow. cbn [truthy str] in Hlow.
    destruct (String.eqb_spec desc "") as [->|Hne]; cbn [negb] in Hlow.
    + cbn in Hlow |- *. lia.
    + exact Hlow.
Qed.

Lemma success_widths_witness :
  exists r,
    reconcile "1000.00" "March Payroll" sample_date (Upload (Ok march_rows)) = Success r
    /\ List.length (widths r) = 12%nat.
Proof.
  destruct (reconcile "1000.00" "March Payroll" sample_date (Upload (Ok march_rows)))
    as [e|r] eqn:E.
  - vm_compute in E. discriminate E.
  - exists r. split; [reflexivity |].
    exact (proj1 (success_widths _ _ _ _ r E)).
Defined.

(** ** The order of week endings (lines 61-62 and 82) *)

Lemma value_from_shift (s : string) (acc : Z) :
  Dec.value_from acc s
  = acc * 10 ^ Z.of_nat (String.length s) + Dec.value_from 0 s.
Proof.
  revert acc. induction s as [|c s IH]; intros acc; cbn [Dec.value_from String.length].
  - change (Z.of_nat 0) with 0. rewrite Z.pow_0_r. lia.
  - rewrite (IH (10 * acc + Dec.digit_val c)), (IH (10 * 0 + Dec.digit_val c)).
    rewrite Nat2Z.inj_succ, Z.pow_succ_r by lia. ring.
Qed.

Lemma value_bound (s : string) :
  all_digits s = true -> 0 <= Dec.value s < 10 ^ Z.of_nat (String.length s).
Proof.
  unfold Dec.value.
  induction s as [|c s IH]; cbn [all_digits String.length Dec.value_from].
  - intros _. change (Z.of_nat 0) with 0. rewrite Z.pow_0_r. lia.
  - intros [Hc Hs]%andb_prop. specialize (IH Hs).
    pose proof (digit_val_range c Hc) as Hd.
    rewrite value_from_shift, Nat2Z.inj_succ, Z.pow_succ_r by lia.
    replace (10 * 0 + Dec.digit_val c) with (Dec.digit_val c) by lia. nia.
Qed.

Lemma ascii_compare_digits (c d : ascii) :
  Ascii.compare c d = (Dec.digit_val c ?= Dec.digit_val d).
Proof.
  unfold Ascii.compare, Dec.digit_val, Char.code, Z.sub.
  rewrite (Z.add_comm (Z.of_N (N_of_ascii c))), (Z.add_comm (Z.of_N (N_of_ascii d))).
  now rewrite Z.add_compare_mono_l, N2Z.inj_compare.
Qed.

(** Two numerals of the same length compare as their values. *)
Lemma compare_digits (a b : string) :
  String.length a = String.length b ->
  all_digits a = true -> all_digits b = true ->
  String.compare a b = (Dec.value a ?= Dec.value b).
Proof.
  revert b. induction a as [|c a IH]; intros [|d b] Hl Ha Hb; try discriminate Hl.
  - reflexivity.
  - cbn [String.length] in Hl. injection Hl as Hl.
    cbn [all_digits] in Ha, Hb.
    apply andb_prop in Ha as [Hc Ha]. apply andb_prop in Hb as [Hd Hb].
    pose proof (value_bound a Ha) as Ba. pose proof (value_bound b Hb) as Bb.
    specialize (IH b Hl Ha Hb).
    cbn [String.compare]. rewrite ascii_compare_digits.
    unfold Dec.value in *. cbn [Dec.value_from].
    rewrite (value_from_shift a), (value_from_shift b), <- Hl in *.
    replace (10 * 0 + Dec.digit_val c) with (Dec.digit_val c) by lia.
    replace (10 * 0 + Dec.digit_val d) with (Dec.digit_val d) by lia.
    assert (HP : 0 < 10 ^ Z.of_nat (String.length a)) by (apply Z.pow_pos_nonneg; lia).
    destruct (Z.compare_spec (Dec.digit_val c) (Dec.digit_val d)) as [E|E|E].
    + rewrite E, Z.add_compare_mono_l. exact IH.
    + symmetry. apply Z.compare_lt_iff. nia.
    + symmetry. apply Z.compare_gt_iff. nia.
Qed.

Lemma compare_append (a b x y : string) :
  String.length a = String.length b ->
  String.compare (a ++ x) (b ++ y)
  = match String.compare a b with
    | Eq => String.compare x y
    | c => c
    end.
Proof.
  revert b. induction a as [|c a IH]; intros [|d b] Hl; try discriminate Hl.
  - reflexivity.
  - cbn [String.length] in Hl. injection Hl as Hl.
    cbn [append String.compare]. destruct (Ascii.compare c d); auto.
Qed.

(** The texts of two dates compare as the dates do, field by field. *)
Lemma isoformat_compare (d1 d2 : Date.t) :
  Date.valid d1 = true -> Date.valid d2 = true ->
  String.compare (Date.isoformat d1) (Date.isoformat d2)
  = match Date.year d1 ?= Date.year d2 with
    | Eq => match Date.month d1 ?= Date.month d2 with
            | Eq => Date.day d1 ?= Date.day d2
            | c => c
            end
    | c => c
    end.
Proof.
  intros Hv1 Hv2.
  destruct (valid_bounds d1 Hv1) as (Hy1 & Hm1 & Hd1).
  destruct (valid_bounds d2 Hv2) as (Hy2 & Hm2 & Hd2).
  pose proof (days_in_month_bounds (Date.year d1) _ Hm1) as Hdim1.
  pose proof (days_in_month_bounds (Date.year d2) _ Hm2) as Hdim2.
  destruct (padded_ok_spec 4 (Date.year d1)) as [[Ly1 Dy1] Vy1]; [apply padded_4; lia |].
  destruct (padded_ok_spec 2 (Date.month d1)) as [[Lm1 Dm1] Vm1]; [apply padded_2; lia |].
  destruct (padded_ok_spec 2 (Date.day d1)) as [[Ld1 Dd1] Vd1]; [apply padded_2; lia |].
  destruct (padded_ok_spec 4 (Date.year d2)) as [[Ly2 Dy2] Vy2]; [apply padded_4; lia |].
  destruct (padded_ok_spec 2 (Date.month d2)) as [[Lm2 Dm2] Vm2]; [apply padded_2; lia |].
  destruct (padded_ok_spec 2 (Date.day d2)) as [[Ld2 Dd2] Vd2]; [apply padded_2; lia |].
  unfold Date.isoformat.
  rewrite compare_append by congruence.
  rewrite (compare_digits _ _ (eq_trans Ly1 (eq_sym Ly2)) Dy1 Dy2), Vy1, Vy2.
  destruct (Date.year d1 ?= Date.year d2); try reflexivity.
  cbn [append String.compare]. rewrite ascii_compare_refl.
  rewrite compare_append by congruence.
  rewrite (compare_digits _ _ (eq_trans Lm1 (eq_sym Lm2)) Dm1 Dm2), Vm1, Vm2.
  destruct (Date.month d1 ?= Date.month d2); try reflexivity.
  cbn [append String.compare]. rewrite ascii_compare_refl.
  now rewrite (compare_digits _ _ (eq_trans Ld1 (eq_sym Ld2)) Dd1 Dd2), Vd1, Vd2.
Qed.

Lemma days_before_year_mono (y1 y2 : Z) :
  y1 <= y2 -> Date.days_before_year y1 <= Date.days_before_year y2.
Proof. unfold Date.days_before_year. intros H. Z.div_mod_to_equations. lia. Qed.

Ltac month_cases m H :=
  assert (H : m = 1 \/ m = 2 \/ m = 3 \/ m = 4 \/ m = 5 \/ m = 6 \/ m = 7
              \/ m = 8 \/ m = 9 \/ m = 10 \/ m = 11 \/ m = 12) by lia.

(** Arithmetic on the entries of the month tables. *)
Ltac table_arith :=
  cbv [Z.ltb Z.compare Pos.compare Pos.compare_cont andb]; lia.

Lemma day_of_year_bounds (d : Date.t) :
  on_calendar d ->
  1 <= Date.days_before_month (Date.year d) (Date.month d) + Date.day d
    <= (if Date.is_leap (Date.year d) then 366 else 365).
Proof.
  destruct d as [y m dd]. unfold on_calendar. cbn [Date.year Date.month Date.day].
  intros [Hm Hd]. month_cases m H. revert Hd. clear Hm.
  unfold Date.days_before_month, Date.days_in_month.
  destruct (Date.is_leap y);
    repeat (destruct H as [-> | H]; [table_arith |]); subst; table_arith.
Qed.

Lemma days_before_month_step (y m1 m2 : Z) :
  1 <= m1 -> m1 < m2 -> m2 <= 12 ->
  Date.days_before_month y m1 + Date.days_in_month y m1 <= Date.days_before_month y m2.
Proof.
  intros H1 H12 H2. month_cases m1 Ha. month_cases m2 Hb.
  unfold Date.days_before_month, Date.days_in_month.
  destruct (Date.is_leap y);
    repeat (destruct Ha as [-> | Ha]);
    try subst m1;
    repeat (destruct Hb as [-> | Hb]; [table_arith |]); subst; table_arith.
Qed.

(** An earlier date has a smaller day count. *)
Lemma ordinal_lt (d1 d2 : Date.t) :
  on_calendar d1 -> on_calendar d2 ->
  Date.year d1 < Date.year d2
  \/ (Date.year d1 = Date.year d2
      /\ (Date.month d1 < Date.month d2
          \/ (Date.month d1 = Date.month d2 /\ Date.day d1 < Date.day d2))) ->
  Date.ordinal d1 < Date.ordinal d2.
Proof.
  intros C1 C2 H.
  pose proof (day_of_year_bounds d1 C1) as B1.
  pose proof (day_of_year_bounds d2 C2) as B2.
  destruct d1 as [y1 m1 e1], d2 as [y2 m2 e2]. unfold Date.ordinal, on_calendar in *.
  cbn [Date.year Date.month Date.day] in *.
  destruct H as [Hy|[-> [Hm|[-> Hd]]]].
  - pose proof (days_before_year_succ y1) as Hs.
    pose proof (days_before_year_mono (y1 + 1) y2) as Hmono. lia.
  - pose proof (days_before_month_step y2 m1 m2). lia.
  - lia.
Qed.

Lemma isoformat_compare_ordinal (d1 d2 : Date.t) :
  Date.valid d1 = true -> Date.valid d2 = true ->
  String.compare (Date.isoformat d1) (Date.isoformat d2)
  = (Date.ordinal d1 ?= Date.ordinal d2).
Proof.
  intros Hv1 Hv2. rewrite (isoformat_compare d1 d2 Hv1 Hv2).
  pose proof (valid_on_calendar d1 Hv1) as C1.
  pose proof (valid_on_calendar d2 Hv2) as C2.
  pose proof (ordinal_lt d1 d2 C1 C2) as L12.
  pose proof (ordinal_lt d2 d1 C2 C1) as L21.
  destruct (Z.compare_spec (Date.year d1) (Date.year d2)) as [Ey|Ey|Ey];
    [destruct (Z.compare_spec (Date.month d1) (Date.month d2)) as [Em|Em|Em];
     [destruct (Z.compare_spec (Date.day d1) (Date.day d2)) as [Ed|Ed|Ed] | |] | |];
    symmetry.
  - apply Z.compare_eq_iff. destruct d1, d2. cbn in *. now subst.
  - apply Z.compare_lt_iff. apply L12. auto.
  - apply Z.compare_gt_iff. apply L21. right. split; [lia |]. right. split; lia.
  - apply Z.compare_lt_iff. apply L12. auto.
  - apply Z.compare_gt_iff. apply L21. right. split; [lia |]. left. lia.
  - apply Z.compare_lt_iff. apply L12. auto.
  - apply Z.compare_gt_iff. apply L21. left. lia.
Qed.

(** X18: sorting week endings as text sorts them in time: the texts of
    two days of the calendar compare, character by character, as the days
    do on the calendar, so the key order of [sort_values] on such texts is
    the chronological order, and two days with the same text are the same
    day. *)
Theorem isoformat_order (d1 d2 : Date.t) :
  Date.valid d1 = true -> Date.valid d2 = true ->
  String.compare (Date.isoformat d1) (Date.isoformat d2)
  = (Date.ordinal d1 ?= Date.ordinal d2)
  /\ (key_le (Some (Date.isoformat d1)) (Some (Date.isoformat d2)) = true
      <-> Date.ordinal d1 <= Date.ordinal d2)
  /\ (Date.isoformat d1 = Date.isoformat d2 <-> d1 = d2).
Proof.
  intros Hv1 Hv2.
  pose proof (isoformat_compare_ordinal d1 d2 Hv1 Hv2) as E.
  split; [exact E |]. split.
  - cbn [key_le]. unfold String.leb. rewrite E.
    destruct (Z.compare_spec (Date.ordinal d1) (Date.ordinal d2)); split;
      intros; try lia; try reflexivity; discriminate.
  - split; [| now intros ->].
    intros Ht. pose proof (parse_iso_isoformat d1 Hv1) as P1.
    rewrite Ht, (parse_iso_isoformat d2 Hv2) in P1. now injection P1.
Qed.

Lemma isoformat_order_witness :
  Date.valid (Date.mk 2023 12 31) = true
  /\ Date.valid (Date.mk 2024 1 7) = true
  /\ (key_le (Some "2023-12-31") (Some "2024-01-07") = true
      <-> Date.ordinal (Date.mk 2023 12 31) <= Date.ordinal (Date.mk 2024 1 7)).
Proof.
  split; [reflexivity | split; [reflexivity |]].
  exact (proj1 (proj2 (isoformat_order (Date.mk 2023 12 31) (Date.mk 2024 1 7)
                         eq_refl eq_refl))).
Defined.

Lemma date_leb_false (a b : Date.t) :
  Date.leb a b = false ->
  Date.year b < Date.year a
  \/ (Date.year b = Date.year a
      /\ (Date.month b < Date.month a
          \/ (Date.month b = Date.month a /\ Date.day b < Date.day a))).
Proof.
  unfold Date.leb.
  rewrite !orb_false_iff, !andb_false_iff, !orb_false_iff, !andb_false_iff,
          !Z.ltb_ge, !Z.eqb_neq, !Z.leb_gt.
  lia.
Qed.

(** A day that is not later in the day count is not later on the calendar. *)
Lemma leb_of_ordinal (a b : Date.t) :
  on_calendar a -> on_calendar b ->
  Date.ordinal a <= Date.ordinal b -> Date.leb a b = true.
Proof.
  intros Ca Cb H. destruct (Date.leb a b) eqn:E; [reflexivity |].
  pose proof (ordinal_lt b a Cb Ca (date_leb_false _ _ E)). lia.
Qed.

Lemma in_timestamp_range_ordinal (e : Date.t) :
  on_calendar e ->
  Date.ordinal timestamp_first <= Date.ordinal e <= Date.ordinal timestamp_last ->
  in_timestamp_range e = true.
Proof.
  intros C [H1 H2]. unfold in_timestamp_range.
  rewrite (leb_of_ordinal timestamp_first e), (leb_of_ordinal e timestamp_last);
    try assumption; try reflexivity; split; cbn; lia.
Qed.

(** The day count of the days of the years 1678 to 2261. *)
Lemma ordinal_of_years (d : Date.t) :
  on_calendar d -> 1678 <= Date.year d <= 2261 ->
  Date.ordinal (Date.mk 1678 1 1) <= Date.ordinal d
  <= Date.ordinal (Date.mk 2261 12 31).
Proof.
  intros C Hy.
  assert (C1 : on_calendar (Date.mk 1678 1 1)) by (split; cbn; lia).
  assert (C2 : on_calendar (Date.mk 2261 12 31)) by (split; cbn; lia).
  pose proof C as [Cm Cd].
  pose proof (days_in_month_bounds (Date.year d) (Date.month d) Cm) as Hdim.
  split.
  - destruct (Z.eq_dec (Date.year d) 1678) as [E|E];
      [destruct (Z.eq_dec (Date.month d) 1) as [Em|Em];
       [destruct (Z.eq_dec (Date.day d) 1) as [Ed|Ed] |] |].
    + destruct d as [y m dd]. cbn [Date.year Date.month Date.day] in *.
      subst. apply Z.le_refl.
    + apply Z.lt_le_incl, ordinal_lt; try assumption.
      cbn [Date.year Date.month Date.day]. lia.
    + apply Z.lt_le_incl, ordinal_lt; try assumption.
      cbn [Date.year Date.month Date.day]. lia.
    + apply Z.lt_le_incl, ordinal_lt; try assumption.
      cbn [Date.year Date.month Date.day]. lia.
  - destruct (Z.eq_dec (Date.year d) 2261) as [E|E];
      [destruct (Z.eq_dec (Date.month d) 12) as [Em|Em];
       [destruct (Z.eq_dec (Date.day d) 31) as [Ed|Ed] |] |].
    + destruct d as [y m dd]. cbn [Date.year Date.month Date.day] in *.
      subst. apply Z.le_refl.
    + apply Z.lt_le_incl, ordinal_lt; try assumption.
      cbn [Date.year Date.month Date.day].
      rewrite Em in Cd, Hdim. change (Date.days_in_month (Date.year d) 12) with 31 in Cd.
      lia.
    + apply Z.lt_le_incl, ordinal_lt; try assumption.
      cbn [Date.year Date.month Date.day]. lia.
    + apply Z.lt_le_incl, ordinal_lt; try assumption.
      cbn [Date.year Date.month Date.day]. lia.
Qed.

Lemma next_day_year (d : Date.t) :
  Date.year d <= Date.year (Date.next_day d) <= Date.year d + 1.
Proof.
  unfold Date.next_day.
  repeat match goal with |- context [if ?b then _ else _] => destruct b end;
    cbn [Date.year]; lia.
Qed.

(** X19: for a week ending that is the text of a day of the years 1678 to
    2261, the years that the library's timestamps cover entirely, the FMS
    week ending is the text of the second day after it: it reads back as
    that date, it has the shape of a date, it sorts strictly after the
    week ending, and the derivation applied to it again gives a text and
    not null. *)
Theorem fms_week_ending_later (d : Date.t) :
  Date.valid d = true ->
  1678 <= Date.year d <= 2261 ->
  exists t,
    fms_week_ending_of (Some (Date.isoformat d)) = Ok (Some t)
    /\ Date.parse_iso t = Some (Date.add_days 2 d)
    /\ date_text t
    /\ String.compare (Date.isoformat d) t = Lt
    /\ exists t', fms_week_ending_of (Some t) = Ok (Some t').
Proof.
  intros Hv Hy.
  pose proof (valid_on_calendar d Hv) as C.
  pose proof (on_calendar_next_day d C) as C1.
  pose proof (on_calendar_next_day _ C1) as C2.
  pose proof (on_calendar_next_day _ C2) as C3.
  pose proof (on_calendar_next_day _ C3) as C4.
  pose proof (ordinal_next_day d C) as O1.
  pose proof (ordinal_next_day _ C1) as O2.
  pose proof (ordinal_next_day _ C2) as O3.
  pose proof (ordinal_next_day _ C3) as O4.
  pose proof (ordinal_of_years d C Hy) as [Olo Ohi].
  assert (Hv1 : Date.valid (Date.next_day d) = true)
    by (apply valid_next_day; [assumption | lia]).
  assert (Hv2 : Date.valid (Date.add_days 2 d) = true).
  { change (Date.add_days 2 d) with (Date.next_day (Date.next_day d)).
    apply valid_next_day; [assumption |].
    pose proof (next_day_year d). lia. }
  change (Date.add_days 2 d) with (Date.next_day (Date.next_day d)) in *.
  exists (Date.isoformat (Date.next_day (Date.next_day d))).
  pose proof (parse_iso_isoformat _ Hv2) as P2.
  split; [now apply fms_week_ending_shift |].
  split; [exact P2 |]. split; [now apply isoformat_date_text |]. split.
  - rewrite (isoformat_compare_ordinal _ _ Hv Hv2). apply Z.compare_lt_iff. lia.
  - eexists. unfold fms_week_ending_of, to_datetime, add_two_days. rewrite P2.
    assert (Ofirst : Date.ordinal timestamp_first <= Date.ordinal (Date.mk 1678 1 1))
      by (vm_compute; discriminate).
    assert (Olast : Date.ordinal (Date.mk 2261 12 31) + 4 <= Date.ordinal timestamp_last)
      by (vm_compute; discriminate).
    rewrite (in_timestamp_range_ordinal _ C2) by lia.
    change (Date.add_days 2 (Date.next_day (Date.next_day d)))
      with (Date.next_day (Date.next_day (Date.next_day (Date.next_day d)))).
    rewrite (in_timestamp_range_ordinal _ C4) by lia.
    reflexivity.
Qed.

Lemma fms_week_ending_later_witness :
  exists t, fms_week_ending_of (Some "2024-02-28") = Ok (Some t)
            /\ String.compare "2024-02-28" t = Lt.
Proof.
  assert (Hy : 1678 <= Date.year (Date.mk 2024 2 28) <= 2261) by (cbn; lia).
  destruct (fms_week_ending_later (Date.mk 2024 2 28) eq_refl Hy)
    as (t & Hf & _ & _ & Hlt & _).
  exists t. split; [exact Hf | exact Hlt].
Defined.

(** ** The amount as text (line 41) *)

Lemma space_not_foreign (c : ascii) : Char.is_space c = true -> foreign c = false.
Proof.
  intros H. unfold foreign, numeral_char. rewrite H, orb_true_r. reflexivity.
Qed.

Lemma digit_not_foreign (c : ascii) : Char.is_digit c = true -> foreign c = false.
Proof. intros H. unfold foreign, numeral_char. now rewrite H. Qed.

(** Lowering a letter does not move it in or out of the class. *)
Lemma lower_foreign (c : ascii) : foreign (Float64.lower c) = foreign c.
Proof. destruct c as [[] [] [] [] [] [] [] []]; vm_compute; reflexivity. Qed.

Lemma float_space_not_foreign (c : ascii) :
  Float64.is_float_space c = true -> foreign c = false.
Proof.
  intros H. apply space_not_foreign. revert H.
  unfold Float64.is_float_space, Char.is_space. cbv zeta.
  rewrite !orb_true_iff, !andb_true_iff, !N.leb_le, !N.eqb_eq.
  intros [[[[H1 H2]|H]|H]|H].
  - left. left. left. now split.
  - left. left. right. lia.
  - left. right. exact H.
  - right. exact H.
Qed.

Lemma lstrip_foreign (s : string) :
  has_char foreign (Str.lstrip_with Float64.is_float_space s) = has_char foreign s.
Proof.
  induction s as [|c s IH]; [reflexivity |]. cbn [Str.lstrip_with].
  destruct (Float64.is_float_space c) eqn:Hc; [| reflexivity].
  cbn [has_char]. now rewrite (float_space_not_foreign c Hc), IH.
Qed.

Lemma rstrip_foreign (s : string) :
  has_char foreign (Str.rstrip_with Float64.is_float_space s) = has_char foreign s.
Proof.
  induction s as [|c s IH]; [reflexivity |]. cbn [Str.rstrip_with].
  destruct (Str.rstrip_with Float64.is_float_space s) as [|c' r].
  - cbn [has_char] in *. rewrite <- IH.
    destruct (Float64.is_float_space c) eqn:Hc; cbn [has_char]; [| reflexivity].
    now rewrite (float_space_not_foreign c Hc).
  - remember (String c' r) as rs. cbn [has_char]. now rewrite IH.
Qed.

Lemma drop_underscores_foreign (s : string) (prev : ascii) (s1 : string) :
  Float64.drop_underscores prev s = Some s1 ->
  has_char foreign s1 = has_char foreign s.
Proof.
  revert prev s1. induction s as [|c s IH]; intros prev s1; cbn [Float64.drop_underscores].
  - destruct (Float64.is_underscore prev); [discriminate | now intros [= <-]].
  - destruct (Float64.is_underscore c) eqn:Hc.
    + apply Ascii.eqb_eq in Hc. subst c.
      destruct (Char.is_digit prev); [| discriminate].
      intros H. now rewrite (IH _ _ H).
    + destruct (Float64.is_underscore prev && negb (Char.is_digit c)); [discriminate |].
      destruct (Float64.drop_underscores c s) as [s1'|] eqn:E; [| discriminate].
      cbn [option_map]. intros [= <-]. cbn [has_char]. now rewrite (IH _ _ E).
Qed.

Lemma parse_sign_foreign (s : string) :
  has_char foreign (snd (Float64.parse_sign s)) = has_char foreign s.
Proof.
  destruct s as [|c s]; [reflexivity |]. unfold Float64.parse_sign.
  destruct (Ascii.eqb_spec c "-") as [->|_]; [reflexivity |].
  destruct (Ascii.eqb_spec c "+") as [->|_]; reflexivity.
Qed.

Lemma digits_foreign (ds : string) : all_digits ds = true -> has_char foreign ds = false.
Proof. apply all_digits_has_char. exact digit_not_foreign. Qed.

Lemma parse_exponent_foreign (s : string) (e : Z) :
  Float64.parse_exponent s = (e, "") -> has_char foreign s = false.
Proof.
  destruct s as [|c r]; [reflexivity |]. unfold Float64.parse_exponent.
  destruct (Ascii.eqb_spec (Float64.lower c) "e") as [Hc|_]; [| discriminate].
  pose proof (parse_sign_foreign r) as Hsign.
  destruct (Float64.parse_sign r) as [eneg r1]. cbn [snd] in Hsign.
  destruct (span_digits r1) as [ed r2] eqn:Es.
  apply span_digits_sound in Es as (-> & Hd & _).
  destruct ed as [|c0 ed]; [discriminate |].
  intros [= _ ->]. rewrite append_nil_r in Hsign.
  cbn [has_char]. rewrite <- Hsign, (digits_foreign _ Hd), orb_false_r.
  now rewrite <- lower_foreign, Hc.
Qed.

Lemma parse_number_foreign (s : string) (m e : Z) :
  Float64.parse_number s = Some (m, e, "") -> has_char foreign s = false.
Proof.
  unfold Float64.parse_number.
  destruct (span_digits s) as [ip s1] eqn:Ei.
  apply span_digits_sound in Ei as (-> & Hip & _).
  rewrite has_char_append, (digits_foreign _ Hip). cbn [orb].
  assert (Hexp : forall fp s2,
             match (ip ++ fp)%string with
             | "" => None
             | String _ _ as ds =>
                 let (e0, s3) := Float64.parse_exponent s2 in
                 Some (Dec.value ds, e0 - Z.of_nat (String.length fp), s3)
             end = Some (m, e, "") ->
             has_char foreign s2 = false).
  { intros fp s2 H. destruct (ip ++ fp)%string; [discriminate |].
    destruct (Float64.parse_exponent s2) as [e0 s3] eqn:Ee.
    injection H as _ _ ->. exact (parse_exponent_foreign _ _ Ee). }
  destruct s1 as [|c r]; [reflexivity |].
  destruct (Ascii.eqb_spec c ".") as [->|_].
  - destruct (span_digits r) as [fp s2] eqn:Ef.
    apply span_digits_sound in Ef as (-> & Hfp & _).
    intros H. cbn [has_char].
    rewrite has_char_append, (digits_foreign _ Hfp), (Hexp _ _ H). reflexivity.
  - intros H. exact (Hexp _ _ H).
Qed.

Lemma lower_str_foreign (s : string) :
  has_char foreign (Float64.lower_str s) = has_char foreign s.
Proof.
  induction s as [|c s IH]; [reflexivity |].
  cbn [Float64.lower_str has_char]. now rewrite lower_foreign, IH.
Qed.

(** A text that [float] reads is made of the characters of numerals. *)
Lemma float_of_str_foreign (text : string) (x : float) :
  Float64.float_of_str text = Some x -> has_char foreign text = false.
Proof.
  unfold Float64.float_of_str. intros H.
  rewrite <- lstrip_foreign, <- rstrip_foreign.
  fold (Str.strip_with Float64.is_float_space text).
  destruct (Str.strip_with Float64.is_float_space text) as [|c0 s0]; [discriminate |].
  remember (String c0 s0) as s eqn:Es. clear Es.
  destruct (Float64.drop_underscores " " s) as [s1|] eqn:Eu; [| discriminate].
  rewrite <- (drop_underscores_foreign _ _ _ Eu), <- parse_sign_foreign.
  destruct (Float64.parse_sign s1) as [neg r]. cbn [snd].
  destruct (Float64.parse_number r) as [[[m e] rest]|] eqn:En.
  - destruct rest; [| discriminate]. exact (parse_number_foreign _ _ _ En).
  - rewrite <- lower_str_foreign. cbv zeta in H.
    destruct (String.eqb_spec (Float64.lower_str r) "inf") as [->|_]; [reflexivity |].
    destruct (String.eqb_spec (Float64.lower_str r) "infinity") as [->|_]; [reflexivity |].
    destruct (String.eqb_spec (Float64.lower_str r) "nan") as [->|_]; [reflexivity |].
    discriminate.
Qed.

(** X20: an amount is read as a number only if it is made of digits, signs,
    the point, the underscore, white space and the letters of the exponent
    mark, [inf], [infinity] and [nan]: an amount with any other character,
    such as a currency sign or a comma between thousands, is rejected by
    [float], and the run reports a non-numeric amount whatever the file. *)
Theorem foreign_amount_rejected (a : string) :
  has_char foreign a = true ->
  Float64.float_of_str a = None
  /\ forall desc d f, reconcile a desc d f = Failure NonNumericAmount.
Proof.
  intros H.
  assert (Ha : Float64.float_of_str a = None).
  { destruct (Float64.float_of_str a) as [x|] eqn:E; [| reflexivity].
    rewrite (float_of_str_foreign _ _ E) in H. discriminate. }
  split; [exact Ha |]. intros desc d f.
  pose proof (reconcile_outcomes a desc d f) as Hr. outcome Hr; congruence.
Qed.

Lemma foreign_amount_rejected_witness :
  has_char foreign "$1,000.00" = true
  /\ has_char foreign "1000.00" = false
  /\ reconcile "$1,000.00" "March Payroll" sample_date (Upload (Ok march_rows))
     = Failure NonNumericAmount.
Proof.
  assert (H : has_char foreign "$1,000.00" = true) by reflexivity.
  split; [exact H | split; [reflexivity |]].
  exact (proj2 (foreign_amount_rejected "$1,000.00" H) "March Payroll" sample_date
           (Upload (Ok march_rows))).
Defined.

(** ** Sorting and the loop together (lines 82-97) *)

Lemma key_le_antisym (k1 k2 : option string) :
  key_le k1 k2 = true -> key_le k2 k1 = true -> k1 = k2.
Proof.
  destruct k1 as [s1|], k2 as [s2|]; cbn [key_le]; try discriminate; [| reflexivity].
  intros H1 H2. f_equal. now apply String.leb_antisym.
Qed.

Lemma strongly_sorted_app_across (A : Type) (R : A -> A -> Prop) (l1 l2 : list A) :
  StronglySorted R (l1 ++ l2) -> forall a b, In a l1 -> In b l2 -> R a b.
Proof.
  induction l1 as [|x l1 IH]; cbn [app]; intros H a b Ha Hb; [destruct Ha |].
  apply StronglySorted_inv in H as [Hs Hall]. destruct Ha as [<-|Ha].
  - rewrite Forall_forall in Hall. apply Hall, in_or_app. now right.
  - now apply IH.
Qed.

Lemma strongly_sorted_app_tail (A : Type) (R : A -> A -> Prop) (l1 l2 : list A) :
  StronglySorted R (l1 ++ l2) -> StronglySorted R l2.
Proof.
  induction l1 as [|x l1 IH]; cbn [app]; intros H; [exact H |].
  apply StronglySorted_inv in H as [Hs _]. now apply IH.
Qed.

(** In a sorted list cut into pieces, what is in an earlier piece sorts
    before what is in a later one. *)
Lemma concat_sorted_across (A : Type) (R : A -> A -> Prop) (gs : list (list A)) :
  StronglySorted R (List.concat gs) ->
  forall i j g1 g2, (i < j)%nat ->
    nth_error gs i = Some g1 -> nth_error gs j = Some g2 ->
    forall a b, In a g1 -> In b g2 -> R a b.
Proof.
  induction gs as [|g gs IH]; intros Hs i j g1 g2 Hij H1 H2 a b Ha Hb.
  - destruct i; discriminate H1.
  - cbn [List.concat] in Hs. destruct j as [|j]; [lia |]. cbn [nth_error] in H2.
    destruct i as [|i]; cbn [nth_error] in H1.
    + injection H1 as <-. apply (strongly_sorted_app_across _ _ _ _ Hs); [assumption |].
      apply in_concat. exists g2. split; [| assumption].
      now apply (nth_error_In _ j).
    + apply (IH (strongly_sorted_app_tail _ _ _ _ Hs) i j g1 g2); try assumption. lia.
Qed.

Lemma group_runs_nonempty (rows : list ReconciledRow) :
  Forall (fun g => g <> []) (group_runs rows).
Proof.
  induction rows as [|r rest IH]; cbn [group_runs]; [constructor |].
  destruct (group_runs rest) as [|[|r' g] gs].
  - repeat constructor. discriminate.
  - repeat constructor. discriminate.
  - apply Forall_cons_iff in IH as [_ IH].
    destruct (same_week r r'); repeat constructor; try discriminate; assumption.
Qed.

Lemma runs_differ_next (gs : list (list ReconciledRow)) (i : nat)
    (g1 g2 : list ReconciledRow) :
  runs_differ gs ->
  nth_error gs i = Some g1 -> nth_error gs (S i) = Some g2 ->
  forall a b, In a g1 -> In b g2 -> r_vector_week_ending a <> r_vector_week_ending b.
Proof.
  revert i. induction gs as [|g gs IH]; intros i Hd H1 H2; [destruct i; discriminate H1 |].
  destruct gs as [|g' gs]; [destruct i; discriminate H2 |].
  cbn [runs_differ] in Hd. destruct Hd as [Hd Hrest].
  destruct i as [|i].
  - cbn [nth_error] in H1, H2. injection H1 as <-. injection H2 as <-. exact Hd.
  - apply (IH i Hrest); assumption.
Qed.

(** On sorted rows, two different runs never have the same week ending. *)
Lemma sorted_runs_apart (rows : list ReconciledRow) :
  StronglySorted week_le rows ->
  forall i j g1 g2, (i < j)%nat ->
    nth_error (group_runs rows) i = Some g1 ->
    nth_error (group_runs rows) j = Some g2 ->
    forall a b, In a g1 -> In b g2 -> r_vector_week_ending a <> r_vector_week_ending b.
Proof.
  intros Hs i j g1 g2 Hij H1 H2 a b Ha Hb.
  pose proof (group_runs_differ rows) as Hd.
  pose proof (group_runs_nonempty rows) as Hne.
  rewrite <- (group_runs_concat rows) in Hs.
  destruct (Nat.eq_dec j (S i)) as [->|Hj].
  - exact (runs_differ_next _ _ _ _ Hd H1 H2 a b Ha Hb).
  - destruct (nth_error (group_runs rows) (S i)) as [g|] eqn:E.
    2:{ apply nth_error_None in E.
        assert (j < List.length (group_runs rows))%nat
          by (apply nth_error_Some; rewrite H2; discriminate).
        lia. }
    rewrite Forall_forall in Hne.
    pose proof (Hne g (nth_error_In _ _ E)) as Hg.
    destruct g as [|c g]; [congruence |].
    pose proof (runs_differ_next _ _ _ _ Hd H1 E a c Ha (in_eq _ _)) as Hac.
    pose proof (concat_sorted_across _ _ _ Hs i (S i) _ _ (Nat.lt_succ_diag_r i) H1 E
                  a c Ha (in_eq _ _)) as Lac.
    assert (Hlt : (S i < j)%nat) by lia.
    pose proof (concat_sorted_across _ _ _ Hs (S i) j _ _ Hlt E H2 c b (in_eq _ _) Hb)
      as Lcb.
    unfold week_le, le_by_key in Lac, Lcb.
    intros Heq. rewrite <- Heq in Lcb. apply Hac.
    now apply key_le_antisym.
Qed.

(** X21: in the sheet of a report whose rows all have a week ending, the
    rows of one week ending are never split: the body below the header is
    the runs of rows with the same week ending, one blank row between two
    runs; within a run the week ending is the same, and two different runs
    have different week endings, the rows being sorted. *)
Theorem success_groups_whole (a desc : string) (d : Date.t) (f : upload) (r : Report) :
  reconcile a desc d f = Success r ->
  Forall (fun row => r_vector_week_ending row <> None) (body r) ->
  skipn 6 (sheet r) = spec_body (body r)
  /\ List.concat (group_runs (body r)) = body r
  /\ Forall (fun g => forall x y, In x g -> In y g ->
                      r_vector_week_ending x = r_vector_week_ending y)
            (group_runs (body r))
  /\ (forall i j g1 g2, i <> j ->
        nth_error (group_runs (body r)) i = Some g1 ->
        nth_error (group_runs (body r)) j = Some g2 ->
        forall x y, In x g1 -> In y g2 ->
          r_vector_week_ending x <> r_vector_week_ending y)
  /\ List.length (filter is_blank (skipn 6 (sheet r)))
     = Nat.pred (List.length (group_runs (body r))).
Proof.
  intros H _.
  destruct (success_sheet_layout _ _ _ _ _ H) as (x & _ & _ & Hs & _).
  assert (Hbody : skipn 6 (sheet r) = spec_body (body r)) by now rewrite Hs.
  assert (Hsorted : StronglySorted week_le (body r)).
  { apply reconcile_success in H
      as (x' & df & rows & summary & _ & _ & _ & _ & _ & Hb & _ & _).
    rewrite Hb. apply sort_values_sorted. }
  split; [exact Hbody |]. split; [apply group_runs_concat |].
  split; [apply group_runs_uniform |]. split.
  - intros i j g1 g2 Hij H1 H2 x0 y0 Hx Hy.
    destruct (Nat.lt_total i j) as [Hlt|[->|Hgt]]; [| congruence |].
    + exact (sorted_runs_apart _ Hsorted i j g1 g2 Hlt H1 H2 x0 y0 Hx Hy).
    + intros E. symmetry in E.
      exact (sorted_runs_apart _ Hsorted j i g2 g1 Hgt H2 H1 y0 x0 Hy Hx E).
  - rewrite Hbody. unfold spec_body. apply blank_count_join.
Qed.

Lemma success_groups_whole_witness :
  exists r,
    reconcile "1000.00" "March Payroll" sample_date (Upload (Ok march_rows)) = Success r
    /\ Forall (fun row => r_vector_week_ending row <> None) (body r)
    /\ List.length (filter is_blank (skipn 6 (sheet r)))
       = Nat.pred (List.length (group_runs (body r))).
Proof.
  destruct (reconcile "1000.00" "March Payroll" sample_date (Upload (Ok march_rows)))
    as [e|r] eqn:E.
  - vm_compute in E. discriminate E.
  - exists r. split; [reflexivity |].
    assert (Hw : Forall (fun row => r_vector_week_ending row <> None) (body r)).
    { pose proof E as E'. vm_compute in E'. injection E' as <-.
      repeat constructor; discriminate. }
    split; [exact Hw |].
    exact (proj2 (proj2 (proj2 (proj2 (success_groups_whole _ _ _ _ r E Hw))))).
Defined.

(** ** The two roundings of the amount check (line 53) *)

(** X22: the two sides of the amount check are not rounded by the same
    method.  The sum is a scalar of the library, which scales by 100, rounds
    to a whole number and scales back, each step in floating point; the
    entered amount is a Python float, which is rounded exactly.  On a sheet
    whose one row of the payment date has the extended amount 1.115, the
    entered amount 1.115 is the same float as the sum; the sum is rounded to
    1.12, the amount to 1.11, and the run ends as an amount mismatch between
    1.115 and 1.115. *)
Theorem amount_mismatch_on_equal_amounts :
  Float64.float_of_str "1.115" = Some (float_lit "1.115")
  /\ total_of (select_rows sample_date (one_row "1.115")) = float_lit "1.115"
  /\ Float64.np_round2 (float_lit "1.115") = float_lit "1.12"
  /\ Float64.py_round2 (float_lit "1.115") = float_lit "1.11"
  /\ amounts_differ (float_lit "1.115") (float_lit "1.115") = true
  /\ reconcile "1.115" "March Payroll" sample_date (Upload (Ok (one_row "1.115")))
     = Failure (AmountMismatch (float_lit "1.115") (float_lit "1.115")).
Proof. repeat split; vm_compute; reflexivity. Qed.
